(** * ViewBot: the viral-growth simulation engine

    A shallow embedding of the analytics engine of the bot service
    ([bot/src/engine/analytics]): the growth curves of [growthAlgorithm.js],
    the [MetricsCalculator], the [DataGenerator], the [SimulationManager]
    and the orchestrating [AnalyticsService].

    Numbers.  JavaScript has one numeric type.  Counters (view, like,
    comment and share counts, record counts, indices) are integers and are
    modelled by [Z].  Fractional quantities of the engine (elapsed hours,
    ratios, random draws) are modelled by exact rationals [Q]; [Math.floor]
    is [Qfloor].  The growth curves are written once, over an interface
    [JSNumber], and read at three carriers: [Q] inside the engine (with the
    transcendental built-ins left uninterpreted), the reals [R] for the
    closed-form properties of the curve, and IEEE binary64 ([PrimFloat]) for
    what the running program computes. *)

From stdpp Require Import gmap list strings.
From Stdlib Require Import QArith Qround Qminmax Lqa.
From Stdlib Require Import Reals Lra Lia.
From Stdlib Require Import Uint63 Floats.PrimFloat.

#[local] Open Scope Z_scope.

(** ** The number interface *)

Class JSNumber (N : Type) := {
  lit : Q -> N;                 (* numeric literal *)
  nadd : N -> N -> N;
  nsub : N -> N -> N;
  nmul : N -> N -> N;
  ndiv : N -> N -> N;
  nneg : N -> N;
  Math_exp : N -> N;
  Math_log : N -> N;
  Math_min : N -> N -> N;
  is_zero : N -> bool;          (* [x === 0] *)
}.

Declare Scope js_scope.
Delimit Scope js_scope with js.
Infix "+" := nadd : js_scope.
Infix "-" := nsub : js_scope.
Infix "*" := nmul : js_scope.
Infix "/" := ndiv : js_scope.
Notation "- x" := (nneg x) : js_scope.

(** ** growthAlgorithm.js *)

Section GrowthAlgorithm.
Context {N : Type} `{JSNumber N}.
#[local] Open Scope js_scope.

(** Steepness of the curve, [const k = 0.15]. *)
Definition sigmoid_k : N := lit (15 # 100).

Definition calculateSigmoidGrowth (currentTime totalDuration maxValue : N) : N :=
  let k := sigmoid_k in
  let midpoint := totalDuration / lit 2 in
  let exponential := Math_exp (- k * (currentTime - midpoint)) in
  let sigmoidValue := maxValue / (lit 1 + exponential) in
  sigmoidValue.

Definition calculateExponentialGrowth
    (currentTime totalDuration initialValue maxValue : N) : N :=
  let growthRate := Math_log (maxValue / initialValue) / totalDuration in
  let value := initialValue * Math_exp (growthRate * currentTime) in
  Math_min value maxValue.

Definition calculateLogarithmicGrowth (currentTime totalDuration maxValue : N) : N :=
  let adjustedTime := currentTime + lit 1 in
  let adjustedDuration := totalDuration + lit 1 in
  let value := maxValue * (Math_log adjustedTime / Math_log adjustedDuration) in
  Math_min value maxValue.

Definition calculateEngagementMetrics (views likes comments shares : N) : N :=
  if is_zero views then lit 0
  else
    let totalEngagement :=
      (likes * lit 1) + (comments * lit 2) + (shares * lit 3) in
    let engagementRate := (totalEngagement / views) * lit 100 in
    Math_min engagementRate (lit 100).
End GrowthAlgorithm.

(** *** Carrier 1: exact reals *)

Definition RNumber : JSNumber R := {|
  lit := Q2R;
  nadd := Rplus; nsub := Rminus; nmul := Rmult; ndiv := Rdiv; nneg := Ropp;
  Math_exp := exp;
  Math_log := ln;
  Math_min := Rmin;
  is_zero := fun x => if Req_dec_T x 0%R then true else false;
|}.

(** *** Carrier 2: IEEE binary64

    [Math.exp] is implementation-approximated; ECMAScript fixes its value
    only at NaN, at the two zeros and at the two infinities.  The
    approximation used elsewhere is the parameter [approx]. *)

Definition f64_exp (approx : float -> float) (x : float) : float :=
  if PrimFloat.is_nan x then PrimFloat.nan
  else if PrimFloat.is_zero x then 1%float
  else if PrimFloat.is_infinity x then
    (if PrimFloat.get_sign x then 0%float else PrimFloat.infinity)
  else approx x.

(** [Math.min]: NaN if either argument is NaN, and [-0] is below [+0]. *)
Definition f64_min (a b : float) : float :=
  if PrimFloat.is_nan a || PrimFloat.is_nan b then PrimFloat.nan
  else if PrimFloat.ltb a b then a
  else if PrimFloat.ltb b a then b
  else if PrimFloat.get_sign a then a else b.

Definition f64_of_Z (z : Z) : float :=
  match z with
  | Z0 => 0%float
  | Zpos p => PrimFloat.of_uint63 (Uint63.of_Z (Zpos p))
  | Zneg p => PrimFloat.opp (PrimFloat.of_uint63 (Uint63.of_Z (Zpos p)))
  end.

(** A decimal literal is read as the binary64 nearest to it; for the literals
    of this program (small numerators and denominators) that is the
    correctly rounded quotient. *)
Definition f64_lit (q : Q) : float :=
  PrimFloat.div (f64_of_Z (Qnum q)) (f64_of_Z (Zpos (Qden q))).

Definition F64Number (approx_exp approx_log : float -> float) : JSNumber float := {|
  lit := f64_lit;
  nadd := PrimFloat.add; nsub := PrimFloat.sub; nmul := PrimFloat.mul;
  ndiv := PrimFloat.div; nneg := PrimFloat.opp;
  Math_exp := f64_exp approx_exp;
  Math_log := approx_log;
  Math_min := f64_min;
  is_zero := PrimFloat.is_zero;
|}.

(** [Number.MAX_VALUE] *)
Definition MAX_VALUE : float := 0x1.fffffffffffffp+1023%float.

(** *** Carrier 3: exact rationals, transcendental built-ins uninterpreted *)

Definition QNumber (qexp qlog : Q -> Q) : JSNumber Q := {|
  lit := fun q => q;
  nadd := Qplus; nsub := Qminus; nmul := Qmult; ndiv := Qdiv; nneg := Qopp;
  Math_exp := qexp;
  Math_log := qlog;
  Math_min := Qmin;
  is_zero := fun x => Qeq_bool x 0;
|}.

(** The curve over the reals and over binary64. *)

Definition sigmoidR (t T L : R) : R :=
  calculateSigmoidGrowth (H := RNumber) t T L.

Definition sigmoid64 (approx_exp approx_log : float -> float) (t T L : float) : float :=
  calculateSigmoidGrowth (H := F64Number approx_exp approx_log) t T L.

(** ** Data model (shared/database/models) *)

(** The counters of a row of [posts]; the primary key is the key of the
    table.  [shareCount || 0] is the identity on an integer column. *)
Record PostRow := {
  viewCount : Z;
  likeCount : Z;
  commentCount : Z;
  shareCount : Z;
}.

(** A post instance as returned by [findByPk] / [findAll]. *)
Record Post := {
  post_id : Z;
  post_row : PostRow;
}.

Record User := {
  user_id : Z;
  isBot : bool;
}.

(** [ipAddress] keeps the four octets that the source joins with dots;
    [userId] and [userAgent] are [None] where JavaScript reads [undefined]
    from an array. *)
Record ViewRecord := {
  view_postId : Z;
  view_userId : option Z;
  ipAddress : list Z;
  userAgent : option string;
  duration : Z;
  view_createdAt : Z;
}.

Record LikeRecord := {
  like_userId : Z;
  like_postId : Z;
  like_createdAt : Z;
}.

(** [elapsedHours] and [progress] are kept as numbers; the source formats
    them with [toFixed]. *)
Record Metadata := {
  md_source : string;
  md_growthCurve : string;
  md_elapsedHours : Q;
  md_progress : Q;
}.

Record AnalyticsEntry := {
  ae_postId : Z;
  ae_timestamp : Z;
  ae_viewCount : Z;
  ae_likeCount : Z;
  ae_commentCount : Z;
  ae_shareCount : Z;
  ae_engagementRate : Q;
  ae_metadata : Metadata;
}.

Record Database := {
  posts : gmap Z PostRow;
  users : list User;
  views : list ViewRecord;
  likes : list LikeRecord;
  analyticsEntries : list AnalyticsEntry;
}.

(** ** Simulations and the registry (simulationManager.js) *)

Record Simulation := {
  targetMediaId : Z;
  maxViews : Q;
  maxLikes : Q;
  likeRatio : Q;
  growthDurationHours : Q;
  growthCurve : string;
  startTime : Z;
  initialViews : Z;
  initialLikes : Z;
}.

(** The request object of [startViralSimulation]; the three optional
    fields have defaults. *)
Record SimulationConfig := {
  cfg_targetMediaId : Z;
  cfg_maxViews : Q;
  cfg_maxLikes : option Q;
  cfg_likeRatio : option Q;
  cfg_growthDurationHours : option Q;
  cfg_growthCurve : option string;
}.

(** [appConfig.analytics], as the engine reads it.  [config.js] gives
    [defaultGrowthDurationHours] (72) and [defaultLikeRatio] (0.05); it has
    no entry under the other seven names (it has [batchSize: 100] and
    [maxBotUsersPerUpdate: 50]), so their values are parameters of the
    model. *)
Record AnalyticsConfig := {
  defaultGrowthDurationHours : Q;
  defaultLikeRatio : Q;
  defaultGrowthCurve : string;
  viewVarianceRange : Q;
  likeVarianceRange : Q;
  maxBotUsersPerBatch : Z;
  minViewDuration : Z;
  maxViewDuration : Z;
  bulkInsertBatchSize : Z;
}.

(** ** Errors, outcomes and the world *)

Inductive DbOp :=
| OpFindAllPosts
| OpFindPost (id : Z)
| OpTransaction (id : Z).

Inductive Error :=
| TargetMediaNotFound (id : Z)   (* Target media <id> not found *)
| PostNotFound (id : Z)          (* Post <id> not found *)
| PostNotFoundLocked (id : Z)    (* Post <id> not found during locked update *)
| TypeError                      (* property read on undefined *)
| DatabaseError (op : DbOp).     (* rejection of a database call *)

(** What an [await]ed call does: return, throw, or never return. *)
Inductive Outcome (A : Type) :=
| Ok (a : A)
| Throw (e : Error)
| Hang.
Arguments Ok {A} a.
Arguments Throw {A} e.
Arguments Hang {A}.

(** The registry is a JavaScript [Map]: insertion ordered, one entry per key. *)
Record World := {
  db : Database;
  registry : list (Z * Simulation);
  draws : nat;                       (* calls of Math.random() so far *)
}.

(** What the engine reads from outside: the values [Math.random()]
    returns, the clock (one instant for the whole of a call), the built-ins
    the rationals do not have, the configuration, and which database calls
    are rejected.  A rejection inside the transaction of
    [applyMetricsUpdate] is observed when the transaction is committed: all
    its writes are rolled back, so the call at which it happened cannot be
    told from the outside. *)
Record Env := {
  Math_random_values : nat -> Q;
  Date_now : Z;
  env_exp : Q -> Q;
  env_log : Q -> Q;
  appConfig : AnalyticsConfig;
  db_rejects : DbOp -> bool;
}.

Definition M (A : Type) : Type := World -> Outcome A * World.

Definition ret {A} (a : A) : M A := fun w => (Ok a, w).

Definition bind {A B} (m : M A) (k : A -> M B) : M B :=
  fun w =>
    match m w with
    | (Ok a, w') => k a w'
    | (Throw e, w') => (Throw e, w')
    | (Hang, w') => (Hang, w')
    end.

Definition throw {A} (e : Error) : M A := fun w => (Throw e, w).

Definition hang {A} : M A := fun w => (Hang, w).

(** [try { m } catch (error) { handler error }] *)
Definition try_catch {A} (m : M A) (handler : Error -> M A) : M A :=
  fun w =>
    match m w with
    | (Ok a, w') => (Ok a, w')
    | (Throw e, w') => handler e w'
    | (Hang, w') => (Hang, w')
    end.

Notation "'let*' x := m 'in' k" := (bind m (fun x => k))
  (at level 10, x name, m at level 100, k at level 200).
Notation "'run' m 'then' k" := (bind m (fun _ => k))
  (at level 10, m at level 100, k at level 200).

Fixpoint mapM {A B} (f : A -> M B) (l : list A) : M (list B) :=
  match l with
  | [] => ret []
  | a :: l' => let* b := f a in let* bs := mapM f l' in ret (b :: bs)
  end.

Definition get_db : M Database := fun w => (Ok (db w), w).

Definition set_db (d : Database) : M unit :=
  fun w => (Ok tt, {| db := d; registry := registry w; draws := draws w |}).

Definition get_registry : M (list (Z * Simulation)) := fun w => (Ok (registry w), w).

Definition set_registry (r : list (Z * Simulation)) : M unit :=
  fun w => (Ok tt, {| db := db w; registry := r; draws := draws w |}).

(** ** JavaScript arrays and maps *)

(** [a[i]] *)
Definition array_get {A} (a : list A) (i : Z) : option A :=
  if i <? 0 then None else a !! Z.to_nat i.

(** The relative index of [Array.prototype.slice]. *)
Definition slice_index (len k : Z) : Z :=
  if k <? 0 then Z.max (len + k) 0 else Z.min k len.

(** [a.slice(start, end)] *)
Definition Array_slice {A} (a : list A) (start end_ : Z) : list A :=
  let len := Z.of_nat (length a) in
  let from := slice_index len start in
  let to := slice_index len end_ in
  take (Z.to_nat (to - from)) (drop (Z.to_nat from) a).

(** [map.set(k, v)]: an existing key keeps its place. *)
Fixpoint Map_set {V} (k : Z) (v : V) (m : list (Z * V)) : list (Z * V) :=
  match m with
  | [] => [(k, v)]
  | (k', v') :: m' => if decide (k' = k) then (k, v) :: m' else (k', v') :: Map_set k v m'
  end.

Fixpoint Map_get {V} (k : Z) (m : list (Z * V)) : option V :=
  match m with
  | [] => None
  | (k', v') :: m' => if decide (k' = k) then Some v' else Map_get k m'
  end.

Definition Map_has {V} (k : Z) (m : list (Z * V)) : bool :=
  match Map_get k m with Some _ => true | None => false end.

Definition Map_delete {V} (k : Z) (m : list (Z * V)) : list (Z * V) :=
  filter (fun kv => kv.1 <> k) m.

Definition Map_keys {V} (m : list (Z * V)) : list Z := fst <$> m.

(** ** The engine *)

Section Engine.
Variable env : Env.

(** [Math.random()] *)
Definition Math_random : M Q :=
  fun w =>
    (Ok (Math_random_values env (draws w)),
     {| db := db w; registry := registry w; draws := S (draws w) |}).

Definition Math_floor (x : Q) : Z := Qfloor x.

(** [db.Post.findByPk(id)] outside a transaction. *)
Definition findByPk (id : Z) : M (option Post) :=
  if db_rejects env (OpFindPost id) then throw (DatabaseError (OpFindPost id))
  else
    let* d := get_db in
    ret ((fun r => {| post_id := id; post_row := r |}) <$> posts d !! id).

(** [db.Post.findAll({ where: { id: { [Op.in]: ids } } })] *)
Definition findAllPosts (ids : list Z) : M (list Post) :=
  if db_rejects env OpFindAllPosts then throw (DatabaseError OpFindAllPosts)
  else
    let* d := get_db in
    ret (omap (fun id => (fun r => {| post_id := id; post_row := r |}) <$> posts d !! id) ids).

(** *** simulationManager.js *)

Record StartResult := {
  sr_success : bool;
  sr_simulation : Simulation;
}.

Definition startSimulation (targetMediaId : Z) (maxViews maxLikes likeRatio growthDurationHours : Q)
    (growthCurve : string) (initialViews initialLikes : Z) : M StartResult :=
  let simulation := {|
    targetMediaId := targetMediaId;
    maxViews := maxViews;
    maxLikes := maxLikes;
    likeRatio := likeRatio;
    growthDurationHours := growthDurationHours;
    growthCurve := growthCurve;
    startTime := Date_now env;
    initialViews := initialViews;
    initialLikes := initialLikes |} in
  let* activeSimulations := get_registry in
  run set_registry (Map_set targetMediaId simulation activeSimulations) then
  ret {| sr_success := true; sr_simulation := simulation |}.

Definition stopSimulation (mediaId : Z) : M bool :=
  let* activeSimulations := get_registry in
  if Map_has mediaId activeSimulations then
    run set_registry (Map_delete mediaId activeSimulations) then
    ret true
  else ret false.

Definition getSimulation (mediaId : Z) : M (option Simulation) :=
  let* activeSimulations := get_registry in
  ret (Map_get mediaId activeSimulations).

Definition elapsedHoursSince (startTime : Z) : Q :=
  let elapsedMs := inject_Z (Date_now env - startTime) in
  elapsedMs / inject_Z (1000 * 60 * 60).

Definition isSimulationComplete (simulation : Simulation) : bool :=
  let elapsedHours := elapsedHoursSince (startTime simulation) in
  Qle_bool (growthDurationHours simulation) elapsedHours.

Definition getActiveSimulationIds : M (list Z) :=
  let* activeSimulations := get_registry in
  ret (Map_keys activeSimulations).

(** *** metricsCalculator.js *)

Definition calculateSigmoidViews (elapsedHours growthDurationHours maxViews : Q)
    (initialViews : Z) : Z :=
  let viewGrowth := (maxViews - inject_Z initialViews)%Q in
  let growthProgress :=
    calculateSigmoidGrowth (H := QNumber (env_exp env) (env_log env))
      elapsedHours growthDurationHours viewGrowth in
  Math_floor (inject_Z initialViews + growthProgress)%Q.

Definition calculateExponentialViews (elapsedHours growthDurationHours maxViews : Q)
    (initialViews : Z) : Z :=
  let growthRate := (env_log env (maxViews / inject_Z initialViews) / growthDurationHours)%Q in
  Math_floor (inject_Z initialViews * env_exp env (growthRate * elapsedHours))%Q.

Definition calculateLinearViews (elapsedHours growthDurationHours maxViews : Q)
    (initialViews : Z) : Z :=
  let viewsPerHour := ((maxViews - inject_Z initialViews) / growthDurationHours)%Q in
  Math_floor (inject_Z initialViews + viewsPerHour * elapsedHours)%Q.

(** The value of [targetViews] before the random variance is applied. *)
Definition curveViews (simulation : Simulation) (elapsedHours : Q) : Z :=
  if decide (growthCurve simulation = "sigmoid") then
    calculateSigmoidViews elapsedHours (growthDurationHours simulation)
      (maxViews simulation) (initialViews simulation)
  else if decide (growthCurve simulation = "exponential") then
    calculateExponentialViews elapsedHours (growthDurationHours simulation)
      (maxViews simulation) (initialViews simulation)
  else
    calculateLinearViews elapsedHours (growthDurationHours simulation)
      (maxViews simulation) (initialViews simulation).

(** [Math.min(potentialLikes, maxLikes, targetViews)] *)
Definition curveLikes (simulation : Simulation) (targetViews : Z) : Q :=
  let potentialLikes := Math_floor (inject_Z targetViews * likeRatio simulation)%Q in
  Qmin (Qmin (inject_Z potentialLikes) (maxLikes simulation)) (inject_Z targetViews).

(** [Math.random() * range - range / 2] *)
Definition variance (range r : Q) : Q := (r * range - range / 2)%Q.

(** [Math.floor(target * (1 + variance))] *)
Definition applyVariance (target v : Q) : Z := Math_floor (target * (1 + v))%Q.

Definition calculateTargetMetrics (simulation : Simulation) (elapsedHours : Q) : M (Z * Z) :=
  let targetViews := curveViews simulation elapsedHours in
  let targetLikes := curveLikes simulation targetViews in
  let* r1 := Math_random in
  let viewVariance := variance (viewVarianceRange (appConfig env)) r1 in
  let* r2 := Math_random in
  let likeVariance := variance (likeVarianceRange (appConfig env)) r2 in
  let targetViews := applyVariance (inject_Z targetViews) viewVariance in
  let targetLikes := applyVariance targetLikes likeVariance in
  ret (targetViews, targetLikes).

Record AdjustedMetrics := {
  finalViews : Z;
  finalLikes : Z;
  hasChanges : bool;
}.

Definition adjustMetrics (targetViews targetLikes currentViews currentLikes : Z) : AdjustedMetrics :=
  let finalViews := Z.max targetViews currentViews in
  let finalLikes := Z.max targetLikes currentLikes in
  let finalLikes := Z.min finalLikes finalViews in
  {| finalViews := finalViews;
     finalLikes := finalLikes;
     hasChanges := (currentViews <? finalViews) || (currentLikes <? finalLikes) |}.

Definition calculateElapsedTime (startTime : Z) : Q := elapsedHoursSince startTime.

Definition calculateEngagement (viewCount likeCount commentCount shareCount : Z) : Q :=
  calculateEngagementMetrics (H := QNumber (env_exp env) (env_log env))
    (inject_Z viewCount) (inject_Z likeCount) (inject_Z commentCount) (inject_Z shareCount).

(** The percentage that the source prints with [toFixed(1) + '%']. *)
Definition calculateProgress (elapsedHours growthDurationHours : Q) : Q :=
  ((elapsedHours / growthDurationHours) * 100)%Q.

(** *** dataGenerator.js *)

(** [[a[i], a[j]] = [a[j], a[i]]].  The draw of [shuffleArray] keeps [j]
    inside the array; outside it JavaScript would store [undefined], which a
    list of users cannot hold, and the model leaves the array as it is. *)
Definition swap {A} (i : nat) (j : Z) (a : list A) : list A :=
  match a !! i, array_get a j with
  | Some x, Some y => <[Z.to_nat j := x]> (<[i := y]> a)
  | _, _ => a
  end.

(** The loop [for (let i = shuffled.length - 1; i > 0; i--)], entered at [i]. *)
Fixpoint shuffle_from {A} (i : nat) (shuffled : list A) : M (list A) :=
  match i with
  | O => ret shuffled
  | S i' =>
      let* r := Math_random in
      let j := Math_floor (r * inject_Z (Z.of_nat i + 1))%Q in
      shuffle_from i' (swap i j shuffled)
  end.

Definition shuffleArray {A} (array : list A) : M (list A) :=
  let shuffled := array in
  shuffle_from (length shuffled - 1) shuffled.

Definition generateRandomIP : M (list Z) :=
  mapM (fun _ : Z =>
          let* r := Math_random in
          ret (Math_floor (r * 256)%Q))
       (seqZ 0 4).

Definition userAgents : list string := [
  "Mozilla/5.0 (Windows NT 10.0; Win64; x64) AppleWebKit/537.36";
  "Mozilla/5.0 (Macintosh; Intel Mac OS X 10_15_7) AppleWebKit/537.36";
  "Mozilla/5.0 (X11; Linux x86_64) AppleWebKit/537.36";
  "Mozilla/5.0 (iPhone; CPU iPhone OS 14_7_1 like Mac OS X) AppleWebKit/605.1.15";
  "Mozilla/5.0 (iPad; CPU OS 14_7_1 like Mac OS X) AppleWebKit/605.1.15";
  "Mozilla/5.0 (Android 11; Mobile; rv:89.0) Gecko/89.0 Firefox/89.0"
].

Definition generateRandomUserAgent : M (option string) :=
  let* r := Math_random in
  ret (array_get userAgents (Math_floor (r * inject_Z (Z.of_nat (length userAgents)))%Q)).

(** [db.View.bulkCreate(batch)] *)
Definition bulkCreateViews (batch : list ViewRecord) : M unit :=
  let* d := get_db in
  set_db {| posts := posts d; users := users d; views := views d ++ batch;
            likes := likes d; analyticsEntries := analyticsEntries d |}.

(** [db.Like.bulkCreate(records)] *)
Definition bulkCreateLikes (records : list LikeRecord) : M unit :=
  let* d := get_db in
  set_db {| posts := posts d; users := users d; views := views d;
            likes := likes d ++ records; analyticsEntries := analyticsEntries d |}.

(** The loop [for (let i = 0; i < viewRecords.length; i += batchSize)],
    entered at [i].  It returns after at most [length viewRecords] rounds
    when the batch size is positive and never otherwise: with [fuel] above
    the length, running out of fuel is not returning. *)
Fixpoint insertViewBatches (fuel : nat) (batchSize i : Z) (viewRecords : list ViewRecord) : M unit :=
  if i <? Z.of_nat (length viewRecords) then
    match fuel with
    | O => hang
    | S fuel' =>
        let batch := Array_slice viewRecords i (i + batchSize) in
        run bulkCreateViews batch then
        insertViewBatches fuel' batchSize (i + batchSize) viewRecords
    end
  else ret tt.

(** One round of the loop that builds the view records. *)
Definition buildViewRecord (postId : Z) (userIds : list Z) (i : Z) : M ViewRecord :=
  let len := Z.of_nat (length userIds) in
  let userId := if len =? 0 then None else array_get userIds (Z.rem i len) in
  let* ipAddress := generateRandomIP in
  let* userAgent := generateRandomUserAgent in
  let* r := Math_random in
  let lo := minViewDuration (appConfig env) in
  let hi := maxViewDuration (appConfig env) in
  ret {| view_postId := postId;
         view_userId := userId;
         ipAddress := ipAddress;
         userAgent := userAgent;
         duration := Math_floor (r * inject_Z (hi - lo))%Q + lo;
         view_createdAt := Date_now env |}.

(** The bot users that [generateSyntheticViews] attributes the views to. *)
Definition selectViewers (count : Z) : M (list Z) :=
  let* d := get_db in
  let allBotUsers := filter (fun u => isBot u = true) (users d) in
  let* shuffledUsers := shuffleArray allBotUsers in
  let botUsers :=
    Array_slice shuffledUsers 0 (Z.min count (maxBotUsersPerBatch (appConfig env))) in
  ret (user_id <$> botUsers).

(** The records that [generateSyntheticViews] builds before it writes them. *)
Definition buildViewRecords (postId count : Z) : M (list ViewRecord) :=
  let* userIds := selectViewers count in
  mapM (buildViewRecord postId userIds) (seqZ 0 count).

Definition generateSyntheticViews (postId count : Z) : M unit :=
  let* viewRecords := buildViewRecords postId count in
  let batchSize := bulkInsertBatchSize (appConfig env) in
  insertViewBatches (S (length viewRecords)) batchSize 0 viewRecords.

(** The records that [generateSyntheticLikes] builds before it writes them. *)
Definition buildLikeRecords (postId count : Z) (existingLikedUserIds : gset Z) : M (list LikeRecord) :=
  let* d := get_db in
  let allAvailableBotUsers :=
    filter (fun u => isBot u = true /\ user_id u ∉ existingLikedUserIds) (users d) in
  let* shuffledUsers := shuffleArray allAvailableBotUsers in
  let availableBotUsers := Array_slice shuffledUsers 0 count in
  ret ((fun user => {| like_userId := user_id user;
                       like_postId := postId;
                       like_createdAt := Date_now env |}) <$> availableBotUsers).

Definition generateSyntheticLikes (postId count : Z) (existingLikedUserIds : gset Z) : M Z :=
  let* likeRecords := buildLikeRecords postId count existingLikedUserIds in
  run (if 0 <? Z.of_nat (length likeRecords) then bulkCreateLikes likeRecords else ret tt) then
  ret (Z.of_nat (length likeRecords)).

Definition createAnalyticsEntry (postId viewCount likeCount commentCount shareCount : Z)
    (engagementRate : Q) (metadata : Metadata) : M unit :=
  let entry := {|
    ae_postId := postId;
    ae_timestamp := Date_now env;
    ae_viewCount := viewCount;
    ae_likeCount := likeCount;
    ae_commentCount := commentCount;
    ae_shareCount := shareCount;
    ae_engagementRate := engagementRate;
    ae_metadata := metadata |} in
  let* d := get_db in
  set_db {| posts := posts d; users := users d; views := views d;
            likes := likes d; analyticsEntries := analyticsEntries d ++ [entry] |}.

(** *** analyticsService.js *)

Inductive UpdateResult :=
| ResultComplete (mediaId : Z)
    (* { mediaId, success: true, isComplete: true, message } *)
| ResultUpdated (mediaId currentViews currentLikes : Z) (progress : Q)
    (changes_views changes_likes : Z)
    (* { mediaId, success: true, isComplete: false, currentViews,
         currentLikes, progress, changes: { views, likes } } *)
| ResultFailed (mediaId : Z) (error : Error).
    (* { mediaId, success: false, error } *)

Definition result_mediaId (r : UpdateResult) : Z :=
  match r with
  | ResultComplete m => m
  | ResultUpdated m _ _ _ _ _ => m
  | ResultFailed m _ => m
  end.

Definition result_success (r : UpdateResult) : bool :=
  match r with
  | ResultFailed _ _ => false
  | _ => true
  end.

(** [result.isComplete], read as a condition. *)
Definition result_isComplete (r : UpdateResult) : bool :=
  match r with
  | ResultComplete _ => true
  | _ => false
  end.

(** [maxLikes || Math.floor(maxViews * defaultLikeRatio)] *)
Definition maxLikesOrDefault (maxLikes : option Q) (maxViews : Q) : Q :=
  let fallback := inject_Z (Math_floor (maxViews * defaultLikeRatio (appConfig env))%Q) in
  match maxLikes with
  | Some m => if Qeq_bool m 0 then fallback else m
  | None => fallback
  end.

Definition startViralSimulation (config : SimulationConfig) : M StartResult :=
  let targetMediaId := cfg_targetMediaId config in
  let maxViews := cfg_maxViews config in
  let maxLikes := cfg_maxLikes config in
  let likeRatio := default (defaultLikeRatio (appConfig env)) (cfg_likeRatio config) in
  let growthDurationHours :=
    default (defaultGrowthDurationHours (appConfig env)) (cfg_growthDurationHours config) in
  let growthCurve := default (defaultGrowthCurve (appConfig env)) (cfg_growthCurve config) in
  try_catch
    (let* targetPost := findByPk targetMediaId in
     match targetPost with
     | None => throw (TargetMediaNotFound targetMediaId)
     | Some targetPost =>
         startSimulation targetMediaId maxViews (maxLikesOrDefault maxLikes maxViews)
           likeRatio growthDurationHours growthCurve
           (viewCount (post_row targetPost)) (likeCount (post_row targetPost))
     end)
    (fun error => throw error).

(** The body of the transaction of [applyMetricsUpdate], up to the commit. *)
Definition metricsUpdateTransaction (post : Post) (finalViews finalLikes : Z)
    (simulation : Simulation) (elapsedHours : Q) : M unit :=
  let* d := get_db in
  match posts d !! post_id post with
  | None => throw (PostNotFoundLocked (post_id post))
  | Some lockedPost =>
      let adjustedViews := Z.max finalViews (viewCount lockedPost) in
      let adjustedLikes := Z.max finalLikes (likeCount lockedPost) in
      let finalLikesAdjusted := Z.min adjustedLikes adjustedViews in
      let newViews := adjustedViews - viewCount lockedPost in
      let newLikes := finalLikesAdjusted - likeCount lockedPost in
      let updated := {| viewCount := adjustedViews;
                        likeCount := finalLikesAdjusted;
                        commentCount := commentCount lockedPost;
                        shareCount := shareCount lockedPost |} in
      run set_db {| posts := <[post_id post := updated]> (posts d); users := users d;
                    views := views d; likes := likes d;
                    analyticsEntries := analyticsEntries d |} then
      let engagementRate :=
        calculateEngagement adjustedViews finalLikesAdjusted
          (commentCount lockedPost) (shareCount lockedPost) in
      run createAnalyticsEntry (post_id post) adjustedViews finalLikesAdjusted
            (commentCount lockedPost) (shareCount lockedPost) engagementRate
            {| md_source := "viral_simulation";
               md_growthCurve := growthCurve simulation;
               md_elapsedHours := elapsedHours;
               md_progress :=
                 calculateProgress elapsedHours (growthDurationHours simulation) |} then
      run (if 0 <? newViews then generateSyntheticViews (post_id post) newViews
           else ret tt) then
      run (if 0 <? newLikes then
             let* d' := get_db in
             let existingLikes :=
               filter (fun l => like_postId l = post_id post) (likes d') in
             let likedUserIds : gset Z := list_to_set (like_userId <$> existingLikes) in
             run generateSyntheticLikes (post_id post) newLikes likedUserIds then
             ret tt
           else ret tt) then
      (* await transaction.commit() *)
      if db_rejects env (OpTransaction (post_id post))
      then throw (DatabaseError (OpTransaction (post_id post)))
      else ret tt
  end.

(** [try { ... commit } catch (error) { rollback; throw error }] *)
Definition applyMetricsUpdate (post : Post) (finalViews finalLikes : Z)
    (simulation : Simulation) (elapsedHours : Q) : M unit :=
  fun w =>
    match metricsUpdateTransaction post finalViews finalLikes simulation elapsedHours w with
    | (Throw error, w') =>
        (Throw error, {| db := db w; registry := registry w'; draws := draws w' |})
    | other => other
    end.

Definition updateSingleSimulation (mediaId : Z) (simulation : Simulation)
    (preloadedPost : option Post) : M UpdateResult :=
  if isSimulationComplete simulation then ret (ResultComplete mediaId)
  else
    let* post := match preloadedPost with
                 | Some p => ret (Some p)
                 | None => findByPk mediaId
                 end in
    match post with
    | None => throw (PostNotFound mediaId)
    | Some post =>
        let elapsedHours := calculateElapsedTime (startTime simulation) in
        let* targets := calculateTargetMetrics simulation elapsedHours in
        let adjusted :=
          adjustMetrics targets.1 targets.2
            (viewCount (post_row post)) (likeCount (post_row post)) in
        run (if hasChanges adjusted then
               applyMetricsUpdate post (finalViews adjusted) (finalLikes adjusted)
                 simulation elapsedHours
             else ret tt) then
        let progress := calculateProgress elapsedHours (growthDurationHours simulation) in
        ret (ResultUpdated mediaId (finalViews adjusted) (finalLikes adjusted) progress
               (if hasChanges adjusted
                then finalViews adjusted - viewCount (post_row post) else 0)
               (if hasChanges adjusted
                then finalLikes adjusted - likeCount (post_row post) else 0))
    end.

(** [new Map(posts.map(p => [p.id, p]))] *)
Definition postsById (posts : list Post) : list (Z * Post) :=
  foldl (fun m p => Map_set (post_id p) p m) [] posts.

(** One round of the loop [for (const mediaId of mediaIds)]. *)
Definition updateOne (postsMap : list (Z * Post)) (results : list UpdateResult)
    (mediaId : Z) : M (list UpdateResult) :=
  try_catch
    (let* simulation := getSimulation mediaId in
     match Map_get mediaId postsMap with
     | None => throw (PostNotFound mediaId)
     | Some post =>
         match simulation with
         | None => throw TypeError
         | Some simulation =>
             let* result := updateSingleSimulation mediaId simulation (Some post) in
             let results := results ++ [result] in
             run (if result_isComplete result
                  then (run stopSimulation mediaId then ret tt)
                  else ret tt) then
             ret results
         end
     end)
    (fun error => ret (results ++ [ResultFailed mediaId error])).

Fixpoint updateEach (postsMap : list (Z * Post)) (results : list UpdateResult)
    (mediaIds : list Z) : M (list UpdateResult) :=
  match mediaIds with
  | [] => ret results
  | mediaId :: rest =>
      let* results := updateOne postsMap results mediaId in
      updateEach postsMap results rest
  end.

Definition updateSimulations : M (list UpdateResult) :=
  let results := [] in
  let* mediaIds := getActiveSimulationIds in
  if (Z.of_nat (length mediaIds) =? 0) then ret results
  else
    let* posts := findAllPosts mediaIds in
    let postsMap := postsById posts in
    updateEach postsMap results mediaIds.

End Engine.

(** The constants that the service hard-coded before they were moved to
    [appConfig.analytics] (the earlier [AnalyticsService] kept beside
    [growthAlgorithm.js]): like ratio 0.05, 72 hours, the sigmoid curve,
    variance ranges 0.1 and 0.15, 50 bot users, view durations
    [Math.floor(Math.random() * 300) + 10], batches of 100. *)
Definition hardcodedConfig : AnalyticsConfig := {|
  defaultGrowthDurationHours := 72;
  defaultLikeRatio := 5 # 100;
  defaultGrowthCurve := "sigmoid";
  viewVarianceRange := 1 # 10;
  likeVarianceRange := 15 # 100;
  maxBotUsersPerBatch := 50;
  minViewDuration := 10;
  maxViewDuration := 310;
  bulkInsertBatchSize := 100;
|}.

(** ** A concrete scenario *)

Definition exampleEnv : Env := {|
  Math_random_values := fun _ => 1 # 2;
  Date_now := 36 * (1000 * 60 * 60);
  env_exp := fun _ => 1%Q;
  env_log := fun _ => 0%Q;
  appConfig := hardcodedConfig;
  db_rejects := fun _ => false;
|}.

Definition exampleSimulation : Simulation := {|
  targetMediaId := 1;
  maxViews := 200;
  maxLikes := 50;
  likeRatio := 5 # 100;
  growthDurationHours := 72;
  growthCurve := "linear";
  startTime := 0;
  initialViews := 100;
  initialLikes := 5;
|}.

Definition exampleRow : PostRow :=
  {| viewCount := 100; likeCount := 5; commentCount := 2; shareCount := 1 |}.

Definition examplePost : Post := {| post_id := 1; post_row := exampleRow |}.

Definition exampleUsers : list User := [
  {| user_id := 11; isBot := true |};
  {| user_id := 12; isBot := true |};
  {| user_id := 13; isBot := false |};
  {| user_id := 14; isBot := true |}
].

Definition exampleDatabase (row : PostRow) : Database := {|
  posts := {[ 1 := row ]};
  users := exampleUsers;
  views := [];
  likes := [];
  analyticsEntries := [];
|}.

Definition exampleWorld : World := {|
  db := exampleDatabase exampleRow;
  registry := [(1, exampleSimulation)];
  draws := 0;
|}.

(** The same post after two hundred views by other writers. *)
Definition viewedRow : PostRow :=
  {| viewCount := 200; likeCount := 5; commentCount := 2; shareCount := 1 |}.

Definition viewedWorld : World := {|
  db := exampleDatabase viewedRow;
  registry := [(1, exampleSimulation)];
  draws := 0;
|}.

(** A post whose counters are already above the targets. *)
Definition settledRow : PostRow :=
  {| viewCount := 1000; likeCount := 50; commentCount := 2; shareCount := 1 |}.

Definition settledPost : Post := {| post_id := 1; post_row := settledRow |}.

Definition settledWorld : World := {|
  db := exampleDatabase settledRow;
  registry := [(1, exampleSimulation)];
  draws := 0;
|}.

(** A post nobody has viewed, and no simulation yet. *)
Definition unseenRow : PostRow :=
  {| viewCount := 0; likeCount := 0; commentCount := 0; shareCount := 0 |}.

Definition unseenWorld : World := {|
  db := exampleDatabase unseenRow;
  registry := [];
  draws := 0;
|}.

(** A request for the exponential curve over zero hours. *)
Definition exponentialConfig : SimulationConfig := {|
  cfg_targetMediaId := 1;
  cfg_maxViews := 10000;
  cfg_maxLikes := None;
  cfg_likeRatio := None;
  cfg_growthDurationHours := Some 0%Q;
  cfg_growthCurve := Some "exponential";
|}.

(** The environment in which the batch read of the posts is rejected. *)
Definition batchReadRejected : Env := {|
  Math_random_values := Math_random_values exampleEnv;
  Date_now := Date_now exampleEnv;
  env_exp := env_exp exampleEnv;
  env_log := env_log exampleEnv;
  appConfig := appConfig exampleEnv;
  db_rejects := fun op => match op with OpFindAllPosts => true | _ => false end;
|}.

(** The scenario with a database that rejects the commit of a
    transaction. *)
Definition commitRejected : Env := {|
  Math_random_values := Math_random_values exampleEnv;
  Date_now := Date_now exampleEnv;
  env_exp := env_exp exampleEnv;
  env_log := env_log exampleEnv;
  appConfig := appConfig exampleEnv;
  db_rejects := fun op => match op with OpTransaction _ => true | _ => false end;
|}.

(** ** Vocabulary of the statements *)

(** [preserves R m]: running [m] relates the world before to the world
    after, whatever the outcome. *)
Definition preserves {A} (R : relation World) (m : M A) : Prop :=
  forall w, R w (m w).2.

(** [returns m]: [m] returns or throws. *)
Definition returns {A} (m : M A) : Prop :=
  forall w, (m w).1 <> Hang.

(** A component of the world is left as it was. *)
Definition same {X} (f : World -> X) : relation World := fun w w' => f w' = f w.

Definition db_posts (w : World) : gmap Z PostRow := posts (db w).

(** How [updateSingleSimulation] gets the post it works on: it is handed
    over by the caller, or read from the database. *)
Definition resolvesTo (env : Env) (mediaId : Z) (preloadedPost : option Post)
    (w : World) (post : Post) : Prop :=
  preloadedPost = Some post \/
  (preloadedPost = None /\
   db_rejects env (OpFindPost mediaId) = false /\
   post_id post = mediaId /\
   db_posts w !! mediaId = Some (post_row post)).

(** [Math.random()] returns a number in [0, 1). *)
Definition random_in_unit (env : Env) : Prop :=
  forall n, (0 <= Math_random_values env n /\ Math_random_values env n < 1)%Q.

(** [ensures P m]: what [m] returns satisfies [P]. *)
Definition ensures {A} (P : A -> Prop) (m : M A) : Prop :=
  forall w a w', m w = (Ok a, w') -> P a.

(** What one round of the record-building loop produces. *)
Definition viewRecordFor (env : Env) (postId : Z) (userIds : list Z) (i : Z) (record : ViewRecord) : Prop :=
  view_postId record = postId /\
  view_userId record =
    (if Z.of_nat (length userIds) =? 0 then None
     else array_get userIds (Z.rem i (Z.of_nat (length userIds)))) /\
  length (ipAddress record) = 4%nat /\
  Forall (fun octet => 0 <= octet <= 255) (ipAddress record) /\
  (exists ua, userAgent record = Some ua /\ ua ∈ userAgents) /\
  minViewDuration (appConfig env) <= duration record <= maxViewDuration (appConfig env).

(** The scenario at another time. *)
Definition exampleEnvAt (now : Z) : Env := {|
  Math_random_values := Math_random_values exampleEnv;
  Date_now := now;
  env_exp := env_exp exampleEnv;
  env_log := env_log exampleEnv;
  appConfig := appConfig exampleEnv;
  db_rejects := db_rejects exampleEnv;
|}.

(** ** More of the engine *)

Section MoreOfTheEngine.
Variable env : Env.

(** *** growthAlgorithm.js, the helpers around the curves *)

(** [addRealisticVariance(value, variance = 0.1)] *)
Definition addRealisticVariance (value : Q) (variance : option Q) : M Z :=
  let variance := default (1 # 10) variance in
  let* r := Math_random env in
  let randomVariance := ((r * 2 - 1) * variance)%Q in
  ret (Math_floor (value * (1 + randomVariance))%Q).

Definition calculateViralCoefficient (shares newViewsFromShares : Q) : Q :=
  if Qeq_bool shares 0 then 0%Q else (newViewsFromShares / shares)%Q.

Definition hourlyActivity : list Q := [
  3 # 10; 2 # 10; 15 # 100; 1 # 10; 1 # 10; 15 # 100;
  3 # 10; 5 # 10; 7 # 10; 8 # 10; 85 # 100; 9 # 10;
  95 # 100; 9 # 10; 85 # 100; 8 # 10; 85 # 100; 9 # 10;
  95 # 100; 1; 95 # 100; 85 # 100; 7 # 10; 5 # 10
]%Q.

(** [hourlyActivity[hourOfDay] || 0.5] *)
Definition getHourlyActivityMultiplier (hourOfDay : Z) : Q :=
  match array_get hourlyActivity hourOfDay with
  | Some activity => if Qeq_bool activity 0 then 1 # 2 else activity
  | None => 1 # 2
  end.

Record CompoundGrowthParams := {
  cg_currentTime : Q;
  cg_totalDuration : Q;
  cg_baseGrowth : Q;
  cg_viralFactor : option Q;
  cg_seasonalFactor : option Q;
  cg_hourOfDay : option Z;
}.

Record CompoundGrowth := {
  baseGrowth : Q;
  hourlyMultiplier : Q;
  viralFactor : Q;
  seasonalFactor : Q;
  finalGrowth : Z;
}.

Definition calculateCompoundGrowth (params : CompoundGrowthParams) : M CompoundGrowth :=
  let currentTime := cg_currentTime params in
  let totalDuration := cg_totalDuration params in
  let baseGrowth := cg_baseGrowth params in
  let viralFactor := default 1%Q (cg_viralFactor params) in
  let seasonalFactor := default 1%Q (cg_seasonalFactor params) in
  let hourOfDay := default 12 (cg_hourOfDay params) in
  let sigmoidGrowth :=
    calculateSigmoidGrowth (H := QNumber (env_exp env) (env_log env))
      currentTime totalDuration baseGrowth in
  let hourlyMultiplier := getHourlyActivityMultiplier hourOfDay in
  let compoundGrowth := (sigmoidGrowth * viralFactor * seasonalFactor * hourlyMultiplier)%Q in
  let* finalGrowth := addRealisticVariance compoundGrowth (Some (5 # 100)) in
  ret {| baseGrowth := sigmoidGrowth;
         hourlyMultiplier := hourlyMultiplier;
         viralFactor := viralFactor;
         seasonalFactor := seasonalFactor;
         finalGrowth := finalGrowth |}.

(** *** simulationManager.js, the status views *)

(** [{ ...simulation, elapsedHours, progress, isActive: true }]; the two
    numbers are kept as numbers where the source formats them with
    [toFixed]. *)
Record SimulationStatus := {
  status_simulation : Simulation;
  status_elapsedHours : Q;
  status_progress : Q;
  status_isActive : bool;
}.

Definition getSimulationStatus (mediaId : Z) : M (option SimulationStatus) :=
  let* activeSimulations := get_registry in
  match Map_get mediaId activeSimulations with
  | None => ret None
  | Some simulation =>
      let elapsedHours := elapsedHoursSince env (startTime simulation) in
      let progress := ((elapsedHours / growthDurationHours simulation) * 100)%Q in
      ret (Some {| status_simulation := simulation;
                   status_elapsedHours := elapsedHours;
                   status_progress := progress;
                   status_isActive := true |})
  end.

Definition getAllSimulations : M (list (option SimulationStatus)) :=
  let* activeSimulations := get_registry in
  mapM (fun entry : Z * Simulation => getSimulationStatus entry.1) activeSimulations.

(** The status that the registry entry of a simulation is shown as. *)
Definition statusOf (simulation : Simulation) : SimulationStatus :=
  {| status_simulation := simulation;
     status_elapsedHours := elapsedHoursSince env (startTime simulation);
     status_progress :=
       (elapsedHoursSince env (startTime simulation) / growthDurationHours simulation * 100)%Q;
     status_isActive := true |}.

(** *** dataGenerator.js, the batch read of the likes *)

(** [likesByPost[like.postId].add(like.userId)]; reading [add] from a
    missing entry is a TypeError. *)
Definition addLiker (likesByPost : gmap Z (gset Z)) (like : LikeRecord)
    : Outcome (gmap Z (gset Z)) :=
  match likesByPost !! like_postId like with
  | Some likers => Ok (<[like_postId like := likers ∪ {[ like_userId like ]}]> likesByPost)
  | None => Throw TypeError
  end.

Fixpoint addLikers (likesByPost : gmap Z (gset Z)) (existingLikes : list LikeRecord)
    : Outcome (gmap Z (gset Z)) :=
  match existingLikes with
  | [] => Ok likesByPost
  | like :: rest =>
      match addLiker likesByPost like with
      | Ok likesByPost => addLikers likesByPost rest
      | Throw e => Throw e
      | Hang => Hang
      end
  end.

Definition batchFetchExistingLikes (postIds : list Z) : M (gmap Z (gset Z)) :=
  let* d := get_db in
  let existingLikes := filter (fun l => like_postId l ∈ postIds) (likes d) in
  let likesByPost : gmap Z (gset Z) := foldl (fun m id => <[id := ∅]> m) ∅ postIds in
  fun w => (addLikers likesByPost existingLikes, w).

End MoreOfTheEngine.

(** ** The simulation routes *)

(** What a handler sends: [res.json({ success: true, data })], or
    [res.status(code).json({ success: false, error })] with a fixed text or
    the message of what was thrown. *)
Inductive Reason :=
| Message (text : string)
| MessageOf (error : Error).

Inductive Response (A : Type) :=
| Json (data : A)
| Status (code : Z) (error : Reason).
Arguments Json {A} data.
Arguments Status {A} code error.

(** The body of [POST /start], its fields being numbers (a string for the
    curve) or absent. *)
Record StartRequest := {
  req_targetMediaId : option Z;
  req_maxViews : option Q;
  req_maxLikes : option Q;
  req_likeRatio : option Q;
  req_growthDurationHours : option Q;
  req_growthCurve : option string;
}.

(** [!x] for an optional number. *)
Definition falsyZ (x : option Z) : bool :=
  match x with Some z => z =? 0 | None => true end.

Definition falsyQ (x : option Q) : bool :=
  match x with Some q => Qeq_bool q 0 | None => true end.

Section Routes.
Variable env : Env.

(** [db.BotConfig.create({ ... })], which records the request and gives
    the id of the record; its table is outside the model. *)
Variable BotConfig_create : SimulationConfig -> M Z.

(** The configuration that [POST /start] hands to the service, with
    [likeRatio = 0.05], [growthDurationHours = 72], [growthCurve = 'sigmoid']
    and [maxLikes || Math.floor(maxViews * likeRatio)]. *)
Definition startConfig (body : StartRequest) (targetMediaId : Z) (maxViews : Q)
    : SimulationConfig :=
  let likeRatio := default (5 # 100)%Q (req_likeRatio body) in
  let growthDurationHours := default 72%Q (req_growthDurationHours body) in
  let growthCurve := default "sigmoid" (req_growthCurve body) in
  let fallback := inject_Z (Math_floor (maxViews * likeRatio)%Q) in
  {| cfg_targetMediaId := targetMediaId;
     cfg_maxViews := maxViews;
     cfg_maxLikes := Some (if falsyQ (req_maxLikes body) then fallback
                           else default fallback (req_maxLikes body));
     cfg_likeRatio := Some likeRatio;
     cfg_growthDurationHours := Some growthDurationHours;
     cfg_growthCurve := Some growthCurve |}.

(** [router.post('/start', ...)]: the result of the service and the id of
    the record, or a refusal. *)
Definition postStart (body : StartRequest) : M (Response (StartResult * Z)) :=
  try_catch
    (match req_targetMediaId body, req_maxViews body with
     | Some targetMediaId, Some maxViews =>
         if falsyZ (Some targetMediaId) || falsyQ (Some maxViews) then
           ret (Status 400 (Message "targetMediaId and maxViews are required"))
         else
           let* existingSimulation := getSimulationStatus env targetMediaId in
           match existingSimulation with
           | Some _ =>
               ret (Status 400 (Message "Simulation already active for this media"))
           | None =>
               let config := startConfig body targetMediaId maxViews in
               let* result := startViralSimulation env config in
               let* configId := BotConfig_create config in
               ret (Json (result, configId))
           end
     | _, _ => ret (Status 400 (Message "targetMediaId and maxViews are required"))
     end)
    (fun error => ret (Status 500 (MessageOf error))).

(** [router.post('/update', ...)]: [{ totalSimulations, results }]. *)
Definition postUpdate : M (Response (Z * list UpdateResult)) :=
  try_catch
    (let* results := updateSimulations env in
     ret (Json (Z.of_nat (length results), results)))
    (fun _ => ret (Status 500 (Message "Failed to update simulations"))).

(** The job of [setInterval], every five minutes. *)
Definition scheduledUpdate : M unit :=
  try_catch (run updateSimulations env then ret tt) (fun _ => ret tt).
End Routes.

(** ** Vocabulary of the statements about the batch pass *)

(** [new] is [old] with records appended that all satisfy [P]. *)
Definition appended {A} (P : A -> Prop) (old new : list A) : Prop :=
  exists added, new = old ++ added /\ Forall P added.

(** The (user, post) pairs of the like table. *)
Definition likePairs (d : Database) : list (Z * Z) :=
  (fun l => (like_userId l, like_postId l)) <$> likes d.

(** The actor of a like is a bot user of the user table. *)
Definition botLike (us : list User) (l : LikeRecord) : Prop :=
  exists u, u ∈ us /\ isBot u = true /\ user_id u = like_userId l.

(** What a step of the engine that works for [targets] does to the
    database: the user table is as it was; view records, like records and
    analytics entries are only appended, for the targets, the likes by bot
    users; only rows of the targets are written, and no row is created or
    deleted; and distinct (user, post) pairs in the like table stay
    distinct when user ids are a key of the user table. *)
Definition engineStep (targets : list Z) : relation World := fun w w' =>
  users (db w') = users (db w) /\
  appended (fun r => view_postId r ∈ targets) (views (db w)) (views (db w')) /\
  appended (fun l => like_postId l ∈ targets /\ botLike (users (db w)) l)
    (likes (db w)) (likes (db w')) /\
  appended (fun e => ae_postId e ∈ targets)
    (analyticsEntries (db w)) (analyticsEntries (db w')) /\
  (forall id, id ∉ targets -> posts (db w') !! id = posts (db w) !! id) /\
  (forall id, is_Some (posts (db w') !! id) <-> is_Some (posts (db w) !! id)) /\
  (NoDup (user_id <$> users (db w)) -> NoDup (likePairs (db w)) ->
   NoDup (likePairs (db w'))).

(** The counters of the posts only grow: every row is still there, its
    views have not decreased, its comments and shares are as they were, and
    a row with like count <= view count has not lost likes and still has
    like count <= view count. *)
Definition countersGrow : relation World := fun w w' =>
  forall id row,
    posts (db w) !! id = Some row ->
    exists row',
      posts (db w') !! id = Some row' /\
      viewCount row <= viewCount row' /\
      commentCount row' = commentCount row /\
      shareCount row' = shareCount row /\
      (likeCount row <= viewCount row ->
       likeCount row <= likeCount row' /\ likeCount row' <= viewCount row').

(** The likers of a post, as [applyMetricsUpdate] reads them. *)
Definition likersOf (d : Database) (postId : Z) : gset Z :=
  list_to_set (like_userId <$> filter (fun l => like_postId l = postId) (likes d)).

(** * Properties of the growth curve *)

Section SigmoidReal.
#[local] Open Scope R_scope.

Lemma sigmoidR_unfold t T L :
  sigmoidR t T L = L / (1 + exp (- (15 / 100) * (t - T / 2))).
Proof.
  unfold sigmoidR, calculateSigmoidGrowth, sigmoid_k; simpl.
  unfold Q2R; simpl.
  replace (1 * / 1) with 1 by lra.
  replace (2 * / 1) with 2 by lra.
  replace (- (15 * / 100)) with (- (15 / 100)) by lra.
  reflexivity.
Qed.

Lemma sigmoid_denominator_pos x : 1 < 1 + exp x.
Proof. pose proof (exp_pos x); lra. Qed.

Lemma exp_antitone_arg t1 t2 T :
  t1 <= t2 ->
  exp (- (15 / 100) * (t2 - T / 2)) <= exp (- (15 / 100) * (t1 - T / 2)).
Proof.
  intros Hle.
  destruct (Rle_lt_or_eq_dec _ _ Hle) as [Hlt | ->]; [|lra].
  left. apply exp_increasing. lra.
Qed.
End SigmoidReal.

Section SigmoidClaims.
#[local] Open Scope R_scope.



(** C10 as amended.  In exact real arithmetic, for every T and t, if
    L > 0 then 0 < sigmoid(t, T, L) < L. *)
Theorem sigmoid_strict_bounds_exact (t T L : R) :
  0 < L -> 0 < sigmoidR t T L < L.
Proof.
  intros HL. rewrite sigmoidR_unfold.
  set (e := exp (- (15 / 100) * (t - T / 2))).
  assert (He : 0 < e) by apply exp_pos.
  assert (Hd : 0 < 1 + e) by lra.
  split.
  - apply Rdiv_lt_0_compat; lra.
  - apply (Rmult_lt_reg_r (1 + e)); [exact Hd|].
    unfold Rdiv. rewrite Rmult_assoc, Rinv_l by lra. nra.
Qed.

Lemma sigmoid_strict_bounds_exact_witness :
  0 < 10000 /\ 0 < sigmoidR 0 72 10000 < 10000.
Proof.
  split; [lra|]. apply (sigmoid_strict_bounds_exact 0 72 10000). lra.
Defined.
End SigmoidClaims.

Section SigmoidBinary64.
#[local] Open Scope float_scope.

(** With t = MAX_VALUE and T = -MAX_VALUE the subtraction [t - T/2]
    overflows to +Infinity, [Math.exp(-Infinity)] is [+0] and the curve
    returns L itself, whatever approximation the engine uses elsewhere. *)
Lemma sigmoid64_saturates approx_exp approx_log :
  sigmoid64 approx_exp approx_log MAX_VALUE (- MAX_VALUE) 1 = 1.
Proof. reflexivity. Qed.

(** At the midpoint the binary64 value is exactly L/2 as well. *)
Example sigmoid64_midpoint approx_exp approx_log :
  sigmoid64 approx_exp approx_log 36 72 10000 = 5000.
Proof. reflexivity. Qed.

(** With a duration of 1000 hours, at hour 999 the argument of [Math.exp]
    is about -74.85; an engine whose value there is absorbed by [1 + _] (the
    exact value is about 3e-33) makes the curve return L. *)
Lemma sigmoid64_absorbed approx_exp approx_log :
  let x := (- f64_lit (15 # 100) * (999 - 1000 / f64_lit 2))%float in
  (1 + approx_exp x = 1)%float ->
  sigmoid64 approx_exp approx_log 999 1000 10000 = 10000%float.
Proof.
  intros x Habsorbed.
  change (sigmoid64 approx_exp approx_log 999 1000 10000)
    with (10000 / (1 + approx_exp x))%float.
  now rewrite Habsorbed.
Qed.

Example absorbed_at_3e33 : (1 + 0x1.f275e33972f0ap-109 = 1)%float.
Proof. reflexivity. Qed.

(** C10 as stated fails on binary64: finite t and T, L > 0, and the
    result is not strictly below L. *)
Lemma sigmoid_strict_bounds_fail_binary64 :
  ~ (forall (approx_exp approx_log : float -> float) (t T L : float),
       PrimFloat.is_finite t = true ->
       PrimFloat.is_finite T = true ->
       PrimFloat.ltb 0 L = true ->
       PrimFloat.ltb 0 (sigmoid64 approx_exp approx_log t T L) = true /\
       PrimFloat.ltb (sigmoid64 approx_exp approx_log t T L) L = true).
Proof.
  intros Hall.
  destruct (Hall (fun x => x) (fun x => x) MAX_VALUE (- MAX_VALUE) 1
              eq_refl eq_refl eq_refl) as [_ Hlt].
  rewrite sigmoid64_saturates in Hlt. discriminate Hlt.
Qed.
End SigmoidBinary64.

(** * Reasoning about engine computations *)

Section Preserves.
Context (R : relation World) `{!Reflexive R} `{!Transitive R}.

Lemma preserves_ret {A} (a : A) : preserves R (ret a).
Proof. intros w. simpl. reflexivity. Qed.

Lemma preserves_throw {A} e : preserves R (throw (A := A) e).
Proof. intros w. simpl. reflexivity. Qed.

Lemma preserves_hang {A} : preserves R (hang (A := A)).
Proof. intros w. simpl. reflexivity. Qed.

Lemma preserves_bind {A B} (m : M A) (k : A -> M B) :
  preserves R m -> (forall a, preserves R (k a)) -> preserves R (bind m k).
Proof.
  intros Hm Hk w. unfold bind. specialize (Hm w).
  destruct (m w) as [[a | e |] w1]; simpl in *; try exact Hm.
  etransitivity; [exact Hm | apply Hk].
Qed.

Lemma preserves_try_catch {A} (m : M A) (h : Error -> M A) :
  preserves R m -> (forall e, preserves R (h e)) -> preserves R (try_catch m h).
Proof.
  intros Hm Hh w. unfold try_catch. specialize (Hm w).
  destruct (m w) as [[a | e |] w1]; simpl in *; try exact Hm.
  etransitivity; [exact Hm | apply Hh].
Qed.

Lemma preserves_mapM {A B} (f : A -> M B) (l : list A) :
  (forall a, preserves R (f a)) -> preserves R (mapM f l).
Proof.
  intros Hf. induction l as [| a l IH]; simpl.
  - apply preserves_ret.
  - apply preserves_bind; [apply Hf | intros b].
    apply preserves_bind; [exact IH | intros bs]. apply preserves_ret.
Qed.
End Preserves.

#[local] Instance same_refl {X} (f : World -> X) : Reflexive (same f).
Proof. intros w. reflexivity. Qed.

#[local] Instance same_trans {X} (f : World -> X) : Transitive (same f).
Proof. intros w1 w2 w3 H12 H23. unfold same in *. congruence. Qed.

Section Returns.
Lemma returns_ret {A} (a : A) : returns (ret a).
Proof. intros w. discriminate. Qed.

Lemma returns_throw {A} e : returns (throw (A := A) e).
Proof. intros w. discriminate. Qed.

Lemma returns_bind {A B} (m : M A) (k : A -> M B) :
  returns m -> (forall a, returns (k a)) -> returns (bind m k).
Proof.
  intros Hm Hk w. unfold bind. specialize (Hm w).
  destruct (m w) as [[a | e |] w1]; simpl in *; try discriminate; [apply Hk | congruence].
Qed.

Lemma returns_try_catch {A} (m : M A) (h : Error -> M A) :
  returns m -> (forall e, returns (h e)) -> returns (try_catch m h).
Proof.
  intros Hm Hh w. unfold try_catch. specialize (Hm w).
  destruct (m w) as [[a | e |] w1]; simpl in *; try discriminate; [apply Hh | congruence].
Qed.

Lemma returns_mapM {A B} (f : A -> M B) (l : list A) :
  (forall a, returns (f a)) -> returns (mapM f l).
Proof.
  intros Hf. induction l as [| a l IH]; simpl.
  - apply returns_ret.
  - apply returns_bind; [apply Hf | intros b].
    apply returns_bind; [exact IH | intros bs]. apply returns_ret.
Qed.
End Returns.

(** ** What the parts of the engine leave untouched *)

Arguments adjustMetrics : simpl never.
Arguments calculateTargetMetrics : simpl never.
Arguments calculateProgress : simpl never.
Arguments calculateElapsedTime : simpl never.
Arguments calculateEngagement : simpl never.
Arguments isSimulationComplete : simpl never.
Arguments applyMetricsUpdate : simpl never.
Arguments updateSingleSimulation : simpl never.
Arguments generateSyntheticViews : simpl never.
Arguments generateSyntheticLikes : simpl never.
Arguments shuffleArray : simpl never.

Create HintDb frames.

Ltac frames_step :=
  match goal with
  | |- preserves _ (ret _) => apply preserves_ret; try typeclasses eauto
  | |- preserves _ (throw _) => apply preserves_throw; try typeclasses eauto
  | |- preserves _ hang => apply preserves_hang; try typeclasses eauto
  | |- preserves _ (bind _ _) => apply preserves_bind; [typeclasses eauto | | intros ?]
  | |- preserves _ (try_catch _ _) =>
      apply preserves_try_catch; [typeclasses eauto | | intros ?]
  | |- preserves _ (mapM _ _) =>
      apply preserves_mapM; [typeclasses eauto | typeclasses eauto | intros ?]
  | |- preserves _ (if ?b then _ else _) => destruct b
  | |- preserves _ (match ?x with _ => _ end) => destruct x
  end.

Ltac frames := repeat frames_step; eauto with frames.

Section EngineFacts.
Variable env : Env.

Lemma get_db_same {X} (f : World -> X) : preserves (same f) get_db.
Proof. intros w. reflexivity. Qed.

Lemma get_registry_same {X} (f : World -> X) : preserves (same f) get_registry.
Proof. intros w. reflexivity. Qed.

Lemma set_db_same_registry d : preserves (same registry) (set_db d).
Proof. intros w. reflexivity. Qed.

Lemma set_registry_same_db r : preserves (same db) (set_registry r).
Proof. intros w. reflexivity. Qed.

Lemma Math_random_same_db : preserves (same db) (Math_random env).
Proof. intros w. reflexivity. Qed.

Lemma Math_random_same_registry : preserves (same registry) (Math_random env).
Proof. intros w. reflexivity. Qed.

Lemma same_db_posts {A} (m : M A) :
  preserves (same db) m -> preserves (same db_posts) m.
Proof. intros Hm w. unfold same, db_posts. now rewrite (Hm w). Qed.

Hint Resolve get_db_same get_registry_same set_db_same_registry
  set_registry_same_db Math_random_same_db Math_random_same_registry : frames.

Lemma shuffle_from_same_db {A} i (l : list A) :
  preserves (same db) (shuffle_from env i l).
Proof. revert l. induction i as [| i IH]; intros l; simpl; frames. Qed.

Lemma shuffle_from_same_registry {A} i (l : list A) :
  preserves (same registry) (shuffle_from env i l).
Proof. revert l. induction i as [| i IH]; intros l; simpl; frames. Qed.

Lemma shuffleArray_same_db {A} (l : list A) : preserves (same db) (shuffleArray env l).
Proof. apply shuffle_from_same_db. Qed.

Lemma shuffleArray_same_registry {A} (l : list A) :
  preserves (same registry) (shuffleArray env l).
Proof. apply shuffle_from_same_registry. Qed.

Hint Resolve shuffleArray_same_db shuffleArray_same_registry : frames.

Lemma generateRandomIP_same_db : preserves (same db) (generateRandomIP env).
Proof. unfold generateRandomIP. frames. Qed.

Lemma generateRandomIP_same_registry : preserves (same registry) (generateRandomIP env).
Proof. unfold generateRandomIP. frames. Qed.

Lemma generateRandomUserAgent_same_db : preserves (same db) (generateRandomUserAgent env).
Proof. unfold generateRandomUserAgent. frames. Qed.

Lemma generateRandomUserAgent_same_registry :
  preserves (same registry) (generateRandomUserAgent env).
Proof. unfold generateRandomUserAgent. frames. Qed.

Hint Resolve generateRandomIP_same_db generateRandomIP_same_registry
  generateRandomUserAgent_same_db generateRandomUserAgent_same_registry : frames.

Lemma buildViewRecords_same_db postId count :
  preserves (same db) (buildViewRecords env postId count).
Proof. unfold buildViewRecords, selectViewers, buildViewRecord. frames. Qed.

Lemma buildViewRecords_same_registry postId count :
  preserves (same registry) (buildViewRecords env postId count).
Proof. unfold buildViewRecords, selectViewers, buildViewRecord. frames. Qed.

Lemma buildLikeRecords_same_db postId count excluded :
  preserves (same db) (buildLikeRecords env postId count excluded).
Proof. unfold buildLikeRecords. frames. Qed.

Lemma buildLikeRecords_same_registry postId count excluded :
  preserves (same registry) (buildLikeRecords env postId count excluded).
Proof. unfold buildLikeRecords. frames. Qed.

Lemma calculateTargetMetrics_same_db simulation elapsedHours :
  preserves (same db) (calculateTargetMetrics env simulation elapsedHours).
Proof. unfold calculateTargetMetrics. frames. Qed.

Lemma calculateTargetMetrics_same_registry simulation elapsedHours :
  preserves (same registry) (calculateTargetMetrics env simulation elapsedHours).
Proof. unfold calculateTargetMetrics. frames. Qed.

Lemma findByPk_same {X} (f : World -> X) id : preserves (same f) (findByPk env id).
Proof. unfold findByPk. frames. Qed.

Lemma findAllPosts_same {X} (f : World -> X) ids : preserves (same f) (findAllPosts env ids).
Proof. unfold findAllPosts. frames. Qed.

Hint Resolve buildViewRecords_same_db buildViewRecords_same_registry
  buildLikeRecords_same_db buildLikeRecords_same_registry
  calculateTargetMetrics_same_db calculateTargetMetrics_same_registry
  findByPk_same findAllPosts_same : frames.
Lemma bulkCreateViews_same_posts batch : preserves (same db_posts) (bulkCreateViews batch).
Proof. intros w. reflexivity. Qed.

Lemma bulkCreateLikes_same_posts records : preserves (same db_posts) (bulkCreateLikes records).
Proof. intros w. reflexivity. Qed.

Lemma bulkCreateViews_same_registry batch : preserves (same registry) (bulkCreateViews batch).
Proof. intros w. reflexivity. Qed.

Lemma bulkCreateLikes_same_registry records :
  preserves (same registry) (bulkCreateLikes records).
Proof. intros w. reflexivity. Qed.

Lemma createAnalyticsEntry_same_posts postId v l c s e md :
  preserves (same db_posts) (createAnalyticsEntry env postId v l c s e md).
Proof. intros w. reflexivity. Qed.

Lemma createAnalyticsEntry_same_registry postId v l c s e md :
  preserves (same registry) (createAnalyticsEntry env postId v l c s e md).
Proof. intros w. reflexivity. Qed.

Hint Resolve bulkCreateViews_same_posts bulkCreateLikes_same_posts
  bulkCreateViews_same_registry bulkCreateLikes_same_registry
  createAnalyticsEntry_same_posts createAnalyticsEntry_same_registry : frames.

Lemma insertViewBatches_same_posts fuel batchSize i records :
  preserves (same db_posts) (insertViewBatches fuel batchSize i records).
Proof.
  revert i. induction fuel as [| fuel IH]; intros i; simpl; frames.
Qed.

Lemma insertViewBatches_same_registry fuel batchSize i records :
  preserves (same registry) (insertViewBatches fuel batchSize i records).
Proof.
  revert i. induction fuel as [| fuel IH]; intros i; simpl; frames.
Qed.

Hint Resolve insertViewBatches_same_posts insertViewBatches_same_registry same_db_posts : frames.

Lemma generateSyntheticViews_same_posts postId count :
  preserves (same db_posts) (generateSyntheticViews env postId count).
Proof. unfold generateSyntheticViews. frames. Qed.

Lemma generateSyntheticViews_same_registry postId count :
  preserves (same registry) (generateSyntheticViews env postId count).
Proof. unfold generateSyntheticViews. frames. Qed.

Lemma generateSyntheticLikes_same_posts postId count excluded :
  preserves (same db_posts) (generateSyntheticLikes env postId count excluded).
Proof. unfold generateSyntheticLikes. frames. Qed.

Lemma generateSyntheticLikes_same_registry postId count excluded :
  preserves (same registry) (generateSyntheticLikes env postId count excluded).
Proof. unfold generateSyntheticLikes. frames. Qed.

Hint Resolve generateSyntheticViews_same_posts generateSyntheticViews_same_registry
  generateSyntheticLikes_same_posts generateSyntheticLikes_same_registry : frames.

(** ** The write of [applyMetricsUpdate] *)

Lemma bind_get_db {A} (k : Database -> M A) w : bind get_db k w = k (db w) w.
Proof. reflexivity. Qed.

Lemma bind_set_db {A} d (k : unit -> M A) w :
  bind (set_db d) k w = k tt {| db := d; registry := registry w; draws := draws w |}.
Proof. reflexivity. Qed.

Lemma bind_ret {A B} (a : A) (k : A -> M B) w : bind (ret a) k w = k a w.
Proof. reflexivity. Qed.

Lemma bind_ret_get_registry {A B} (f : list (Z * Simulation) -> A) (k : A -> M B) w :
  bind (bind get_registry (fun r => ret (f r))) k w = k (f (registry w)) w.
Proof. reflexivity. Qed.

Lemma metricsUpdateTransaction_posts post fv fl simulation elapsedHours w :
  let w' := (metricsUpdateTransaction env post fv fl simulation elapsedHours w).2 in
  db_posts w' = db_posts w \/
  exists locked,
    db_posts w !! post_id post = Some locked /\
    db_posts w' =
      <[post_id post :=
          {| viewCount := Z.max fv (viewCount locked);
             likeCount := Z.min (Z.max fl (likeCount locked)) (Z.max fv (viewCount locked));
             commentCount := commentCount locked;
             shareCount := shareCount locked |}]> (db_posts w).
Proof.
  unfold metricsUpdateTransaction. rewrite bind_get_db. unfold db_posts at 2 3.
  destruct (posts (db w) !! post_id post) as [locked |] eqn:Hlocked; [| now left].
  right. exists locked. split; [reflexivity |].
  rewrite bind_set_db.
  match goal with
  | |- db_posts (?rest ?w1).2 = _ =>
      assert (Hrest : preserves (same db_posts) rest) by frames;
      rewrite (Hrest w1)
  end.
  reflexivity.
Qed.

Lemma applyMetricsUpdate_posts post fv fl simulation elapsedHours w :
  let w' := (applyMetricsUpdate env post fv fl simulation elapsedHours w).2 in
  db_posts w' = db_posts w \/
  exists locked,
    db_posts w !! post_id post = Some locked /\
    db_posts w' =
      <[post_id post :=
          {| viewCount := Z.max fv (viewCount locked);
             likeCount := Z.min (Z.max fl (likeCount locked)) (Z.max fv (viewCount locked));
             commentCount := commentCount locked;
             shareCount := shareCount locked |}]> (db_posts w).
Proof.
  pose proof (metricsUpdateTransaction_posts post fv fl simulation elapsedHours w) as H.
  unfold applyMetricsUpdate. simpl in *.
  destruct (metricsUpdateTransaction env post fv fl simulation elapsedHours w)
    as [[[] | e |] w1]; simpl in *; try exact H.
  now left.
Qed.

Lemma updateSingleSimulation_posts mediaId simulation preloadedPost w :
  let w' := (updateSingleSimulation env mediaId simulation preloadedPost w).2 in
  db_posts w' = db_posts w \/
  exists post fv fl locked,
    db_posts w !! post_id post = Some locked /\
    db_posts w' =
      <[post_id post :=
          {| viewCount := Z.max fv (viewCount locked);
             likeCount := Z.min (Z.max fl (likeCount locked)) (Z.max fv (viewCount locked));
             commentCount := commentCount locked;
             shareCount := shareCount locked |}]> (db_posts w).
Proof.
  intros w'.
  assert (Hrun : (updateSingleSimulation env mediaId simulation preloadedPost w).2 = w')
    by reflexivity.
  clearbody w'. revert Hrun.
  unfold updateSingleSimulation. cbv zeta.
  destruct (isSimulationComplete env simulation); [intros <-; now left |].
  unfold bind at 1.
  set (resolve := match preloadedPost with Some p => ret (Some p) | None => findByPk env mediaId end).
  assert (Hres : preserves (same db) resolve) by (unfold resolve; frames).
  specialize (Hres w). unfold same in Hres.
  destruct (resolve w) as [[[post |] | e |] w0]; cbn [fst snd] in *;
    try (intros <-; left; unfold db_posts, throw; cbn [fst snd]; now rewrite Hres).
  unfold bind at 1.
  pose proof (calculateTargetMetrics_same_db simulation
                (calculateElapsedTime env (startTime simulation)) w0) as Htm.
  unfold same in Htm.
  destruct (calculateTargetMetrics env simulation
              (calculateElapsedTime env (startTime simulation)) w0)
    as [[targets | e |] w1]; cbn [fst snd] in *;
    try (intros <-; left; unfold db_posts; congruence).
  assert (Hw1 : db_posts w1 = db_posts w) by (unfold db_posts; congruence).
  set (adj := adjustMetrics targets.1 targets.2 (viewCount (post_row post))
                (likeCount (post_row post))).
  clearbody adj. unfold bind at 1.
  destruct (hasChanges adj).
  - pose proof (applyMetricsUpdate_posts post (finalViews adj) (finalLikes adj) simulation
                  (calculateElapsedTime env (startTime simulation)) w1) as Happ.
    cbv zeta in Happ.
    destruct (applyMetricsUpdate env post (finalViews adj) (finalLikes adj) simulation
                (calculateElapsedTime env (startTime simulation)) w1)
      as [[[] | e |] w2]; unfold ret; cbn [fst snd] in *; intros <-;
      (destruct Happ as [Heq | (locked & Hl & Heq)];
       [left; congruence
       | right; exists post, (finalViews adj), (finalLikes adj), locked;
         rewrite <- Hw1; split; assumption]).
  - unfold ret. cbn [fst snd]. intros <-. left. exact Hw1.
Qed.


(** ** The no-op update *)

Lemma hasChanges_spec tv tl cv cl :
  hasChanges (adjustMetrics tv tl cv cl) =
    (cv <? finalViews (adjustMetrics tv tl cv cl))
    || (cl <? finalLikes (adjustMetrics tv tl cv cl)).
Proof. reflexivity. Qed.

Lemma resolve_post mediaId preloadedPost w post :
  resolvesTo env mediaId preloadedPost w post ->
  match preloadedPost with
  | Some p => ret (Some p)
  | None => findByPk env mediaId
  end w = (Ok (Some post), w).
Proof.
  intros [-> | (-> & Hok & Hid & Hrow)]; [reflexivity |].
  unfold findByPk. rewrite Hok, bind_get_db. unfold ret.
  unfold db_posts in Hrow. rewrite Hrow. simpl. subst mediaId. now destruct post.
Qed.

(** C6.  When the final counters computed for a target equal its current
    counters, the update step reports success with isComplete false and
    zero deltas, and nothing is written: the database (counters, view and
    like records, analytics snapshots) and the registry are as before. *)
Theorem noop_update_writes_nothing mediaId simulation preloadedPost post w tv tl w1 :
  isSimulationComplete env simulation = false ->
  resolvesTo env mediaId preloadedPost w post ->
  calculateTargetMetrics env simulation
    (calculateElapsedTime env (startTime simulation)) w = (Ok (tv, tl), w1) ->
  finalViews (adjustMetrics tv tl (viewCount (post_row post)) (likeCount (post_row post)))
    = viewCount (post_row post) ->
  finalLikes (adjustMetrics tv tl (viewCount (post_row post)) (likeCount (post_row post)))
    = likeCount (post_row post) ->
  updateSingleSimulation env mediaId simulation preloadedPost w =
    (Ok (ResultUpdated mediaId (viewCount (post_row post)) (likeCount (post_row post))
           (calculateProgress (calculateElapsedTime env (startTime simulation))
              (growthDurationHours simulation))
           0 0),
     w1) /\
  db w1 = db w /\ registry w1 = registry w.
Proof.
  intros Hrunning Hpost Htargets Hviews Hlikes.
  split.
  - unfold updateSingleSimulation. rewrite Hrunning. cbv zeta.
    unfold bind at 1. rewrite (resolve_post _ _ _ _ Hpost).
    unfold bind at 1. rewrite Htargets. cbn [fst snd].
    rewrite hasChanges_spec, Hviews, Hlikes, !Z.ltb_irrefl. reflexivity.
  - pose proof (calculateTargetMetrics_same_db simulation
                  (calculateElapsedTime env (startTime simulation)) w) as Hdb.
    pose proof (calculateTargetMetrics_same_registry simulation
                  (calculateElapsedTime env (startTime simulation)) w) as Hreg.
    unfold same in *. rewrite Htargets in Hdb, Hreg. now split.
Qed.

(** ** The random variance and the clamp *)

Lemma variance_bounds range r :
  (0 <= range)%Q -> (0 <= r)%Q -> (r < 1)%Q ->
  (- (range / 2) <= variance range r)%Q /\ (variance range r <= range / 2)%Q.
Proof.
  intros Hrange Hr0 Hr1. unfold variance.
  assert (Hhalf : (range / 2 == range * (1 # 2))%Q) by (unfold Qdiv; reflexivity).
  assert (Hlow : (0 <= r * range)%Q) by (apply Qmult_le_0_compat; assumption).
  assert (Hup : (r * range <= 1 * range)%Q)
    by (apply Qmult_le_compat_r; [apply Qlt_le_weak|]; assumption).
  rewrite Hhalf. set (p := (r * range)%Q) in *. clearbody p. split; Lqa.lra.
Qed.

Lemma variance_strict_upper range r :
  (0 < range)%Q -> (r < 1)%Q -> (variance range r < range / 2)%Q.
Proof.
  intros Hrange Hr1. unfold variance.
  assert (Hhalf : (range / 2 == range * (1 # 2))%Q) by (unfold Qdiv; reflexivity).
  assert (Hup : (r * range < 1 * range)%Q)
    by (apply Qmult_lt_compat_r; assumption).
  rewrite Hhalf. set (p := (r * range)%Q) in *. clearbody p. Lqa.lra.
Qed.

Lemma applyVariance_floor target v :
  (target * (1 + v) - 1 < inject_Z (applyVariance target v))%Q /\
  (inject_Z (applyVariance target v) <= target * (1 + v))%Q.
Proof.
  unfold applyVariance, Math_floor.
  set (x := (target * (1 + v))%Q).
  pose proof (Qfloor_le x) as Hle.
  pose proof (Qlt_floor x) as Hlt.
  rewrite inject_Z_plus in Hlt. change (inject_Z 1) with 1%Q in Hlt.
  clearbody x. split; [Lqa.lra | exact Hle].
Qed.

Lemma adjustMetrics_clamp tv tl cv cl :
  cv <= finalViews (adjustMetrics tv tl cv cl) /\
  finalLikes (adjustMetrics tv tl cv cl) <= finalViews (adjustMetrics tv tl cv cl) /\
  (cl <= cv -> cl <= finalLikes (adjustMetrics tv tl cv cl)).
Proof. unfold adjustMetrics. simpl. lia. Qed.

Lemma scaled_between t v lo hi :
  (0 <= t)%Q -> (lo <= v)%Q -> (v <= hi)%Q ->
  (t * (1 + lo) <= t * (1 + v))%Q /\ (t * (1 + v) <= t * (1 + hi))%Q.
Proof.
  intros Ht Hlo Hhi.
  rewrite !(Qmult_comm t).
  split; apply Qmult_le_compat_r; try assumption; Lqa.lra.
Qed.

Lemma jittered_within t v half :
  (0 <= t)%Q -> (- half <= v)%Q -> (v <= half)%Q ->
  ((1 - half) * t - 1 < inject_Z (applyVariance t v))%Q /\
  (inject_Z (applyVariance t v) <= (1 + half) * t)%Q.
Proof.
  intros Ht Hlo Hhi.
  destruct (applyVariance_floor t v) as [Hfl Hfu].
  destruct (scaled_between t v (- half) half Ht Hlo Hhi) as [Hsl Hsu].
  assert (E1 : (t * (1 + - half) == (1 - half) * t)%Q) by ring.
  assert (E2 : (t * (1 + half) == (1 + half) * t)%Q) by ring.
  rewrite E1 in Hsl. rewrite E2 in Hsu.
  set (x := (t * (1 + v))%Q) in *. clearbody x.
  set (a := ((1 - half) * t)%Q) in *. clearbody a.
  set (b := ((1 + half) * t)%Q) in *. clearbody b.
  split; Lqa.lra.
Qed.


(** ** Starting a simulation *)

Lemma Map_get_set {V} k (v : V) m : Map_get k (Map_set k v m) = Some v.
Proof.
  induction m as [| [k' v'] m IH]; simpl.
  - now rewrite decide_True.
  - destruct (decide (k' = k)) as [-> | Hne]; simpl.
    + now rewrite decide_True.
    + now rewrite decide_False.
Qed.


(** ** The engine returns *)

Ltac returns_step :=
  match goal with
  | |- returns (ret _) => apply returns_ret
  | |- returns (throw _) => apply returns_throw
  | |- returns (bind _ _) => apply returns_bind; [| intros ?]
  | |- returns (try_catch _ _) => apply returns_try_catch; [| intros ?]
  | |- returns (mapM _ _) => apply returns_mapM; intros ?
  | |- returns (if ?b then _ else _) => destruct b
  | |- returns (match ?x with _ => _ end) => destruct x
  end.

Create HintDb returns.

Ltac returning := repeat returns_step; eauto with returns.

Lemma get_db_returns : returns get_db.
Proof. intros w. discriminate. Qed.

Lemma set_db_returns d : returns (set_db d).
Proof. intros w. discriminate. Qed.

Lemma get_registry_returns : returns get_registry.
Proof. intros w. discriminate. Qed.

Lemma set_registry_returns r : returns (set_registry r).
Proof. intros w. discriminate. Qed.

Lemma Math_random_returns : returns (Math_random env).
Proof. intros w. discriminate. Qed.

Hint Resolve get_db_returns set_db_returns get_registry_returns set_registry_returns
  Math_random_returns : returns.

Lemma shuffle_from_returns {A} i (l : list A) : returns (shuffle_from env i l).
Proof. revert l. induction i as [| i IH]; intros l; simpl; returning. Qed.

Lemma shuffleArray_returns {A} (l : list A) : returns (shuffleArray env l).
Proof. apply shuffle_from_returns. Qed.

Hint Resolve shuffleArray_returns : returns.

Lemma buildViewRecords_returns postId count : returns (buildViewRecords env postId count).
Proof.
  unfold buildViewRecords, selectViewers, buildViewRecord, generateRandomIP,
    generateRandomUserAgent.
  returning.
Qed.

Lemma buildLikeRecords_returns postId count excluded :
  returns (buildLikeRecords env postId count excluded).
Proof. unfold buildLikeRecords. returning. Qed.

(** With a positive batch size the insertion loop ends before the fuel does. *)
Lemma insertViewBatches_returns fuel batchSize i records :
  0 < batchSize ->
  Z.of_nat (length records) - i < Z.of_nat fuel ->
  returns (insertViewBatches fuel batchSize i records).
Proof.
  intros Hpos. revert i. induction fuel as [| fuel IH]; intros i Hfuel; simpl.
  - destruct (i <? Z.of_nat (length records)) eqn:Hlt; [lia | apply returns_ret].
  - destruct (i <? Z.of_nat (length records)) eqn:Hlt; [| apply returns_ret].
    apply returns_bind; [unfold bulkCreateViews; returning |].
    intros _. apply IH. lia.
Qed.

Lemma generateSyntheticViews_returns postId count :
  0 < bulkInsertBatchSize (appConfig env) ->
  returns (generateSyntheticViews env postId count).
Proof.
  intros Hpos. unfold generateSyntheticViews.
  apply returns_bind; [apply buildViewRecords_returns |].
  intros records. apply insertViewBatches_returns; [exact Hpos | lia].
Qed.

Lemma generateSyntheticLikes_returns postId count excluded :
  returns (generateSyntheticLikes env postId count excluded).
Proof.
  unfold generateSyntheticLikes, bulkCreateLikes.
  apply returns_bind; [apply buildLikeRecords_returns |]. intros records. returning.
Qed.

Hint Resolve generateSyntheticViews_returns generateSyntheticLikes_returns : returns.

Lemma applyMetricsUpdate_returns post fv fl simulation elapsedHours :
  0 < bulkInsertBatchSize (appConfig env) ->
  returns (applyMetricsUpdate env post fv fl simulation elapsedHours).
Proof.
  intros Hpos w. unfold applyMetricsUpdate.
  assert (Hbody : returns (metricsUpdateTransaction env post fv fl simulation elapsedHours)).
  { unfold metricsUpdateTransaction, createAnalyticsEntry. returning. }
  specialize (Hbody w).
  destruct (metricsUpdateTransaction env post fv fl simulation elapsedHours w)
    as [[[] | e |] w1]; simpl in *; congruence.
Qed.

Lemma updateSingleSimulation_returns mediaId simulation preloadedPost :
  0 < bulkInsertBatchSize (appConfig env) ->
  returns (updateSingleSimulation env mediaId simulation preloadedPost).
Proof.
  intros Hpos. unfold updateSingleSimulation, findByPk, calculateTargetMetrics.
  returning. now apply applyMetricsUpdate_returns.
Qed.

Lemma updateSingleSimulation_mediaId mediaId simulation preloadedPost :
  ensures (fun r => result_mediaId r = mediaId)
    (updateSingleSimulation env mediaId simulation preloadedPost).
Proof.
  intros w r w'. unfold updateSingleSimulation. cbv zeta.
  destruct (isSimulationComplete env simulation).
  { unfold ret. intros [= <- _]. reflexivity. }
  unfold bind at 1.
  destruct (match preloadedPost with
            | Some p => ret (Some p)
            | None => findByPk env mediaId
            end w) as [[[post |] | e |] w0]; try discriminate.
  unfold bind at 1.
  destruct (calculateTargetMetrics env simulation
              (calculateElapsedTime env (startTime simulation)) w0)
    as [[targets | e |] w1]; try discriminate.
  unfold bind at 1.
  match goal with
  | |- context [?upd w1] => destruct (upd w1) as [[[] | e |] w2]; try discriminate
  end.
  unfold ret. intros [= <- _]. reflexivity.
Qed.

(** ** The batch pass *)

Lemma Map_get_postsById_fresh id ps acc :
  id ∉ post_id <$> ps ->
  Map_get id (foldl (fun m p => Map_set (post_id p) p m) acc ps) = Map_get id acc.
Proof.
  revert acc. induction ps as [| p ps IH]; intros acc Hfresh; simpl; [reflexivity |].
  rewrite fmap_cons, not_elem_of_cons in Hfresh. destruct Hfresh as [Hne Hfresh].
  rewrite IH by exact Hfresh.
  clear -Hne. induction acc as [| [k v] acc IH]; simpl.
  - now rewrite decide_False by congruence.
  - destruct (decide (k = post_id p)) as [-> | Hkp]; simpl.
    + now rewrite !decide_False by congruence.
    + destruct (decide (k = id)); [reflexivity | exact IH].
Qed.

Lemma found_posts_ids (table : gmap Z PostRow) (ids : list Z) id :
  id ∈ post_id <$>
    omap (fun id => (fun r => {| post_id := id; post_row := r |}) <$> table !! id) ids ->
  is_Some (table !! id).
Proof.
  intros Hin. apply list_elem_of_fmap in Hin as (p & -> & Hp).
  apply list_elem_of_omap in Hp as (k & _ & Hk).
  destruct (table !! k) as [r |] eqn:Hrow; simpl in Hk; [| discriminate].
  injection Hk as <-. simpl. eauto.
Qed.

(** A round of the loop never throws: it appends one entry, for its target. *)
Lemma updateOne_appends postsMap results mediaId w :
  0 < bulkInsertBatchSize (appConfig env) ->
  exists r w',
    updateOne env postsMap results mediaId w = (Ok (results ++ [r]), w') /\
    result_mediaId r = mediaId /\
    (Map_get mediaId postsMap = None -> r = ResultFailed mediaId (PostNotFound mediaId)).
Proof.
  intros Hpos. unfold updateOne, try_catch, getSimulation.
  rewrite bind_ret_get_registry.
  destruct (Map_get mediaId postsMap) as [post |].
  2: { eexists. eexists. split; [reflexivity |]. split; [reflexivity | reflexivity]. }
  destruct (Map_get mediaId (registry w)) as [simulation |].
  2: { eexists. eexists. split; [reflexivity |]. split; [reflexivity | discriminate]. }
  unfold bind at 1.
  pose proof (updateSingleSimulation_returns mediaId simulation (Some post) Hpos w) as Hret.
  pose proof (updateSingleSimulation_mediaId mediaId simulation (Some post) w) as Hid.
  destruct (updateSingleSimulation env mediaId simulation (Some post) w)
    as [[result | e |] w1]; [| | now contradict Hret].
  - specialize (Hid result w1 eq_refl).
    destruct (result_isComplete result).
    + unfold stopSimulation, bind, get_registry, ret. cbn.
      destruct (Map_has mediaId (registry w1)); cbn;
        (eexists; eexists; split; [reflexivity |]; split; [exact Hid | discriminate]).
    + cbn. eexists. eexists. split; [reflexivity |]. split; [exact Hid | discriminate].
  - cbn. eexists. eexists. split; [reflexivity |]. split; [reflexivity | discriminate].
Qed.

(** A failure of the update of one target is what its entry records. *)
Lemma updateOne_records_failure postsMap results mediaId w post simulation e w1 :
  Map_get mediaId postsMap = Some post ->
  Map_get mediaId (registry w) = Some simulation ->
  updateSingleSimulation env mediaId simulation (Some post) w = (Throw e, w1) ->
  updateOne env postsMap results mediaId w = (Ok (results ++ [ResultFailed mediaId e]), w1).
Proof.
  intros Hpost Hsim Hupd. unfold updateOne, try_catch, getSimulation.
  rewrite bind_ret_get_registry, Hpost, Hsim. unfold bind at 1. now rewrite Hupd.
Qed.

Lemma updateEach_appends postsMap mediaIds results w :
  0 < bulkInsertBatchSize (appConfig env) ->
  exists rs w',
    updateEach env postsMap results mediaIds w = (Ok (results ++ rs), w') /\
    result_mediaId <$> rs = mediaIds /\
    (forall id, id ∈ mediaIds -> Map_get id postsMap = None ->
                ResultFailed id (PostNotFound id) ∈ rs).
Proof.
  intros Hpos. revert results w.
  induction mediaIds as [| mediaId rest IH]; intros results w; simpl.
  - exists [], w. rewrite app_nil_r. split; [reflexivity |]. split; [reflexivity |].
    intros id Hin. now apply elem_of_nil in Hin.
  - destruct (updateOne_appends postsMap results mediaId w Hpos) as (r & w1 & Hone & Hid & Hnf).
    unfold bind at 1. rewrite Hone.
    destruct (IH (results ++ [r]) w1) as (rs & w2 & Hrest & Hids & Hmissing).
    exists (r :: rs), w2. rewrite Hrest, <- app_assoc. split; [reflexivity |].
    split; [now rewrite fmap_cons, Hid, Hids |].
    intros id Hin Hnone. apply elem_of_cons in Hin as [-> | Hin].
    + rewrite (Hnf Hnone). apply elem_of_cons. now left.
    + apply elem_of_cons. right. now apply Hmissing.
Qed.


(** ** The shuffle *)

Lemma swap_Permutation {A} i j (a : list A) : swap i j a ≡ₚ a.
Proof.
  unfold swap, array_get.
  destruct (a !! i) as [x |] eqn:Hi; [| reflexivity].
  destruct (j <? 0); [reflexivity |].
  destruct (a !! Z.to_nat j) as [y |] eqn:Hj; [| reflexivity].
  now apply Permutation_insert_swap.
Qed.

Lemma shuffle_from_spec {A} i (l : list A) w :
  exists l' w',
    shuffle_from env i l w = (Ok l', w') /\ l' ≡ₚ l /\
    db w' = db w /\ registry w' = registry w.
Proof.
  revert l w. induction i as [| i IH]; intros l w; simpl.
  - exists l, w. repeat split; reflexivity.
  - unfold bind, Math_random.
    match goal with
    | |- context [shuffle_from env i ?l1 ?w1] =>
        destruct (IH l1 w1) as (l' & w' & Hrun & Hperm & Hdb & Hreg)
    end.
    exists l', w'. split; [exact Hrun |]. split; [| split; assumption].
    etransitivity; [exact Hperm | apply swap_Permutation].
Qed.

Lemma shuffleArray_spec {A} (l : list A) w :
  exists l' w',
    shuffleArray env l w = (Ok l', w') /\ l' ≡ₚ l /\
    db w' = db w /\ registry w' = registry w.
Proof. apply shuffle_from_spec. Qed.

(** ** Arrays and draws *)

Lemma Array_slice_prefix {A} (a : list A) n :
  0 <= n -> Array_slice a 0 n = take (Z.to_nat n) a.
Proof.
  intros Hn. unfold Array_slice, slice_index.
  change (0 <? 0) with false. cbv iota.
  destruct (n <? 0) eqn:Hneg; [lia |].
  replace (Z.to_nat (Z.min 0 (Z.of_nat (length a)))) with 0%nat by lia.
  rewrite drop_0.
  destruct (decide (n <= Z.of_nat (length a))) as [Hle | Hgt].
  - f_equal. lia.
  - rewrite !take_ge by lia. reflexivity.
Qed.

Lemma Array_slice_sublist {A} (a : list A) i j : Array_slice a i j `sublist_of` a.
Proof.
  unfold Array_slice. etransitivity; [apply sublist_take | apply sublist_drop].
Qed.

Lemma floor_of_draw r n :
  (0 <= r)%Q -> (r < 1)%Q -> 0 <= n ->
  0 <= Math_floor (r * inject_Z n) /\
  Math_floor (r * inject_Z n) <= n /\
  (0 < n -> Math_floor (r * inject_Z n) < n).
Proof.
  intros Hr0 Hr1 Hn. unfold Math_floor.
  assert (Hn' : (0 <= inject_Z n)%Q) by (change 0%Q with (inject_Z 0); now rewrite <- Zle_Qle).
  assert (Hlow : (0 <= r * inject_Z n)%Q) by (apply Qmult_le_0_compat; assumption).
  assert (Hup : (r * inject_Z n <= 1 * inject_Z n)%Q)
    by (apply Qmult_le_compat_r; [apply Qlt_le_weak |]; assumption).
  rewrite Qmult_1_l in Hup.
  split; [| split].
  - rewrite <- (Qfloor_Z 0). now apply Qfloor_resp_le.
  - rewrite <- (Qfloor_Z n) at 2. now apply Qfloor_resp_le.
  - intros Hpos. rewrite Zlt_Qlt.
    eapply Qle_lt_trans; [apply Qfloor_le |].
    assert (Hn'' : (0 < inject_Z n)%Q) by (change 0%Q with (inject_Z 0); now rewrite <- Zlt_Qlt).
    assert (Hlt : (r * inject_Z n < 1 * inject_Z n)%Q)
      by (apply Qmult_lt_compat_r; assumption).
    now rewrite Qmult_1_l in Hlt.
Qed.

Lemma array_get_in_range {A} (a : list A) k :
  0 <= k < Z.of_nat (length a) -> exists x, array_get a k = Some x /\ x ∈ a.
Proof.
  intros [Hk0 Hk1]. unfold array_get.
  destruct (k <? 0) eqn:Hneg; [lia |].
  destruct (lookup_lt_is_Some_2 a (Z.to_nat k)) as [x Hx]; [lia |].
  exists x. split; [exact Hx |]. eapply list_elem_of_lookup_2, Hx.
Qed.

Lemma array_get_nat {A} (a : list A) (i : nat) : array_get a (Z.of_nat i) = a !! i.
Proof.
  unfold array_get. destruct (Z.ltb_spec (Z.of_nat i) 0) as [Hneg | _]; [lia |].
  now rewrite Nat2Z.id.
Qed.

Lemma mapM_spec {A B} (f : A -> M B) (P : A -> B -> Prop) (l : list A) w :
  (forall a w, exists b w',
      f a w = (Ok b, w') /\ P a b /\ db w' = db w /\ registry w' = registry w) ->
  exists bs w',
    mapM f l w = (Ok bs, w') /\ Forall2 P l bs /\ db w' = db w /\ registry w' = registry w.
Proof.
  intros Hf. revert w. induction l as [| a l IH]; intros w; simpl.
  - exists [], w. repeat split. constructor.
  - destruct (Hf a w) as (b & w1 & Hrun & HP & Hdb & Hreg).
    destruct (IH w1) as (bs & w2 & Hrest & HPs & Hdb2 & Hreg2).
    exists (b :: bs), w2. unfold bind at 1. rewrite Hrun.
    unfold bind at 1. rewrite Hrest. unfold ret.
    split; [reflexivity |]. split; [now constructor |]. split; congruence.
Qed.

Lemma buildViewRecord_spec postId userIds i w :
  random_in_unit env ->
  minViewDuration (appConfig env) <= maxViewDuration (appConfig env) ->
  exists record w',
    buildViewRecord env postId userIds i w = (Ok record, w') /\
    viewRecordFor env postId userIds i record /\
    db w' = db w /\ registry w' = registry w.
Proof.
  intros Hrandom Hrange.
  unfold buildViewRecord, generateRandomIP, generateRandomUserAgent, bind, Math_random, ret.
  cbn -[Z.rem Z.of_nat userAgents Math_floor Qmult].
  eexists. eexists. split; [reflexivity |]. split; [| split; reflexivity].
  unfold viewRecordFor.
  cbn -[Z.rem Z.of_nat userAgents Math_floor Qmult].
  split; [reflexivity |]. split; [reflexivity |]. split; [reflexivity |].
  split; [| split].
  - repeat constructor;
      match goal with
      | |- _ <= Math_floor (?r * 256) =>
          apply (floor_of_draw r 256); try apply Hrandom; lia
      | |- Math_floor (?r * 256) <= 255 =>
          enough (Math_floor (r * inject_Z 256) < 256) by (change (inject_Z 256) with 256%Q in *; lia);
          apply (floor_of_draw r 256); try apply Hrandom; lia
      end.
  - apply (array_get_in_range userAgents).
    match goal with
    | |- _ <= Math_floor (?r * inject_Z ?n) < _ =>
        destruct (floor_of_draw r n) as (H0 & _ & H1);
          [apply Hrandom | apply Hrandom | lia |];
          change (Z.of_nat (length userAgents)) with 6 in *; lia
    end.
  - match goal with
    | |- _ <= Math_floor (?r * inject_Z ?n) + _ <= _ =>
        destruct (floor_of_draw r n) as (H0 & H1 & _); try apply Hrandom; lia
    end.
Qed.

(** ** Writing the view records *)

Lemma Array_slice_window {A} (a : list A) i b :
  0 <= i < Z.of_nat (length a) -> 0 < b ->
  Array_slice a i (i + b) ++ drop (Z.to_nat (i + b)) a = drop (Z.to_nat i) a.
Proof.
  intros Hi Hb. unfold Array_slice, slice_index.
  destruct (Z.ltb_spec i 0) as [Hneg | _]; [lia |].
  destruct (Z.ltb_spec (i + b) 0) as [Hneg | _]; [lia |].
  rewrite (Z.min_l i) by lia.
  destruct (decide (i + b <= Z.of_nat (length a))) as [Hle | Hgt].
  - rewrite Z.min_l by lia.
    replace (Z.to_nat (i + b)) with (Z.to_nat i + Z.to_nat (i + b - i))%nat by lia.
    rewrite <- drop_drop. apply take_drop.
  - rewrite Z.min_r by lia.
    rewrite (drop_ge a (Z.to_nat (i + b))) by lia.
    rewrite app_nil_r. apply take_ge. rewrite length_drop. lia.
Qed.

Lemma insertViewBatches_spec fuel batchSize i records w :
  0 < batchSize -> 0 <= i ->
  Z.of_nat (length records) - i < Z.of_nat fuel ->
  exists w',
    insertViewBatches fuel batchSize i records w = (Ok tt, w') /\
    views (db w') = views (db w) ++ drop (Z.to_nat i) records /\
    posts (db w') = posts (db w) /\ users (db w') = users (db w) /\
    likes (db w') = likes (db w) /\
    analyticsEntries (db w') = analyticsEntries (db w) /\
    registry w' = registry w.
Proof.
  intros Hpos. revert i w. induction fuel as [| fuel IH]; intros i w Hi Hfuel; simpl.
  - destruct (Z.ltb_spec i (Z.of_nat (length records))) as [Hlt | Hge]; [lia |].
    exists w. rewrite drop_ge by lia. rewrite app_nil_r. repeat split; reflexivity.
  - destruct (Z.ltb_spec i (Z.of_nat (length records))) as [Hlt | Hge].
    + unfold bind at 1. unfold bulkCreateViews at 1. rewrite bind_get_db.
      unfold set_db at 1.
      match goal with
      | |- context [insertViewBatches fuel batchSize (i + batchSize) records ?w1] =>
          destruct (IH (i + batchSize) w1) as (w' & Hrun & Hviews & Hrest); [lia | lia |]
      end.
      exists w'. split; [exact Hrun |]. split; [| exact Hrest].
      rewrite Hviews. simpl. rewrite <- app_assoc. f_equal.
      apply Array_slice_window; lia.
    + exists w. rewrite drop_ge by lia. rewrite app_nil_r. repeat split; reflexivity.
Qed.

Lemma selectViewers_spec count w :
  0 <= count -> 0 <= maxBotUsersPerBatch (appConfig env) ->
  exists shuffled w',
    selectViewers env count w = (Ok (user_id <$> take (Z.to_nat (Z.min count
                                         (maxBotUsersPerBatch (appConfig env)))) shuffled), w') /\
    shuffled ≡ₚ filter (fun u => isBot u = true) (users (db w)) /\
    db w' = db w /\ registry w' = registry w.
Proof.
  intros Hcount Hcap. unfold selectViewers. rewrite bind_get_db.
  destruct (shuffleArray_spec (filter (fun u => isBot u = true) (users (db w))) w)
    as (shuffled & w' & Hrun & Hperm & Hdb & Hreg).
  exists shuffled, w'. unfold bind at 1. rewrite Hrun. unfold ret.
  rewrite Array_slice_prefix by lia. repeat split; assumption.
Qed.


(** ** Like generation *)

(** C8.  For every content id, count and exclusion set (random draws in
    [0, 1), user ids being a key of the user table), like generation
    returns, never throwing, the number of records it has appended to the
    like table and touches nothing else; no appended record is for an actor
    in the exclusion set; every record is for the post and for a bot user;
    the actors of the records are pairwise distinct; and for count >= 0 the
    number of records is the smaller of count and the number of eligible bot
    users, so fewer than count when fewer are eligible. *)
Theorem synthetic_likes_generated postId count (excluded : gset Z) w :
  random_in_unit env ->
  NoDup (user_id <$> users (db w)) ->
  exists records w',
    generateSyntheticLikes env postId count excluded w =
      (Ok (Z.of_nat (length records)), w') /\
    likes (db w') = likes (db w) ++ records /\
    posts (db w') = posts (db w) /\ users (db w') = users (db w) /\
    views (db w') = views (db w) /\
    analyticsEntries (db w') = analyticsEntries (db w) /\
    (forall record, record ∈ records ->
       like_postId record = postId /\
       (like_userId record ∉ excluded) /\
       (exists u, u ∈ users (db w) /\ isBot u = true /\ user_id u = like_userId record)) /\
    NoDup (like_userId <$> records) /\
    (0 <= count ->
     Z.of_nat (length records) =
       Z.min count
         (Z.of_nat (length (filter (fun u => isBot u = true /\ user_id u ∉ excluded)
                              (users (db w)))))).
Proof.
  intros _ Hkey.
  set (eligible := filter (fun u => isBot u = true /\ user_id u ∉ excluded) (users (db w))).
  destruct (shuffleArray_spec eligible w) as (shuffled & w1 & Hshuffle & Hperm & Hdb1 & Hreg1).
  set (chosen := Array_slice shuffled 0 count).
  set (records := (fun user => {| like_userId := user_id user;
                                  like_postId := postId;
                                  like_createdAt := Date_now env |}) <$> chosen).
  assert (Hrun : buildLikeRecords env postId count excluded w = (Ok records, w1)).
  { unfold buildLikeRecords. rewrite bind_get_db. fold eligible.
    unfold bind at 1. now rewrite Hshuffle. }
  assert (Hchosen : forall u, u ∈ chosen -> u ∈ eligible).
  { intros u Hu. rewrite <- Hperm.
    eapply elem_of_sublist; [exact Hu | apply Array_slice_sublist]. }
  assert (Hids : like_userId <$> records = user_id <$> chosen).
  { unfold records. rewrite <- list_fmap_compose. reflexivity. }
  assert (Hfacts :
    (forall record, record ∈ records ->
       like_postId record = postId /\
       (like_userId record ∉ excluded) /\
       (exists u, u ∈ users (db w) /\ isBot u = true /\ user_id u = like_userId record)) /\
    NoDup (like_userId <$> records) /\
    (0 <= count ->
     Z.of_nat (length records) = Z.min count (Z.of_nat (length eligible)))).
  { split; [| split].
    - intros record Hrecord. unfold records in Hrecord.
      apply list_elem_of_fmap in Hrecord as (u & -> & Hu). simpl.
      apply Hchosen in Hu. unfold eligible in Hu.
      apply list_elem_of_filter in Hu as [[Hb Hex] Hin]. eauto 6.
    - rewrite Hids.
      eapply sublist_NoDup; [| apply fmap_sublist, Array_slice_sublist].
      rewrite Hperm.
      eapply sublist_NoDup; [exact Hkey | apply fmap_sublist, sublist_filter].
    - intros Hcount. unfold records, chosen.
      rewrite length_fmap, Array_slice_prefix, length_take by exact Hcount.
      rewrite (Permutation_length Hperm). lia. }
  unfold generateSyntheticLikes. unfold bind at 1. rewrite Hrun.
  destruct (Z.ltb_spec 0 (Z.of_nat (length records))) as [Hsome | Hnone].
  - eexists records, _. split; [reflexivity |]. cbn.
    rewrite Hdb1. repeat (split; [reflexivity |]). exact Hfacts.
  - assert (Hnil : records = []) by (destruct records; [reflexivity | simpl in Hnone; lia]).
    exists records, w1. split; [reflexivity |].
    rewrite Hdb1. split; [now rewrite Hnil, app_nil_r |].
    repeat (split; [reflexivity |]). exact Hfacts.
Qed.

(** ** What the result reports *)

Lemma applyMetricsUpdate_written post fv fl simulation elapsedHours w w' locked :
  applyMetricsUpdate env post fv fl simulation elapsedHours w = (Ok tt, w') ->
  db_posts w !! post_id post = Some locked ->
  db_posts w' =
    <[post_id post :=
        {| viewCount := Z.max fv (viewCount locked);
           likeCount := Z.min (Z.max fl (likeCount locked)) (Z.max fv (viewCount locked));
           commentCount := commentCount locked;
           shareCount := shareCount locked |}]> (db_posts w).
Proof.
  intros Hrun Hlocked.
  assert (Htx : metricsUpdateTransaction env post fv fl simulation elapsedHours w = (Ok tt, w')).
  { unfold applyMetricsUpdate in Hrun.
    destruct (metricsUpdateTransaction env post fv fl simulation elapsedHours w)
      as [[[] | e |] w1]; [exact Hrun | discriminate | discriminate]. }
  clear Hrun. revert Htx.
  unfold metricsUpdateTransaction. rewrite bind_get_db.
  unfold db_posts in Hlocked. rewrite Hlocked, bind_set_db.
  match goal with
  | |- ?rest ?w1 = _ -> _ =>
      assert (Hrest : preserves (same db_posts) rest) by frames;
      specialize (Hrest w1); intros Htx; rewrite Htx in Hrest
  end.
  exact Hrest.
Qed.

(** With a snapshot that is the row as it is locked, and like count <= view
    count in it, a result of a non-complete update carries the counters that
    are in the row afterwards and the difference to those of the snapshot. *)
Lemma fresh_snapshot_result_is_what_was_written
    mediaId simulation post w m cv cl progress dv dl w' :
  db_posts w !! post_id post = Some (post_row post) ->
  likeCount (post_row post) <= viewCount (post_row post) ->
  updateSingleSimulation env mediaId simulation (Some post) w =
    (Ok (ResultUpdated m cv cl progress dv dl), w') ->
  exists row',
    db_posts w' !! post_id post = Some row' /\
    viewCount row' = cv /\ likeCount row' = cl /\
    dv = cv - viewCount (post_row post) /\
    dl = cl - likeCount (post_row post).
Proof.
  intros Hfresh Hinv. unfold updateSingleSimulation. cbv zeta.
  destruct (isSimulationComplete env simulation); [discriminate |].
  rewrite bind_ret. unfold bind at 1.
  pose proof (calculateTargetMetrics_same_db simulation
                (calculateElapsedTime env (startTime simulation)) w) as Htm.
  unfold same in Htm.
  destruct (calculateTargetMetrics env simulation
              (calculateElapsedTime env (startTime simulation)) w)
    as [[targets | e |] w1]; cbn [fst snd] in *; try discriminate.
  assert (Hrow1 : db_posts w1 !! post_id post = Some (post_row post))
    by (unfold db_posts in *; now rewrite Htm).
  destruct (adjustMetrics_clamp targets.1 targets.2 (viewCount (post_row post))
              (likeCount (post_row post))) as (Hv & Hlv & Hl).
  specialize (Hl Hinv).
  pose proof (hasChanges_spec targets.1 targets.2 (viewCount (post_row post))
                (likeCount (post_row post))) as Hch.
  set (adj := adjustMetrics targets.1 targets.2 (viewCount (post_row post))
                (likeCount (post_row post))) in *.
  clearbody adj. unfold bind at 1.
  destruct (hasChanges adj).
  - destruct (applyMetricsUpdate env post (finalViews adj) (finalLikes adj) simulation
                (calculateElapsedTime env (startTime simulation)) w1)
      as [[[] | e |] w2] eqn:Happ; try discriminate.
    unfold ret. intros [= <- <- <- _ <- <- <-].
    rewrite (applyMetricsUpdate_written _ _ _ _ _ _ _ _ Happ Hrow1), lookup_insert_eq.
    eexists. split; [reflexivity |]. simpl. repeat split; lia.
  - unfold ret. intros [= <- <- <- _ <- <- <-].
    exists (post_row post). split; [exact Hrow1 |].
    symmetry in Hch. apply orb_false_elim in Hch as [Hcv Hcl].
    apply Z.ltb_ge in Hcv, Hcl. repeat split; lia.
Qed.

End EngineFacts.

(** * A concrete scenario

    One post, three bot users and one human; a linear simulation from 100
    to 200 views over 72 hours that started 36 hours ago; every random draw
    is 1/2, so the variance is zero and the targets are 150 views and 7
    likes. *)

Lemma exampleEnv_random_in_unit : random_in_unit exampleEnv.
Proof. intros n. split; [apply Qle_bool_iff | apply Qlt_alt]; reflexivity. Qed.

Example example_targets :
  calculateTargetMetrics exampleEnv exampleSimulation 36 exampleWorld =
    (Ok (150, 7), {| db := db exampleWorld; registry := registry exampleWorld; draws := 2 |}).
Proof. vm_compute. reflexivity. Qed.

Example example_update :
  exists progress w',
    updateSingleSimulation exampleEnv 1 exampleSimulation (Some examplePost) exampleWorld =
      (Ok (ResultUpdated 1 150 7 progress 50 2), w') /\
    db_posts w' !! 1 =
      Some {| viewCount := 150; likeCount := 7; commentCount := 2; shareCount := 1 |} /\
    length (views (db w')) = 50%nat /\
    length (likes (db w')) = 2%nat /\
    length (analyticsEntries (db w')) = 1%nat.
Proof.
  eexists. eexists. split; [vm_compute; reflexivity |].
  repeat split; vm_compute; reflexivity.
Qed.



Lemma noop_update_writes_nothing_witness :
  updateSingleSimulation exampleEnv 1 exampleSimulation (Some settledPost) settledWorld =
    (Ok (ResultUpdated 1 (viewCount (post_row settledPost)) (likeCount (post_row settledPost))
           (calculateProgress (calculateElapsedTime exampleEnv (startTime exampleSimulation))
              (growthDurationHours exampleSimulation))
           0 0),
     {| db := db settledWorld; registry := registry settledWorld; draws := 2 |}) /\
  db {| db := db settledWorld; registry := registry settledWorld; draws := 2 |}
    = db settledWorld /\
  registry {| db := db settledWorld; registry := registry settledWorld; draws := 2 |}
    = registry settledWorld.
Proof.
  apply (noop_update_writes_nothing exampleEnv 1 exampleSimulation (Some settledPost)
           settledPost settledWorld 150 7).
  - reflexivity.
  - left. reflexivity.
  - vm_compute. reflexivity.
  - reflexivity.
  - reflexivity.
Defined.







Lemma synthetic_likes_generated_witness :
  exists records w',
    generateSyntheticLikes exampleEnv 1 5 {[ 11 ]} exampleWorld =
      (Ok (Z.of_nat (length records)), w') /\
    likes (db w') = likes (db exampleWorld) ++ records /\
    NoDup (like_userId <$> records) /\
    (forall record, record ∈ records -> like_userId record ∉ ({[ 11 ]} : gset Z)).
Proof.
  destruct (synthetic_likes_generated exampleEnv 1 5 {[ 11 ]} exampleWorld
              exampleEnv_random_in_unit)
    as (records & w' & Hrun & Hlikes & _ & _ & _ & _ & Hrecords & Hdistinct & _).
  - apply (bool_decide_unpack _). vm_compute. exact I.
  - exists records, w'. repeat split; try assumption.
    intros record Hin. apply (Hrecords record Hin).
Defined.

Example example_likes_shortfall :
  exists w',
    generateSyntheticLikes exampleEnv 1 5 {[ 11 ]} exampleWorld = (Ok 2, w') /\
    like_userId <$> likes (db w') = [12; 14].
Proof. eexists. split; vm_compute; reflexivity. Qed.

(** * More properties of the growth curves *)

Section OtherCurvesReal.
#[local] Open Scope R_scope.

Lemma exponentialR_unfold t T initial max :
  calculateExponentialGrowth (H := RNumber) t T initial max =
    Rmin (initial * exp (ln (max / initial) / T * t)) max.
Proof. reflexivity. Qed.

Lemma growth_rate_nonneg T initial max :
  0 < T -> 0 < initial -> initial <= max -> 0 <= ln (max / initial) / T.
Proof.
  intros HT Hi Hm.
  assert (Hq : 1 <= max / initial).
  { apply (Rmult_le_reg_r initial); [exact Hi |].
    unfold Rdiv. rewrite Rmult_assoc, Rinv_l by lra. lra. }
  assert (Hln : 0 <= ln (max / initial)).
  { rewrite <- ln_1. destruct (Rle_lt_or_eq_dec _ _ Hq) as [Hlt | <-]; [| lra].
    left. apply ln_increasing; lra. }
  apply Rmult_le_pos; [exact Hln |]. left. now apply Rinv_0_lt_compat.
Qed.

Lemma exp_monotone x y : x <= y -> exp x <= exp y.
Proof.
  intros Hle. destruct (Rle_lt_or_eq_dec _ _ Hle) as [Hlt | ->]; [| lra].
  left. now apply exp_increasing.
Qed.

(** X1.  Over the reals, for 0 < initial <= max and T > 0, the exponential
    curve starts at the initial value, reaches the maximum exactly at the
    end of the duration and stays there, never exceeds the maximum, and is
    non-decreasing in time. *)
Theorem exponential_growth_from_initial_to_max (T initial max : R) :
  0 < T -> 0 < initial -> initial <= max ->
  calculateExponentialGrowth (H := RNumber) 0 T initial max = initial /\
  (forall t, T <= t -> calculateExponentialGrowth (H := RNumber) t T initial max = max) /\
  (forall t, calculateExponentialGrowth (H := RNumber) t T initial max <= max) /\
  (forall t1 t2, t1 <= t2 ->
     calculateExponentialGrowth (H := RNumber) t1 T initial max
       <= calculateExponentialGrowth (H := RNumber) t2 T initial max).
Proof.
  intros HT Hi Hm.
  pose proof (growth_rate_nonneg T initial max HT Hi Hm) as Hrate.
  assert (Hend : initial * exp (ln (max / initial) / T * T) = max).
  { replace (ln (max / initial) / T * T) with (ln (max / initial)) by (field; lra).
    rewrite exp_ln; [field; lra |].
    apply Rdiv_lt_0_compat; lra. }
  repeat split.
  - rewrite exponentialR_unfold, Rmult_0_r, exp_0, Rmult_1_r. now apply Rmin_left.
  - intros t Ht. rewrite exponentialR_unfold. apply Rmin_right.
    rewrite <- Hend at 1. apply Rmult_le_compat_l; [lra |].
    apply exp_monotone. now apply Rmult_le_compat_l.
  - intros t. rewrite exponentialR_unfold. apply Rmin_r.
  - intros t1 t2 Hle. rewrite !exponentialR_unfold.
    apply Rle_min_compat_r. apply Rmult_le_compat_l; [lra |].
    apply exp_monotone. now apply Rmult_le_compat_l.
Qed.

Lemma exponential_growth_from_initial_to_max_witness :
  calculateExponentialGrowth (H := RNumber) 0 24 100 10000 = 100.
Proof. apply (exponential_growth_from_initial_to_max 24 100 10000); lra. Defined.

Lemma logarithmicR_unfold t T max :
  calculateLogarithmicGrowth (H := RNumber) t T max =
    Rmin (max * (ln (t + 1) / ln (T + 1))) max.
Proof.
  unfold calculateLogarithmicGrowth. simpl. unfold Q2R. simpl.
  replace (1 * / 1) with 1 by lra. reflexivity.
Qed.

Lemma ln_monotone x y : 0 < x -> x <= y -> ln x <= ln y.
Proof.
  intros Hx Hle. destruct (Rle_lt_or_eq_dec _ _ Hle) as [Hlt | ->]; [| lra].
  left. now apply ln_increasing.
Qed.

(** X2.  Over the reals, for T > 0 and max >= 0, the logarithmic curve is
    0 at time 0, reaches the maximum exactly at the end of the duration and
    stays there, never exceeds the maximum, and is non-decreasing in time
    from time 0 on. *)
Theorem logarithmic_growth_from_zero_to_max (T max : R) :
  0 < T -> 0 <= max ->
  calculateLogarithmicGrowth (H := RNumber) 0 T max = 0 /\
  (forall t, T <= t -> calculateLogarithmicGrowth (H := RNumber) t T max = max) /\
  (forall t, calculateLogarithmicGrowth (H := RNumber) t T max <= max) /\
  (forall t1 t2, 0 <= t1 -> t1 <= t2 ->
     calculateLogarithmicGrowth (H := RNumber) t1 T max
       <= calculateLogarithmicGrowth (H := RNumber) t2 T max).
Proof.
  intros HT Hmax.
  assert (HlnT : 0 < ln (T + 1)) by (rewrite <- ln_1; apply ln_increasing; lra).
  repeat split.
  - rewrite logarithmicR_unfold, Rplus_0_l, ln_1.
    unfold Rdiv. rewrite Rmult_0_l, Rmult_0_r. now apply Rmin_left.
  - intros t Ht. rewrite logarithmicR_unfold. apply Rmin_right.
    rewrite <- (Rmult_1_r max) at 1. apply Rmult_le_compat_l; [exact Hmax |].
    apply (Rmult_le_reg_r (ln (T + 1))); [exact HlnT |].
    unfold Rdiv. rewrite Rmult_assoc, Rinv_l by lra.
    rewrite Rmult_1_l, Rmult_1_r. apply ln_monotone; lra.
  - intros t. rewrite logarithmicR_unfold. apply Rmin_r.
  - intros t1 t2 Ht1 Hle. rewrite !logarithmicR_unfold.
    apply Rle_min_compat_r. apply Rmult_le_compat_l; [exact Hmax |].
    unfold Rdiv. apply Rmult_le_compat_r; [left; now apply Rinv_0_lt_compat |].
    apply ln_monotone; lra.
Qed.

Lemma logarithmic_growth_from_zero_to_max_witness :
  calculateLogarithmicGrowth (H := RNumber) 0 168 10000 = 0.
Proof. apply (logarithmic_growth_from_zero_to_max 168 10000); lra. Defined.
End OtherCurvesReal.

(** * More properties of the engine *)

Section EngagementRate.
Variable env : Env.

Lemma calculateEngagement_unfold v l c s :
  calculateEngagement env v l c s =
    if Qeq_bool (inject_Z v) 0 then 0%Q
    else Qmin ((inject_Z l * 1 + inject_Z c * 2 + inject_Z s * 3) / inject_Z v * 100)%Q 100%Q.
Proof. reflexivity. Qed.

Lemma rate_le_100 (weighted views : Q) :
  (0 < views)%Q ->
  (weighted / views * 100 <= 100)%Q <-> (weighted <= views)%Q.
Proof.
  intros Hv.
  assert (Hne : ~ (views == 0)%Q) by (intros E; rewrite E in Hv; discriminate).
  assert (E : (weighted == weighted / views * views)%Q) by (field; exact Hne).
  set (q := (weighted / views)%Q) in *. clearbody q.
  split; intros H.
  - assert (Hq : (q * views <= 1 * views)%Q)
      by (apply Qmult_le_compat_r; [Lqa.lra | now apply Qlt_le_weak]).
    rewrite Qmult_1_l in Hq. now rewrite E.
  - assert (Hq : (q * views <= 1 * views)%Q) by (now rewrite Qmult_1_l, <- E).
    apply Qmult_le_r in Hq; [Lqa.lra | exact Hv].
Qed.

(** X3.  The engagement rate is 0 for a post without views and never
    above 100; for a post with views and non-negative counts it is not
    negative, it is the weighted sum likes + 2 comments + 3 shares as a
    percentage of the views while that sum does not exceed the views, and
    exactly 100 from there on. *)
Theorem engagement_rate_is_a_capped_percentage (v l c s : Z) :
  let rate := calculateEngagement env v l c s in
  let weighted := (inject_Z l + 2 * inject_Z c + 3 * inject_Z s)%Q in
  (v = 0 -> rate = 0%Q) /\
  (rate <= 100)%Q /\
  (0 < v -> 0 <= l -> 0 <= c -> 0 <= s ->
   (0 <= rate)%Q /\
   ((weighted <= inject_Z v)%Q -> (rate == weighted / inject_Z v * 100)%Q) /\
   ((inject_Z v <= weighted)%Q -> (rate == 100)%Q)).
Proof.
  cbv zeta. rewrite calculateEngagement_unfold.
  split; [intros ->; reflexivity |].
  split.
  { destruct (Qeq_bool (inject_Z v) 0); [discriminate | apply Q.le_min_r]. }
  intros Hv Hl Hc Hs.
  assert (Hv' : (0 < inject_Z v)%Q) by (change 0%Q with (inject_Z 0); now rewrite <- Zlt_Qlt).
  assert (Hl' : (0 <= inject_Z l)%Q) by (change 0%Q with (inject_Z 0); now rewrite <- Zle_Qle).
  assert (Hc' : (0 <= inject_Z c)%Q) by (change 0%Q with (inject_Z 0); now rewrite <- Zle_Qle).
  assert (Hs' : (0 <= inject_Z s)%Q) by (change 0%Q with (inject_Z 0); now rewrite <- Zle_Qle).
  destruct (Qeq_bool (inject_Z v) 0) eqn:Hz.
  { apply Qeq_bool_iff in Hz. rewrite Hz in Hv'. discriminate. }
  assert (Ew : (inject_Z l * 1 + inject_Z c * 2 + inject_Z s * 3 ==
                inject_Z l + 2 * inject_Z c + 3 * inject_Z s)%Q) by ring.
  rewrite Ew.
  set (weighted := (inject_Z l + 2 * inject_Z c + 3 * inject_Z s)%Q).
  assert (Hw : (0 <= weighted)%Q) by (unfold weighted; Lqa.lra).
  assert (Hrate : (0 <= weighted / inject_Z v * 100)%Q).
  { apply Qmult_le_0_compat; [| discriminate].
    apply Qmult_le_0_compat; [exact Hw |]. apply Qlt_le_weak. now apply Qinv_lt_0_compat. }
  split; [| split].
  - apply Q.min_glb; [exact Hrate | discriminate].
  - intros Hle. apply Q.min_l. now apply rate_le_100.
  - intros Hge. apply Q.min_r.
    assert (Hq : (1 <= weighted / inject_Z v)%Q)
      by (apply Qle_shift_div_l; [exact Hv' | now rewrite Qmult_1_l]).
    set (q := (weighted / inject_Z v)%Q) in *. clearbody q. Lqa.lra.
Qed.

End EngagementRate.

Lemma engagement_rate_is_a_capped_percentage_witness :
  (calculateEngagement exampleEnv 1000 50 10 5 == (inject_Z 50 + 2 * inject_Z 10 + 3 * inject_Z 5)
                                             / inject_Z 1000 * 100)%Q.
Proof.
  destruct (engagement_rate_is_a_capped_percentage exampleEnv 1000 50 10 5) as (_ & _ & H).
  destruct H as (_ & Hpercent & _); try lia.
  apply Hpercent. discriminate.
Defined.


Section GrowthHelpers.
Variable env : Env.

(** X4.  The hourly activity multiplier is between 0.1 and 1 for every
    hour given, and is 0.5 for every hour outside 0..23. *)
Theorem hourly_multiplier_in_range (hourOfDay : Z) :
  ((1 # 10) <= getHourlyActivityMultiplier hourOfDay)%Q /\
  (getHourlyActivityMultiplier hourOfDay <= 1)%Q /\
  (hourOfDay < 0 \/ 23 < hourOfDay -> getHourlyActivityMultiplier hourOfDay = 1 # 2).
Proof.
  unfold getHourlyActivityMultiplier, array_get.
  destruct (Z.ltb_spec hourOfDay 0) as [Hneg | Hnonneg].
  { repeat split; discriminate. }
  remember (Z.to_nat hourOfDay) as n eqn:Hn.
  do 24 (destruct n as [| n];
         [simpl; split; [discriminate | split; [discriminate | intros [H | H]; lia]] |]).
  simpl. repeat split; discriminate.
Qed.

Lemma random_variance_bounds r variance :
  (0 <= variance)%Q -> (0 <= r)%Q -> (r < 1)%Q ->
  (- variance <= (r * 2 - 1) * variance)%Q /\ ((r * 2 - 1) * variance <= variance)%Q.
Proof.
  intros Hv Hr0 Hr1.
  assert (Hlow : (0 <= r * variance)%Q) by (apply Qmult_le_0_compat; assumption).
  assert (Hup : (r * variance <= 1 * variance)%Q)
    by (apply Qmult_le_compat_r; [apply Qlt_le_weak |]; assumption).
  assert (E : ((r * 2 - 1) * variance == 2 * (r * variance) - variance)%Q) by ring.
  rewrite E. set (p := (r * variance)%Q) in *. clearbody p. split; Lqa.lra.
Qed.


End GrowthHelpers.


Section CompoundGrowthFacts.
Variable env : Env.

End CompoundGrowthFacts.


Section ViewTargets.
Variable env : Env.

Lemma floor_at_least (n : Z) (x : Q) : (inject_Z n <= x)%Q -> n <= Math_floor x.
Proof.
  intros H. unfold Math_floor. rewrite <- (Qfloor_Z n). now apply Qfloor_resp_le.
Qed.

Lemma linear_progress_monotone (slope e1 e2 : Q) :
  (0 <= slope)%Q -> (e1 <= e2)%Q -> (slope * e1 <= slope * e2)%Q.
Proof.
  intros Hs He. rewrite !(Qmult_comm slope). now apply Qmult_le_compat_r.
Qed.


Lemma sigmoid_share (growth e : Q) :
  (0 <= growth)%Q -> (0 < e)%Q ->
  (0 <= growth / (1 + e))%Q /\ (growth / (1 + e) <= growth)%Q.
Proof.
  intros Hg He.
  assert (Hd : (0 < 1 + e)%Q) by Lqa.lra.
  split.
  - apply Qle_shift_div_l; [exact Hd | Lqa.lra].
  - apply Qle_shift_div_r; [exact Hd |].
    assert (Hge : (0 <= growth * e)%Q)
      by (apply Qmult_le_0_compat; [exact Hg | now apply Qlt_le_weak]).
    assert (E : (growth * (1 + e) == growth + growth * e)%Q) by ring.
    rewrite E. set (p := (growth * e)%Q) in *. clearbody p. Lqa.lra.
Qed.

(** X8.  When the value of [Math.exp] is positive and the maximum is not
    below the initial count, the sigmoid view target lies between the
    initial count and the maximum (rounded down), at every elapsed time and
    for every duration. *)
Theorem sigmoid_views_between_initial_and_max
    (elapsedHours growthDurationHours maxViews : Q) (initialViews : Z) :
  (forall x, (0 < env_exp env x)%Q) ->
  (inject_Z initialViews <= maxViews)%Q ->
  initialViews
    <= calculateSigmoidViews env elapsedHours growthDurationHours maxViews initialViews
    <= Math_floor maxViews.
Proof.
  intros Hexp Hmax. unfold calculateSigmoidViews. cbv zeta.
  change (calculateSigmoidGrowth (H := QNumber (env_exp env) (env_log env))
            elapsedHours growthDurationHours (maxViews - inject_Z initialViews)%Q)
    with ((maxViews - inject_Z initialViews)
          / (1 + env_exp env (- (15 # 100) * (elapsedHours - growthDurationHours / 2))))%Q.
  destruct (sigmoid_share (maxViews - inject_Z initialViews)%Q
              (env_exp env (- (15 # 100) * (elapsedHours - growthDurationHours / 2))))
    as [Hlo Hhi]; [Lqa.lra | apply Hexp |].
  set (share := ((maxViews - inject_Z initialViews) / _)%Q) in *. clearbody share.
  split.
  - apply floor_at_least. Lqa.lra.
  - unfold Math_floor. apply Qfloor_resp_le. Lqa.lra.
Qed.
End ViewTargets.


Lemma sigmoid_views_between_initial_and_max_witness :
  100 <= calculateSigmoidViews exampleEnv 36 72 200 100 <= Math_floor 200.
Proof.
  apply (sigmoid_views_between_initial_and_max exampleEnv 36 72 200 100).
  - intros x. reflexivity.
  - discriminate.
Defined.

(** * The registry *)

Section RegistryMap.
Context {V : Type}.
Implicit Types (m : list (Z * V)) (k : Z) (v : V).

Lemma Map_get_set_ne k k' v m : k' <> k -> Map_get k' (Map_set k v m) = Map_get k' m.
Proof.
  intros Hne. induction m as [| [k0 v0] m IH]; simpl.
  - now rewrite decide_False by congruence.
  - destruct (decide (k0 = k)) as [-> | Hk]; simpl.
    + now rewrite !decide_False by congruence.
    + destruct (decide (k0 = k')); [reflexivity | exact IH].
Qed.

Lemma Map_has_keys k m : Map_has k m = true <-> k ∈ Map_keys m.
Proof.
  unfold Map_has, Map_keys. induction m as [| [k0 v0] m IH]; simpl.
  - split; [discriminate | intros H; now apply elem_of_nil in H].
  - rewrite elem_of_cons. destruct (decide (k0 = k)) as [-> | Hk].
    + split; [now left | reflexivity].
    + rewrite IH. split; [now right | intros [-> | H]; [congruence | exact H]].
Qed.

Lemma Map_keys_set k v m :
  Map_keys (Map_set k v m) = if Map_has k m then Map_keys m else Map_keys m ++ [k].
Proof.
  unfold Map_has. induction m as [| [k0 v0] m IH]; simpl; [reflexivity |].
  destruct (decide (k0 = k)) as [-> | Hk]; [reflexivity |].
  change (Map_keys ((k0, v0) :: Map_set k v m)) with (k0 :: Map_keys (Map_set k v m)).
  rewrite IH. now destruct (Map_get k m).
Qed.

Lemma Map_set_NoDup k v m : NoDup (Map_keys m) -> NoDup (Map_keys (Map_set k v m)).
Proof.
  intros Hnd. rewrite Map_keys_set.
  destruct (Map_has k m) eqn:Hhas; [exact Hnd |].
  apply NoDup_app. split; [exact Hnd |]. split; [| apply NoDup_singleton].
  intros x Hx Hk. apply list_elem_of_singleton in Hk as ->.
  apply Map_has_keys in Hx. congruence.
Qed.

Lemma Map_get_delete k m : Map_get k (Map_delete k m) = None.
Proof.
  unfold Map_delete. induction m as [| [k0 v0] m IH]; simpl; [reflexivity |].
  rewrite filter_cons. simpl.
  destruct (decide (k0 <> k)) as [Hk | Hk]; simpl; [| exact IH].
  now rewrite decide_False by exact Hk.
Qed.

Lemma Map_get_delete_ne k k' m : k' <> k -> Map_get k' (Map_delete k m) = Map_get k' m.
Proof.
  intros Hne. unfold Map_delete. induction m as [| [k0 v0] m IH]; simpl; [reflexivity |].
  rewrite filter_cons. simpl.
  destruct (decide (k0 <> k)) as [Hk | Hk]; simpl.
  - destruct (decide (k0 = k')); [reflexivity | exact IH].
  - apply dec_stable in Hk. subst k0. now rewrite decide_False by congruence.
Qed.

Lemma Map_keys_delete k m : Map_keys (Map_delete k m) = filter (fun k' => k' <> k) (Map_keys m).
Proof.
  unfold Map_delete, Map_keys. induction m as [| [k0 v0] m IH]; [reflexivity |].
  rewrite fmap_cons, !filter_cons. cbn [fst].
  destruct (decide (k0 <> k)); [| exact IH].
  rewrite fmap_cons. cbn [fst]. f_equal. exact IH.
Qed.

Lemma Map_get_first k v m : NoDup (Map_keys m) -> (k, v) ∈ m -> Map_get k m = Some v.
Proof.
  unfold Map_keys. induction m as [| [k0 v0] m IH]; simpl; intros Hnd Hin.
  - now apply elem_of_nil in Hin.
  - apply NoDup_cons in Hnd as [Hfresh Hnd].
    apply elem_of_cons in Hin as [[= <- <-] | Hin].
    + now rewrite decide_True.
    + destruct (decide (k0 = k)) as [-> | Hk]; [| now apply IH].
      exfalso. apply Hfresh. apply list_elem_of_fmap. now exists (k, v).
Qed.
End RegistryMap.

Section RegistryFacts.
Variable env : Env.

(** X9.  Starting a simulation always succeeds and registers it under
    its target id with the current time as start time: a lookup of the
    target returns it, the entries of all other targets are as before, and
    the registry still has one entry per target; a target that was already
    registered keeps its place and gets the new simulation, a new target is
    added at the end.  The database is not touched. *)
Theorem start_registers_one_entry_per_target
    (id : Z) (mv ml lr gd : Q) (gc : string) (iv il : Z) w :
  NoDup (Map_keys (registry w)) ->
  exists simulation w',
    startSimulation env id mv ml lr gd gc iv il w =
      (Ok {| sr_success := true; sr_simulation := simulation |}, w') /\
    db w' = db w /\
    targetMediaId simulation = id /\
    startTime simulation = Date_now env /\
    Map_get id (registry w') = Some simulation /\
    (forall k, k <> id -> Map_get k (registry w') = Map_get k (registry w)) /\
    NoDup (Map_keys (registry w')) /\
    Map_keys (registry w') =
      (if Map_has id (registry w) then Map_keys (registry w)
       else Map_keys (registry w) ++ [id]).
Proof.
  intros Hnd. eexists. eexists. split; [reflexivity |]. cbn.
  split; [reflexivity |]. split; [reflexivity |]. split; [reflexivity |].
  split; [apply Map_get_set |].
  split; [intros k Hk; now apply Map_get_set_ne |].
  split; [now apply Map_set_NoDup | apply Map_keys_set].
Qed.

(** X10.  Stopping a simulation returns whether the target was
    registered; afterwards a lookup of the target finds nothing, the entries
    of all other targets are as before, stopping again returns false, and
    stopping a target that was not registered changes nothing.  The database
    is not touched. *)
Theorem stop_removes_the_target (id : Z) w :
  exists w',
    stopSimulation id w = (Ok (Map_has id (registry w)), w') /\
    db w' = db w /\
    Map_get id (registry w') = None /\
    (forall k, k <> id -> Map_get k (registry w') = Map_get k (registry w)) /\
    stopSimulation id w' = (Ok false, w') /\
    (Map_has id (registry w) = false -> w' = w).
Proof.
  unfold stopSimulation, bind, get_registry, set_registry, ret.
  destruct (Map_has id (registry w)) eqn:Hhas; cbn.
  - eexists. split; [reflexivity |]. cbn.
    split; [reflexivity |]. split; [apply Map_get_delete |].
    split; [intros k Hk; now apply Map_get_delete_ne |].
    split; [| discriminate].
    unfold Map_has. now rewrite Map_get_delete.
  - exists w. split; [reflexivity |]. split; [reflexivity |].
    unfold Map_has in Hhas.
    destruct (Map_get id (registry w)) eqn:Hget; [discriminate |].
    split; [reflexivity |]. split; [reflexivity |].
    split; [| reflexivity].
    unfold Map_has. now rewrite Hget.
Qed.

Lemma stop_removes_the_target_witness :
  Map_has 1 (registry exampleWorld) = true /\
  exists w',
    stopSimulation 1 exampleWorld = (Ok true, w') /\
    Map_get 1 (registry w') = None.
Proof.
  split; [reflexivity |].
  destruct (stop_removes_the_target 1 exampleWorld) as (w' & Hrun & _ & Hget & _).
  exists w'. split; [exact Hrun | exact Hget].
Defined.
End RegistryFacts.

Lemma start_registers_one_entry_per_target_witness :
  exists simulation w',
    startSimulation exampleEnv 1 300 20 (5 # 100) 48 "sigmoid" 150 7 exampleWorld =
      (Ok {| sr_success := true; sr_simulation := simulation |}, w') /\
    Map_get 1 (registry w') = Some simulation /\
    Map_keys (registry w') = [1].
Proof.
  destruct (start_registers_one_entry_per_target exampleEnv 1 300 20 (5 # 100) 48 "sigmoid"
              150 7 exampleWorld)
    as (simulation & w' & Hrun & _ & _ & _ & Hget & _ & _ & Hkeys).
  - apply (bool_decide_unpack _). vm_compute. exact I.
  - exists simulation, w'. split; [exact Hrun |]. split; [exact Hget | exact Hkeys].
Defined.

Section StatusFacts.
Variable env : Env.

Lemma getSimulationStatus_run id w :
  getSimulationStatus env id w = (Ok (statusOf env <$> Map_get id (registry w)), w).
Proof.
  unfold getSimulationStatus, bind, get_registry.
  now destruct (Map_get id (registry w)).
Qed.

Lemma statuses_of_entries (entries : list (Z * Simulation)) w :
  (forall k simulation, (k, simulation) ∈ entries -> Map_get k (registry w) = Some simulation) ->
  mapM (fun entry : Z * Simulation => getSimulationStatus env entry.1) entries w =
    (Ok ((fun entry : Z * Simulation => Some (statusOf env entry.2)) <$> entries), w).
Proof.
  induction entries as [| [k simulation] entries IH]; intros Hget; simpl; [reflexivity |].
  unfold bind at 1. rewrite getSimulationStatus_run.
  rewrite (Hget k simulation) by (apply elem_of_cons; now left).
  unfold bind at 1. rewrite IH; [reflexivity |].
  intros k' s' Hin. apply Hget. apply elem_of_cons. now right.
Qed.


Lemma complete_iff_duration_elapsed simulation :
  isSimulationComplete env simulation = true <->
  (growthDurationHours simulation * inject_Z (1000 * 60 * 60)
   <= inject_Z (Date_now env - startTime simulation))%Q.
Proof.
  unfold isSimulationComplete, elapsedHoursSince. cbv zeta.
  rewrite Qle_bool_iff. split; intros H.
  - set (elapsedMs := inject_Z (Date_now env - startTime simulation)) in *.
    assert (E : (elapsedMs / inject_Z (1000 * 60 * 60) * inject_Z (1000 * 60 * 60)
                 == elapsedMs)%Q) by (field; discriminate).
    rewrite <- E. apply Qmult_le_r; [reflexivity | exact H].
  - apply Qle_shift_div_l; [reflexivity | exact H].
Qed.
End StatusFacts.

(** X12.  A simulation is complete exactly when its duration in hours,
    in milliseconds, is at most the time since its start; so a simulation
    that is complete at one time is complete at every later time. *)
Theorem completion_is_permanent (env1 env2 : Env) (simulation : Simulation) :
  Date_now env1 <= Date_now env2 ->
  (isSimulationComplete env1 simulation = true <->
   (growthDurationHours simulation * inject_Z (1000 * 60 * 60)
    <= inject_Z (Date_now env1 - startTime simulation))%Q) /\
  (isSimulationComplete env1 simulation = true ->
   isSimulationComplete env2 simulation = true).
Proof.
  intros Hlater. split; [apply complete_iff_duration_elapsed |].
  rewrite !complete_iff_duration_elapsed. intros H.
  eapply Qle_trans; [exact H |]. rewrite <- Zle_Qle. lia.
Qed.

Lemma completion_is_permanent_witness :
  isSimulationComplete (exampleEnvAt (80 * (1000 * 60 * 60))) exampleSimulation = true.
Proof.
  apply (completion_is_permanent (exampleEnvAt (73 * (1000 * 60 * 60)))
           (exampleEnvAt (80 * (1000 * 60 * 60))) exampleSimulation).
  - discriminate.
  - reflexivity.
Defined.


(** * More of the data generator *)

Section ShuffleFacts.
Variable env : Env.

Lemma shuffle_from_draws {A} i (l : list A) w :
  exists l' w',
    shuffle_from env i l w = (Ok l', w') /\ l' ≡ₚ l /\
    db w' = db w /\ registry w' = registry w /\ draws w' = (draws w + i)%nat.
Proof.
  revert l w. induction i as [| i IH]; intros l w; simpl.
  - exists l, w. repeat split; try reflexivity. lia.
  - unfold bind, Math_random.
    match goal with
    | |- context [shuffle_from env i ?l1 ?w1] =>
        destruct (IH l1 w1) as (l' & w' & Hrun & Hperm & Hdb & Hreg & Hdraws)
    end.
    exists l', w'. split; [exact Hrun |].
    split; [etransitivity; [exact Hperm | apply swap_Permutation] |].
    split; [exact Hdb |]. split; [exact Hreg |]. rewrite Hdraws. simpl. lia.
Qed.

(** X13.  With random draws in [0, 1), [shuffleArray] returns a
    permutation of its argument (the same elements, each as often as
    before, so the same length), having drawn one random number per element
    but the first; an array of at most one element comes back as it is.  It
    touches neither the database nor the registry. *)
Theorem shuffle_returns_a_permutation {A} (array : list A) w :
  random_in_unit env ->
  exists shuffled w',
    shuffleArray env array w = (Ok shuffled, w') /\
    shuffled ≡ₚ array /\
    length shuffled = length array /\
    draws w' = (draws w + (length array - 1))%nat /\
    db w' = db w /\ registry w' = registry w /\
    ((length array <= 1)%nat -> shuffled = array).
Proof.
  intros _. unfold shuffleArray. cbv zeta.
  destruct (shuffle_from_draws (length array - 1) array w)
    as (shuffled & w' & Hrun & Hperm & Hdb & Hreg & Hdraws).
  exists shuffled, w'. split; [exact Hrun |]. split; [exact Hperm |].
  split; [now rewrite Hperm |]. split; [exact Hdraws |].
  split; [exact Hdb |]. split; [exact Hreg |].
  intros Hshort.
  replace (length array - 1)%nat with 0%nat in Hrun by lia.
  simpl in Hrun. unfold ret in Hrun. congruence.
Qed.
End ShuffleFacts.

Lemma shuffle_returns_a_permutation_witness :
  exists shuffled w',
    shuffleArray exampleEnv [1; 2; 3; 4; 5] exampleWorld = (Ok shuffled, w') /\
    shuffled ≡ₚ [1; 2; 3; 4; 5] /\
    draws w' = 4%nat.
Proof.
  destruct (shuffle_returns_a_permutation exampleEnv [1; 2; 3; 4; 5] exampleWorld
              exampleEnv_random_in_unit)
    as (shuffled & w' & Hrun & Hperm & _ & Hdraws & _).
  exists shuffled, w'. split; [exact Hrun |]. split; [exact Hperm | exact Hdraws].
Defined.

Section BatchLikes.

Lemma emptyLikers_lookup (postIds : list Z) (m : gmap Z (gset Z)) id :
  foldl (fun m id => <[id := ∅]> m) m postIds !! id =
    if decide (id ∈ postIds) then Some ∅ else m !! id.
Proof.
  revert m. induction postIds as [| p postIds IH]; intros m.
  - destruct (decide (id ∈ [])) as [Hin | _]; [now apply elem_of_nil in Hin | reflexivity].
  - change (foldl (fun m id => <[id := ∅]> m) m (p :: postIds))
      with (foldl (fun m id => <[id := ∅]> m) (<[p := ∅]> m) postIds).
    rewrite IH. destruct (decide (id ∈ postIds)) as [Hin | Hout].
    + rewrite decide_True by (apply elem_of_cons; now right). reflexivity.
    + destruct (decide (id = p)) as [-> | Hne].
      * rewrite decide_True by (apply elem_of_cons; now left). apply lookup_insert_eq.
      * rewrite decide_False by (rewrite elem_of_cons; intros [? | ?]; contradiction).
        now apply lookup_insert_ne.
Qed.

Lemma addLikers_spec (existingLikes : list LikeRecord) (m : gmap Z (gset Z)) :
  (forall l, l ∈ existingLikes -> is_Some (m !! like_postId l)) ->
  exists m',
    addLikers m existingLikes = Ok m' /\
    forall id,
      m' !! id =
        (fun likers : gset Z =>
           likers ∪ list_to_set
                      (like_userId <$> filter (fun l => like_postId l = id) existingLikes))
          <$> m !! id.
Proof.
  revert m. induction existingLikes as [| like rest IH]; intros m Hkeys; simpl.
  - exists m. split; [reflexivity |]. intros id.
    destruct (m !! id) as [likers |]; simpl; [| reflexivity].
    now rewrite (right_id_L ∅ (∪)).
  - destruct (Hkeys like) as [likers Hlikers]; [apply elem_of_cons; now left |].
    unfold addLiker. rewrite Hlikers.
    destruct (IH (<[like_postId like := likers ∪ {[ like_userId like ]}]> m))
      as (m' & Hrun & Hlookup).
    { intros l Hl. destruct (decide (like_postId l = like_postId like)) as [-> | Hne].
      - rewrite lookup_insert_eq. eauto.
      - rewrite lookup_insert_ne by congruence. apply Hkeys. apply elem_of_cons. now right. }
    exists m'. split; [exact Hrun |]. intros id. rewrite Hlookup, filter_cons.
    destruct (decide (like_postId like = id)) as [<- | Hne].
    + rewrite lookup_insert_eq, Hlikers, fmap_cons, list_to_set_cons. simpl.
      now rewrite (assoc_L (∪)).
    + now rewrite lookup_insert_ne by exact Hne.
Qed.

Lemma filter_likes_of_post (postIds : list Z) (id : Z) (ls : list LikeRecord) :
  id ∈ postIds ->
  filter (fun l => like_postId l = id) (filter (fun l => like_postId l ∈ postIds) ls)
    = filter (fun l => like_postId l = id) ls.
Proof.
  intros Hin. induction ls as [| l ls IH]; [reflexivity |].
  rewrite (filter_cons (fun l => like_postId l ∈ postIds)).
  rewrite (filter_cons (fun l => like_postId l = id) l ls).
  destruct (decide (like_postId l ∈ postIds)) as [Hl | Hl].
  - rewrite filter_cons. destruct (decide (like_postId l = id)); now rewrite IH.
  - rewrite IH. destruct (decide (like_postId l = id)) as [E | E]; [| reflexivity].
    exfalso. apply Hl. now rewrite E.
Qed.

End BatchLikes.

(** * More of the analytics service *)

Section UpdateEdges.
Variable env : Env.

(** X15.  The completion check comes first: for a complete simulation
    the update returns the completion result without reading the post,
    drawing a random number or writing anything, whatever post is handed
    over and whatever the database holds.  For a running simulation and no
    preloaded post, a missing post makes the update throw "post not found",
    and a rejected read is thrown on; in both cases nothing has changed. *)
Theorem update_of_a_complete_or_missing_target mediaId simulation preloadedPost w :
  (isSimulationComplete env simulation = true ->
   updateSingleSimulation env mediaId simulation preloadedPost w =
     (Ok (ResultComplete mediaId), w)) /\
  (isSimulationComplete env simulation = false ->
   db_rejects env (OpFindPost mediaId) = false ->
   db_posts w !! mediaId = None ->
   updateSingleSimulation env mediaId simulation None w = (Throw (PostNotFound mediaId), w)) /\
  (isSimulationComplete env simulation = false ->
   db_rejects env (OpFindPost mediaId) = true ->
   updateSingleSimulation env mediaId simulation None w =
     (Throw (DatabaseError (OpFindPost mediaId)), w)).
Proof.
  unfold updateSingleSimulation. cbv zeta. split; [| split].
  - intros ->. reflexivity.
  - intros -> Hread Hmissing. unfold bind at 1, findByPk. rewrite Hread, bind_get_db.
    unfold db_posts in Hmissing. rewrite Hmissing. reflexivity.
  - intros -> Hread. unfold bind at 1, findByPk. rewrite Hread. reflexivity.
Qed.

End UpdateEdges.

Lemma update_of_a_complete_or_missing_target_witness :
  updateSingleSimulation (exampleEnvAt (73 * (1000 * 60 * 60))) 1 exampleSimulation None
    exampleWorld = (Ok (ResultComplete 1), exampleWorld).
Proof.
  apply (update_of_a_complete_or_missing_target (exampleEnvAt (73 * (1000 * 60 * 60)))
           1 exampleSimulation None exampleWorld).
  reflexivity.
Defined.


(** * What the batch pass does to the database *)

Section BatchPassFrame.
Variable env : Env.
Variable targets : list Z.

Hint Resolve get_db_same get_registry_same set_db_same_registry
  set_registry_same_db : frames.

Lemma appended_refl {A} (P : A -> Prop) l : appended P l l.
Proof. exists []. split; [now rewrite app_nil_r | constructor]. Qed.

Lemma appended_trans {A} (P : A -> Prop) l1 l2 l3 :
  appended P l1 l2 -> appended P l2 l3 -> appended P l1 l3.
Proof.
  intros (a & -> & Ha) (b & -> & Hb). exists (a ++ b).
  split; [now rewrite app_assoc | now apply Forall_app].
Qed.

Lemma appended_one {A} (P : A -> Prop) l added : Forall P added -> appended P l (l ++ added).
Proof. intros Hadded. now exists added. Qed.

Lemma engineStep_same_db w w' : db w' = db w -> engineStep targets w w'.
Proof.
  intros Hdb. unfold engineStep. rewrite Hdb.
  split; [reflexivity |]. do 3 (split; [apply appended_refl |]).
  split; [reflexivity |]. split; [reflexivity | tauto].
Qed.

#[local] Instance engineStep_refl : Reflexive (engineStep targets).
Proof. intros w. now apply engineStep_same_db. Qed.

#[local] Instance engineStep_trans : Transitive (engineStep targets).
Proof.
  intros w1 w2 w3 (Hu12 & Hv12 & Hl12 & Ha12 & Hp12 & Hd12 & Hn12)
    (Hu23 & Hv23 & Hl23 & Ha23 & Hp23 & Hd23 & Hn23).
  unfold engineStep. rewrite Hu12 in Hn23, Hl23.
  split; [congruence |].
  split; [eapply appended_trans; eassumption |].
  split; [eapply appended_trans; eassumption |].
  split; [eapply appended_trans; eassumption |].
  split; [intros id Hid; rewrite Hp23, Hp12 by exact Hid; reflexivity |].
  split; [intros id; rewrite Hd23; apply Hd12 | auto].
Qed.

Lemma same_db_step {A} (m : M A) :
  preserves (same db) m -> preserves (engineStep targets) m.
Proof. intros Hm w. apply engineStep_same_db, Hm. Qed.

Lemma preserves_bind_ensures {A B} (P : A -> Prop) (m : M A) (k : A -> M B) :
  preserves (engineStep targets) m -> ensures P m ->
  (forall a, P a -> preserves (engineStep targets) (k a)) ->
  preserves (engineStep targets) (bind m k).
Proof.
  intros Hm HP Hk w. unfold bind. specialize (Hm w). specialize (HP w).
  destruct (m w) as [[a | e |] w1]; simpl in *; try exact Hm.
  etransitivity; [exact Hm | apply Hk, (HP a w1 eq_refl)].
Qed.

Lemma ensures_mapM {A B} (P : B -> Prop) (f : A -> M B) (l : list A) :
  (forall a, ensures P (f a)) -> ensures (Forall P) (mapM f l).
Proof.
  intros Hf. induction l as [| a l IH]; intros w bs w'; simpl.
  - unfold ret. intros [= <- _]. constructor.
  - unfold bind at 1. specialize (Hf a w).
    destruct (f a w) as [[b | e |] w1]; try discriminate.
    unfold bind at 1. specialize (IH w1).
    destruct (mapM f l w1) as [[bs' | e |] w2]; try discriminate.
    unfold ret. intros [= <- _]. constructor; eauto.
Qed.

Lemma buildViewRecords_for_post postId count :
  ensures (Forall (fun r => view_postId r = postId)) (buildViewRecords env postId count).
Proof.
  intros w records w'. unfold buildViewRecords. unfold bind at 1.
  destruct (selectViewers env count w) as [[userIds | e |] w1]; try discriminate.
  apply ensures_mapM. clear. intros i w record w'.
  unfold buildViewRecord, bind.
  destruct (generateRandomIP env w) as [[ip | e |] w1]; try discriminate.
  destruct (generateRandomUserAgent env w1) as [[ua | e |] w2]; try discriminate.
  destruct (Math_random env w2) as [[r | e |] w3]; try discriminate.
  unfold ret. intros [= <- _]. reflexivity.
Qed.

Lemma createAnalyticsEntry_step postId v l c s e md :
  postId ∈ targets ->
  preserves (engineStep targets) (createAnalyticsEntry env postId v l c s e md).
Proof.
  intros Hid w. unfold createAnalyticsEntry. rewrite bind_get_db. unfold set_db, engineStep.
  cbn. split; [reflexivity |]. do 2 (split; [apply appended_refl |]).
  split; [apply appended_one; repeat constructor; exact Hid |].
  split; [reflexivity |]. split; [reflexivity | tauto].
Qed.

Lemma bulkCreateViews_step batch :
  Forall (fun r => view_postId r ∈ targets) batch ->
  preserves (engineStep targets) (bulkCreateViews batch).
Proof.
  intros Hbatch w. unfold bulkCreateViews. rewrite bind_get_db. unfold set_db, engineStep.
  cbn. split; [reflexivity |]. split; [now apply appended_one |].
  do 2 (split; [apply appended_refl |]).
  split; [reflexivity |]. split; [reflexivity | tauto].
Qed.

Lemma insertViewBatches_step fuel batchSize i records :
  Forall (fun r => view_postId r ∈ targets) records ->
  preserves (engineStep targets) (insertViewBatches fuel batchSize i records).
Proof.
  intros Hrecords. revert i. induction fuel as [| fuel IH]; intros i; simpl.
  - destruct (i <? Z.of_nat (length records)); [apply preserves_hang | apply preserves_ret];
      typeclasses eauto.
  - destruct (i <? Z.of_nat (length records)); [| apply preserves_ret; typeclasses eauto].
    apply preserves_bind; [typeclasses eauto | | intros _; apply IH].
    apply bulkCreateViews_step.
    rewrite Forall_forall in Hrecords. apply Forall_forall. intros r Hr.
    apply Hrecords. eapply elem_of_sublist; [exact Hr | apply Array_slice_sublist].
Qed.

Lemma generateSyntheticViews_step postId count :
  postId ∈ targets ->
  preserves (engineStep targets) (generateSyntheticViews env postId count).
Proof.
  intros Hid. unfold generateSyntheticViews.
  apply (preserves_bind_ensures (Forall (fun r => view_postId r = postId))).
  - apply same_db_step, buildViewRecords_same_db.
  - apply buildViewRecords_for_post.
  - intros records Hrecords. cbv zeta. apply insertViewBatches_step.
    eapply Forall_impl; [exact Hrecords |]. cbv beta. now intros r ->.
Qed.

(** What like generation does, whatever the user table holds. *)
Lemma generateSyntheticLikes_appends postId count (excluded : gset Z) w :
  exists records w',
    generateSyntheticLikes env postId count excluded w =
      (Ok (Z.of_nat (length records)), w') /\
    likes (db w') = likes (db w) ++ records /\
    posts (db w') = posts (db w) /\ users (db w') = users (db w) /\
    views (db w') = views (db w) /\
    analyticsEntries (db w') = analyticsEntries (db w) /\
    registry w' = registry w /\
    Forall (fun record =>
              like_postId record = postId /\ (like_userId record ∉ excluded) /\
              botLike (users (db w)) record) records /\
    (NoDup (user_id <$> users (db w)) -> NoDup (like_userId <$> records)) /\
    (0 <= count ->
     Z.of_nat (length records) =
       Z.min count
         (Z.of_nat (length (filter (fun u => isBot u = true /\ user_id u ∉ excluded)
                              (users (db w)))))).
Proof.
  set (eligible := filter (fun u => isBot u = true /\ user_id u ∉ excluded) (users (db w))).
  destruct (shuffleArray_spec env eligible w) as (shuffled & w1 & Hshuffle & Hperm & Hdb1 & Hreg1).
  set (chosen := Array_slice shuffled 0 count).
  set (records := (fun user => {| like_userId := user_id user;
                                  like_postId := postId;
                                  like_createdAt := Date_now env |}) <$> chosen).
  assert (Hrun : buildLikeRecords env postId count excluded w = (Ok records, w1)).
  { unfold buildLikeRecords. rewrite bind_get_db. fold eligible.
    unfold bind at 1. now rewrite Hshuffle. }
  assert (Hchosen : forall u, u ∈ chosen -> u ∈ eligible).
  { intros u Hu. rewrite <- Hperm.
    eapply elem_of_sublist; [exact Hu | apply Array_slice_sublist]. }
  assert (Hids : like_userId <$> records = user_id <$> chosen).
  { unfold records. rewrite <- list_fmap_compose. reflexivity. }
  assert (Hfacts :
    Forall (fun record =>
              like_postId record = postId /\ (like_userId record ∉ excluded) /\
              botLike (users (db w)) record) records /\
    (NoDup (user_id <$> users (db w)) -> NoDup (like_userId <$> records)) /\
    (0 <= count ->
     Z.of_nat (length records) = Z.min count (Z.of_nat (length eligible)))).
  { split; [| split].
    - apply Forall_forall. intros record Hrecord. unfold records in Hrecord.
      apply list_elem_of_fmap in Hrecord as (u & -> & Hu). simpl.
      apply Hchosen in Hu. unfold eligible in Hu.
      apply list_elem_of_filter in Hu as [[Hb Hex] Hin].
      split; [reflexivity |]. split; [exact Hex |]. exists u. auto.
    - intros Hkey. rewrite Hids.
      eapply sublist_NoDup; [| apply fmap_sublist, Array_slice_sublist].
      rewrite Hperm.
      eapply sublist_NoDup; [exact Hkey | apply fmap_sublist, sublist_filter].
    - intros Hcount. unfold records, chosen.
      rewrite length_fmap, Array_slice_prefix, length_take by exact Hcount.
      rewrite (Permutation_length Hperm). lia. }
  unfold generateSyntheticLikes. unfold bind at 1. rewrite Hrun.
  destruct (Z.ltb_spec 0 (Z.of_nat (length records))) as [Hsome | Hnone].
  - eexists records, _. split; [reflexivity |]. cbn.
    rewrite Hdb1. repeat (split; [reflexivity |]). split; [exact Hreg1 | exact Hfacts].
  - assert (Hnil : records = []) by (destruct records; [reflexivity | simpl in Hnone; lia]).
    exists records, w1. split; [reflexivity |].
    rewrite Hdb1. split; [now rewrite Hnil, app_nil_r |].
    repeat (split; [reflexivity |]). split; [exact Hreg1 | exact Hfacts].
Qed.

(** The new likes of a post: the likers are read, then excluded. *)
Lemma new_likes_step postId newLikes :
  postId ∈ targets ->
  preserves (engineStep targets)
    (let* d' := get_db in
     run generateSyntheticLikes env postId newLikes (likersOf d' postId) then ret tt).
Proof.
  intros Hid w. rewrite bind_get_db.
  destruct (generateSyntheticLikes_appends postId newLikes (likersOf (db w) postId) w)
    as (records & w' & Hrun & Hlikes & Hposts & Husers & Hviews & Hentries & _ &
        Hrecords & Hdistinct & _).
  unfold bind at 1. rewrite Hrun. unfold ret. cbn [snd].
  unfold engineStep. rewrite Husers, Hviews, Hentries, Hposts, Hlikes.
  split; [reflexivity |]. split; [apply appended_refl |].
  split.
  { apply appended_one. eapply Forall_impl; [exact Hrecords |]. cbv beta.
    intros l (-> & _ & Hbot). now split. }
  split; [apply appended_refl |].
  split; [reflexivity |]. split; [reflexivity |].
  intros Hkey Hpairs. unfold likePairs. rewrite Hlikes, fmap_app.
  apply NoDup_app. split; [exact Hpairs |]. split.
  - intros pair Hold Hnew.
    apply list_elem_of_fmap in Hold as (old & -> & Hold).
    apply list_elem_of_fmap in Hnew as (new & Heq & Hnew).
    injection Heq as Huser Hpost.
    rewrite Forall_forall in Hrecords. destruct (Hrecords new Hnew) as (Hfor & Hfresh & _).
    apply Hfresh. unfold likersOf. apply elem_of_list_to_set.
    apply list_elem_of_fmap. exists old. split; [now symmetry |].
    apply list_elem_of_filter. split; [congruence | exact Hold].
  - apply (NoDup_fmap_1 fst). rewrite <- list_fmap_compose. now apply Hdistinct.
Qed.

Lemma metricsUpdateTransaction_step post fv fl simulation elapsedHours :
  post_id post ∈ targets ->
  preserves (engineStep targets)
    (metricsUpdateTransaction env post fv fl simulation elapsedHours).
Proof.
  intros Hid w. unfold metricsUpdateTransaction. rewrite bind_get_db.
  destruct (posts (db w) !! post_id post) as [locked |] eqn:Hlocked; [| reflexivity].
  rewrite bind_set_db.
  match goal with
  | |- engineStep _ _ (?rest ?w1).2 =>
      assert (Hrest : preserves (engineStep targets) rest);
        [| transitivity w1; [| apply Hrest]]
  end.
  - apply preserves_bind; [typeclasses eauto | now apply createAnalyticsEntry_step | intros _].
    apply preserves_bind; [typeclasses eauto | | intros _].
    { destruct (0 <? _); [now apply generateSyntheticViews_step | now apply preserves_ret]. }
    apply preserves_bind; [typeclasses eauto | | intros _].
    { destruct (0 <? _); [now apply new_likes_step | now apply preserves_ret]. }
    destruct (db_rejects env _); [now apply preserves_throw | now apply preserves_ret].
  - unfold engineStep. cbn.
    split; [reflexivity |]. do 3 (split; [apply appended_refl |]).
    split; [| split; [| tauto]].
    + intros id Hout. apply lookup_insert_ne. congruence.
    + intros id. destruct (decide (id = post_id post)) as [-> | Hne].
      * rewrite lookup_insert_eq, Hlocked. split; eauto.
      * now rewrite lookup_insert_ne by congruence.
Qed.

Lemma applyMetricsUpdate_step post fv fl simulation elapsedHours :
  post_id post ∈ targets ->
  preserves (engineStep targets) (applyMetricsUpdate env post fv fl simulation elapsedHours).
Proof.
  intros Hid w. unfold applyMetricsUpdate.
  pose proof (metricsUpdateTransaction_step post fv fl simulation elapsedHours Hid w) as Htx.
  destruct (metricsUpdateTransaction env post fv fl simulation elapsedHours w)
    as [[[] | e |] w1]; [exact Htx | | exact Htx].
  now apply engineStep_same_db.
Qed.

Lemma findByPk_id id : ensures (fun found => forall p, found = Some p -> post_id p = id)
                         (findByPk env id).
Proof.
  intros w found w'. unfold findByPk.
  destruct (db_rejects env (OpFindPost id)); [discriminate |].
  rewrite bind_get_db. unfold ret. intros [= <- _] p Hp.
  destruct (posts (db w) !! id); simpl in Hp; [| discriminate].
  now injection Hp as <-.
Qed.

Lemma updateFound_step mediaId simulation post :
  post_id post ∈ targets ->
  preserves (engineStep targets)
    (let elapsedHours := calculateElapsedTime env (startTime simulation) in
     let* targetMetrics := calculateTargetMetrics env simulation elapsedHours in
     let adjusted :=
       adjustMetrics targetMetrics.1 targetMetrics.2
         (viewCount (post_row post)) (likeCount (post_row post)) in
     run (if hasChanges adjusted then
            applyMetricsUpdate env post (finalViews adjusted) (finalLikes adjusted)
              simulation elapsedHours
          else ret tt) then
     let progress := calculateProgress elapsedHours (growthDurationHours simulation) in
     ret (ResultUpdated mediaId (finalViews adjusted) (finalLikes adjusted) progress
            (if hasChanges adjusted
             then finalViews adjusted - viewCount (post_row post) else 0)
            (if hasChanges adjusted
             then finalLikes adjusted - likeCount (post_row post) else 0))).
Proof.
  intros Hid. cbv zeta.
  apply preserves_bind; [typeclasses eauto | | intros targetMetrics].
  { apply same_db_step, calculateTargetMetrics_same_db. }
  apply preserves_bind; [typeclasses eauto | | intros _; now apply preserves_ret].
  destruct (hasChanges _); [now apply applyMetricsUpdate_step | now apply preserves_ret].
Qed.

Lemma updateSingleSimulation_step mediaId simulation preloadedPost :
  mediaId ∈ targets ->
  (forall post, preloadedPost = Some post -> post_id post ∈ targets) ->
  preserves (engineStep targets)
    (updateSingleSimulation env mediaId simulation preloadedPost).
Proof.
  intros Hid Hpre. unfold updateSingleSimulation.
  destruct (isSimulationComplete env simulation); [now apply preserves_ret |].
  apply (preserves_bind_ensures (fun found => forall p, found = Some p -> post_id p ∈ targets)).
  - destruct preloadedPost; [now apply preserves_ret |].
    apply same_db_step, findByPk_same.
  - destruct preloadedPost as [post |].
    + intros w found w'. unfold ret. intros [= <- _]. exact Hpre.
    + intros w found w' Hrun p Hp.
      now rewrite (findByPk_id mediaId w found w' Hrun p Hp).
  - intros [post |] Hpost; [| now apply preserves_throw].
    apply updateFound_step. now apply Hpost.
Qed.

Lemma Map_get_set_id (acc : list (Z * Post)) p :
  (forall k q, Map_get k acc = Some q -> post_id q = k) ->
  forall k q, Map_get k (Map_set (post_id p) p acc) = Some q -> post_id q = k.
Proof.
  intros Hacc k q. destruct (decide (k = post_id p)) as [-> | Hne].
  - rewrite Map_get_set. now intros [= <-].
  - rewrite Map_get_set_ne by exact Hne. apply Hacc.
Qed.

(** The map of the batch-read posts has each post under its own id. *)
Lemma postsById_ids ps k q : Map_get k (postsById ps) = Some q -> post_id q = k.
Proof.
  unfold postsById.
  assert (Hgen : forall acc,
            (forall k q, Map_get k acc = Some q -> post_id q = k) ->
            forall k q,
              Map_get k (foldl (fun m p => Map_set (post_id p) p m) acc ps) = Some q ->
              post_id q = k).
  { induction ps as [| p ps IH]; intros acc Hacc; simpl; [exact Hacc |].
    apply IH. now apply Map_get_set_id. }
  apply Hgen. intros k' q'. discriminate.
Qed.

Lemma updateOne_step postsMap results mediaId :
  (forall k q, Map_get k postsMap = Some q -> post_id q = k) ->
  mediaId ∈ targets ->
  preserves (engineStep targets) (updateOne env postsMap results mediaId).
Proof.
  intros Hmap Hid. unfold updateOne.
  apply preserves_try_catch; [typeclasses eauto | | intros e; now apply preserves_ret].
  apply preserves_bind; [typeclasses eauto | | intros simulation].
  { apply same_db_step. unfold getSimulation. frames. }
  destruct (Map_get mediaId postsMap) as [post |] eqn:Hpost; [| now apply preserves_throw].
  destruct simulation as [simulation |]; [| now apply preserves_throw].
  apply preserves_bind; [typeclasses eauto | | intros result].
  { apply updateSingleSimulation_step; [exact Hid |].
    intros p [= <-]. now rewrite (Hmap mediaId post Hpost). }
  apply preserves_bind; [typeclasses eauto | | intros _; now apply preserves_ret].
  destruct (result_isComplete result); [| now apply preserves_ret].
  apply same_db_step. unfold stopSimulation. frames.
Qed.

Lemma updateEach_step postsMap results mediaIds :
  (forall k q, Map_get k postsMap = Some q -> post_id q = k) ->
  (forall id, id ∈ mediaIds -> id ∈ targets) ->
  preserves (engineStep targets) (updateEach env postsMap results mediaIds).
Proof.
  intros Hmap. revert results.
  induction mediaIds as [| mediaId rest IH]; intros results Hids; simpl.
  - now apply preserves_ret.
  - apply preserves_bind; [typeclasses eauto | | intros results'].
    + apply updateOne_step; [exact Hmap |]. apply Hids, elem_of_cons. now left.
    + apply IH. intros id Hin. apply Hids, elem_of_cons. now right.
Qed.

Lemma updateSimulations_step w :
  (forall id, id ∈ Map_keys (registry w) -> id ∈ targets) ->
  engineStep targets w (updateSimulations env w).2.
Proof.
  intros Hkeys. unfold updateSimulations, getActiveSimulationIds. cbv zeta.
  rewrite bind_ret_get_registry.
  destruct (Z.of_nat (length (Map_keys (registry w))) =? 0); [reflexivity |].
  revert Hkeys. generalize (Map_keys (registry w)). intros mediaIds Hkeys.
  revert w. change (preserves (engineStep targets)
                      (let* found := findAllPosts env mediaIds in
                       updateEach env (postsById found) [] mediaIds)).
  apply preserves_bind; [typeclasses eauto | | intros found].
  - apply same_db_step, findAllPosts_same.
  - apply updateEach_step; [apply postsById_ids | exact Hkeys].
Qed.
End BatchPassFrame.

(** X17.  Whatever its outcome, a batch pass leaves the user table as it
    was, deletes or changes no view record, like record or analytics
    entry, and appends only records of the targets that were registered
    when it began, the likes by bot users; it writes no row of another
    post, and creates or deletes no post row. *)
Theorem batch_pass_touches_only_its_targets (env : Env) (w : World) :
  let targets := Map_keys (registry w) in
  let w' := (updateSimulations env w).2 in
  users (db w') = users (db w) /\
  (exists newViews,
     views (db w') = views (db w) ++ newViews /\
     Forall (fun r => view_postId r ∈ targets) newViews) /\
  (exists newLikes,
     likes (db w') = likes (db w) ++ newLikes /\
     Forall (fun l => like_postId l ∈ targets /\
                      exists u, u ∈ users (db w) /\ isBot u = true /\
                                user_id u = like_userId l) newLikes) /\
  (exists newEntries,
     analyticsEntries (db w') = analyticsEntries (db w) ++ newEntries /\
     Forall (fun e => ae_postId e ∈ targets) newEntries) /\
  (forall id, id ∉ targets -> posts (db w') !! id = posts (db w) !! id) /\
  (forall id, is_Some (posts (db w') !! id) <-> is_Some (posts (db w) !! id)).
Proof.
  cbv zeta.
  destruct (updateSimulations_step env (Map_keys (registry w)) w (fun id Hid => Hid))
    as (Husers & Hviews & Hlikes & Hentries & Hother & Hrows & _).
  repeat (split; [assumption |]). assumption.
Qed.

(** X18.  When user ids are a key of the user table and no user likes a
    post twice, the same holds after a batch pass, whatever its outcome:
    the likers of a post are read inside the transaction and excluded, and
    the new likers are distinct. *)
Theorem batch_pass_keeps_likes_unique (env : Env) (w : World) :
  NoDup (user_id <$> users (db w)) ->
  NoDup (likePairs (db w)) ->
  NoDup (likePairs (db (updateSimulations env w).2)).
Proof.
  intros Hkey Hpairs.
  destruct (updateSimulations_step env (Map_keys (registry w)) w (fun id Hid => Hid))
    as (_ & _ & _ & _ & _ & _ & Hunique).
  now apply Hunique.
Qed.

Lemma batch_pass_keeps_likes_unique_witness :
  NoDup (likePairs (db (updateSimulations exampleEnv exampleWorld).2)) /\
  length (likePairs (db (updateSimulations exampleEnv exampleWorld).2)) = 2%nat.
Proof.
  split; [| vm_compute; reflexivity].
  apply (batch_pass_keeps_likes_unique exampleEnv exampleWorld).
  - apply (bool_decide_unpack _). vm_compute. exact I.
  - apply (bool_decide_unpack _). vm_compute. exact I.
Defined.

(** * The transaction of [applyMetricsUpdate] *)

Section TransactionFacts.
Variable env : Env.

Lemma buildViewRecord_runs postId userIds i w :
  exists record w',
    buildViewRecord env postId userIds i w = (Ok record, w') /\
    view_postId record = postId /\ db w' = db w /\ registry w' = registry w.
Proof.
  unfold buildViewRecord, generateRandomIP, generateRandomUserAgent, bind, Math_random, ret.
  cbn -[Z.rem Z.of_nat userAgents Math_floor Qmult].
  eexists. eexists. split; [reflexivity |]. repeat split; reflexivity.
Qed.

(** What view generation does, for every count and bot pool. *)
Lemma generateSyntheticViews_appends postId count w :
  0 < bulkInsertBatchSize (appConfig env) ->
  exists records w',
    generateSyntheticViews env postId count w = (Ok tt, w') /\
    views (db w') = views (db w) ++ records /\
    Z.of_nat (length records) = Z.max 0 count /\
    Forall (fun r => view_postId r = postId) records /\
    posts (db w') = posts (db w) /\ users (db w') = users (db w) /\
    likes (db w') = likes (db w) /\
    analyticsEntries (db w') = analyticsEntries (db w) /\
    registry w' = registry w.
Proof.
  intros Hbatch. unfold generateSyntheticViews, buildViewRecords.
  assert (Hsel : exists userIds w1,
             selectViewers env count w = (Ok userIds, w1) /\
             db w1 = db w /\ registry w1 = registry w).
  { unfold selectViewers. rewrite bind_get_db.
    destruct (shuffleArray_spec env (filter (fun u => isBot u = true) (users (db w))) w)
      as (shuffled & w1 & Hrun & _ & Hdb & Hreg).
    unfold bind at 1. rewrite Hrun. unfold ret. eauto. }
  destruct Hsel as (userIds & w1 & Hsel & Hdb1 & Hreg1).
  destruct (mapM_spec (buildViewRecord env postId userIds)
              (fun _ record => view_postId record = postId) (seqZ 0 count) w1)
    as (records & w2 & Hbuild & Hrecords & Hdb2 & Hreg2).
  { intros i w0. apply buildViewRecord_runs. }
  destruct (insertViewBatches_spec (S (length records)) (bulkInsertBatchSize (appConfig env))
              0 records w2)
    as (w3 & Hins & Hviews & Hposts & Husers & Hlikes & Hentries & Hreg3); [lia | lia | lia |].
  exists records, w3.
  split. { unfold bind at 1. unfold bind at 1. rewrite Hsel. rewrite Hbuild. exact Hins. }
  split. { rewrite Hviews, drop_0. congruence. }
  split. { apply Forall2_length in Hrecords. rewrite length_seqZ in Hrecords. lia. }
  split. { clear -Hrecords. induction Hrecords; constructor; assumption. }
  repeat split; congruence.
Qed.

(** The transaction up to the commit, on a row that exists. *)
Lemma metricsUpdateTransaction_run post fv fl simulation elapsedHours w locked :
  0 < bulkInsertBatchSize (appConfig env) ->
  posts (db w) !! post_id post = Some locked ->
  let id := post_id post in
  let writtenViews := Z.max fv (viewCount locked) in
  let writtenLikes := Z.min (Z.max fl (likeCount locked)) writtenViews in
  exists newViews newLikes w',
    metricsUpdateTransaction env post fv fl simulation elapsedHours w =
      (if db_rejects env (OpTransaction id)
       then Throw (DatabaseError (OpTransaction id)) else Ok tt, w') /\
    registry w' = registry w /\
    posts (db w') =
      <[id := {| viewCount := writtenViews; likeCount := writtenLikes;
                 commentCount := commentCount locked;
                 shareCount := shareCount locked |}]> (posts (db w)) /\
    users (db w') = users (db w) /\
    views (db w') = views (db w) ++ newViews /\
    Z.of_nat (length newViews) = writtenViews - viewCount locked /\
    Forall (fun r => view_postId r = id) newViews /\
    likes (db w') = likes (db w) ++ newLikes /\
    Z.of_nat (length newLikes) =
      Z.min (Z.max 0 (writtenLikes - likeCount locked))
        (Z.of_nat (length (filter (fun u => isBot u = true /\
                                            user_id u ∉ likersOf (db w) id)
                             (users (db w))))) /\
    Forall (fun l => like_postId l = id /\ (like_userId l ∉ likersOf (db w) id) /\
                     botLike (users (db w)) l) newLikes /\
    (NoDup (user_id <$> users (db w)) -> NoDup (like_userId <$> newLikes)) /\
    analyticsEntries (db w') =
      analyticsEntries (db w) ++
        [{| ae_postId := id;
            ae_timestamp := Date_now env;
            ae_viewCount := writtenViews;
            ae_likeCount := writtenLikes;
            ae_commentCount := commentCount locked;
            ae_shareCount := shareCount locked;
            ae_engagementRate :=
              calculateEngagement env writtenViews writtenLikes
                (commentCount locked) (shareCount locked);
            ae_metadata :=
              {| md_source := "viral_simulation";
                 md_growthCurve := growthCurve simulation;
                 md_elapsedHours := elapsedHours;
                 md_progress :=
                   calculateProgress elapsedHours (growthDurationHours simulation) |} |}].
Proof.
  intros Hbatch Hlocked. cbv zeta.
  unfold metricsUpdateTransaction. rewrite bind_get_db, Hlocked, bind_set_db.
  set (writtenViews := Z.max fv (viewCount locked)).
  set (writtenLikes := Z.min (Z.max fl (likeCount locked)) writtenViews).
  unfold bind at 1. unfold createAnalyticsEntry at 1. rewrite bind_get_db.
  unfold set_db at 1. cbn [db registry draws posts users views likes analyticsEntries].
  match goal with
  | |- context [bind _ _ ?w1] => set (w1' := w1)
  end.
  (* the view records *)
  assert (Hviews : exists newViews w2,
             (if 0 <? writtenViews - viewCount locked
              then generateSyntheticViews env (post_id post) (writtenViews - viewCount locked)
              else ret tt) w1' = (Ok tt, w2) /\
             views (db w2) = views (db w) ++ newViews /\
             Z.of_nat (length newViews) = writtenViews - viewCount locked /\
             Forall (fun r => view_postId r = post_id post) newViews /\
             posts (db w2) = posts (db w1') /\ users (db w2) = users (db w) /\
             likes (db w2) = likes (db w) /\
             analyticsEntries (db w2) = analyticsEntries (db w1') /\
             registry w2 = registry w).
  { destruct (Z.ltb_spec 0 (writtenViews - viewCount locked)) as [Hsome | Hnone].
    - destruct (generateSyntheticViews_appends (post_id post)
                  (writtenViews - viewCount locked) w1' Hbatch)
        as (newViews & w2 & Hrun & Hv & Hlen & Hfor & Hp & Hu & Hl & He & Hr).
      exists newViews, w2. split; [exact Hrun |].
      split; [exact Hv |]. split; [lia |]. split; [exact Hfor |].
      split; [exact Hp |]. split; [exact Hu |]. split; [exact Hl |].
      split; [exact He | exact Hr].
    - exists [], w1'. split; [reflexivity |].
      split; [cbn; now rewrite app_nil_r |]. split; [cbn; unfold writtenViews in *; lia |].
      split; [constructor |]. repeat split; reflexivity. }
  destruct Hviews as (newViews & w2 & Hrun2 & Hv2 & Hlen2 & Hfor2 & Hp2 & Hu2 & Hl2 & He2 & Hr2).
  unfold bind at 1. rewrite Hrun2.
  (* the like records *)
  assert (Hlikers : likersOf (db w2) (post_id post) = likersOf (db w) (post_id post))
    by (unfold likersOf; now rewrite Hl2).
  assert (Hlikes : exists newLikes w3,
             (if 0 <? writtenLikes - likeCount locked
              then
                let* d' := get_db in
                run generateSyntheticLikes env (post_id post)
                      (writtenLikes - likeCount locked) (likersOf d' (post_id post)) then
                ret tt
              else ret tt) w2 = (Ok tt, w3) /\
             likes (db w3) = likes (db w2) ++ newLikes /\
             Z.of_nat (length newLikes) =
               Z.min (Z.max 0 (writtenLikes - likeCount locked))
                 (Z.of_nat (length (filter (fun u => isBot u = true /\
                                                     user_id u ∉ likersOf (db w) (post_id post))
                                      (users (db w))))) /\
             Forall (fun l => like_postId l = post_id post /\
                              (like_userId l ∉ likersOf (db w) (post_id post)) /\
                              botLike (users (db w)) l) newLikes /\
             (NoDup (user_id <$> users (db w)) -> NoDup (like_userId <$> newLikes)) /\
             posts (db w3) = posts (db w2) /\ users (db w3) = users (db w2) /\
             views (db w3) = views (db w2) /\
             analyticsEntries (db w3) = analyticsEntries (db w2) /\
             registry w3 = registry w2).
  { destruct (Z.ltb_spec 0 (writtenLikes - likeCount locked)) as [Hsome | Hnone].
    - rewrite bind_get_db.
      destruct (generateSyntheticLikes_appends env (post_id post)
                  (writtenLikes - likeCount locked) (likersOf (db w2) (post_id post)) w2)
        as (newLikes & w3 & Hrun & Hl & Hp & Hu & Hv & He & Hr & Hfor & Hdistinct & Hlen).
      rewrite Hlikers, Hu2 in *.
      exists newLikes, w3. unfold bind at 1. rewrite Hrun. unfold ret.
      split; [reflexivity |]. split; [exact Hl |].
      split; [rewrite Hlen by lia; lia |].
      split; [exact Hfor |]. split; [exact Hdistinct |].
      repeat split; congruence.
    - exists [], w2. split; [reflexivity |]. split; [now rewrite app_nil_r |].
      split; [cbn; lia |]. split; [constructor |]. split; [intros _; constructor |].
      repeat split; reflexivity. }
  destruct Hlikes as (newLikes & w3 & Hrun3 & Hl3 & Hlen3 & Hfor3 & Hdistinct3 &
                      Hp3 & Hu3 & Hv3 & He3 & Hr3).
  unfold bind at 1.
  change (list_to_set (like_userId <$> filter (fun l => like_postId l = post_id post) (likes ?d)))
    with (likersOf d (post_id post)).
  rewrite Hrun3.
  exists newViews, newLikes, w3.
  split. { destruct (db_rejects env (OpTransaction (post_id post))); reflexivity. }
  split; [congruence |].
  split; [rewrite Hp3, Hp2; reflexivity |].
  split; [congruence |].
  split; [congruence |].
  split; [exact Hlen2 |]. split; [exact Hfor2 |].
  split; [congruence |].
  split; [exact Hlen3 |]. split; [exact Hfor3 |]. split; [exact Hdistinct3 |].
  rewrite He3, He2. reflexivity.
Qed.

(** X19.  With a positive insert batch size, an update of a post whose
    row exists and whose commit is accepted returns, and what it leaves is
    consistent: the row holds max(final views, locked views) and
    min(max(final likes, locked likes), written views), comments and shares
    as locked; exactly (written views - locked views) view records are
    appended, all for the post; the like records appended are for the post,
    by bot users that did not like it before, and their number is the like
    delta or, if fewer bot users are eligible, the number of eligible ones
    (then the like counter is ahead of the like records); one analytics
    entry is appended and carries the written counters and their engagement
    rate; users and registry are untouched. *)
Theorem committed_update_is_backed_by_records
    post fv fl simulation elapsedHours w locked :
  0 < bulkInsertBatchSize (appConfig env) ->
  db_rejects env (OpTransaction (post_id post)) = false ->
  db_posts w !! post_id post = Some locked ->
  let id := post_id post in
  let writtenViews := Z.max fv (viewCount locked) in
  let writtenLikes := Z.min (Z.max fl (likeCount locked)) writtenViews in
  exists newViews newLikes entry w',
    applyMetricsUpdate env post fv fl simulation elapsedHours w = (Ok tt, w') /\
    db_posts w' =
      <[id := {| viewCount := writtenViews; likeCount := writtenLikes;
                 commentCount := commentCount locked;
                 shareCount := shareCount locked |}]> (db_posts w) /\
    users (db w') = users (db w) /\
    registry w' = registry w /\
    views (db w') = views (db w) ++ newViews /\
    Z.of_nat (length newViews) = writtenViews - viewCount locked /\
    Forall (fun r => view_postId r = id) newViews /\
    likes (db w') = likes (db w) ++ newLikes /\
    Z.of_nat (length newLikes) =
      Z.min (Z.max 0 (writtenLikes - likeCount locked))
        (Z.of_nat (length (filter (fun u => isBot u = true /\
                                            user_id u ∉ likersOf (db w) id)
                             (users (db w))))) /\
    Forall (fun l => like_postId l = id /\ (like_userId l ∉ likersOf (db w) id) /\
                     botLike (users (db w)) l) newLikes /\
    analyticsEntries (db w') = analyticsEntries (db w) ++ [entry] /\
    ae_postId entry = id /\
    ae_viewCount entry = writtenViews /\
    ae_likeCount entry = writtenLikes /\
    ae_engagementRate entry =
      calculateEngagement env writtenViews writtenLikes
        (commentCount locked) (shareCount locked).
Proof.
  intros Hbatch Hcommit Hlocked. cbv zeta.
  destruct (metricsUpdateTransaction_run post fv fl simulation elapsedHours w locked
              Hbatch Hlocked)
    as (newViews & newLikes & w' & Hrun & Hreg & Hposts & Husers & Hviews & Hnv & Hfv &
        Hlikes & Hnl & Hfl & _ & Hentries).
  rewrite Hcommit in Hrun.
  eexists newViews, newLikes, _, w'.
  split; [unfold applyMetricsUpdate; now rewrite Hrun |].
  split; [exact Hposts |]. split; [exact Husers |]. split; [exact Hreg |].
  split; [exact Hviews |]. split; [exact Hnv |]. split; [exact Hfv |].
  split; [exact Hlikes |]. split; [exact Hnl |]. split; [exact Hfl |].
  split; [exact Hentries |]. repeat split; reflexivity.
Qed.

(** X20.  An update that fails leaves the database as it was.  A post
    whose row is missing when it is locked makes the update throw "post not
    found" at once; a rejected commit, after the row, the analytics entry
    and the records have been written inside the transaction, is thrown on
    after the rollback; and whatever error an update throws, the database
    is the one from before. *)
Theorem failed_update_is_rolled_back post fv fl simulation elapsedHours w :
  (db_posts w !! post_id post = None ->
   exists w',
     applyMetricsUpdate env post fv fl simulation elapsedHours w =
       (Throw (PostNotFoundLocked (post_id post)), w') /\
     db w' = db w /\ registry w' = registry w /\ draws w' = draws w) /\
  (0 < bulkInsertBatchSize (appConfig env) ->
   is_Some (db_posts w !! post_id post) ->
   db_rejects env (OpTransaction (post_id post)) = true ->
   exists w',
     applyMetricsUpdate env post fv fl simulation elapsedHours w =
       (Throw (DatabaseError (OpTransaction (post_id post))), w') /\
     db w' = db w /\ registry w' = registry w) /\
  (forall e w',
     applyMetricsUpdate env post fv fl simulation elapsedHours w = (Throw e, w') ->
     db w' = db w).
Proof.
  split; [| split].
  - intros Hmissing. unfold applyMetricsUpdate, metricsUpdateTransaction.
    rewrite bind_get_db. unfold db_posts in Hmissing. rewrite Hmissing.
    eexists. split; [reflexivity |]. repeat split; reflexivity.
  - intros Hbatch [locked Hlocked] Hcommit.
    destruct (metricsUpdateTransaction_run post fv fl simulation elapsedHours w locked
                Hbatch Hlocked) as (newViews & newLikes & w' & Hrun & Hreg & _).
    rewrite Hcommit in Hrun. unfold applyMetricsUpdate. rewrite Hrun.
    eexists. split; [reflexivity |]. split; [reflexivity | exact Hreg].
  - intros e w'. unfold applyMetricsUpdate.
    destruct (metricsUpdateTransaction env post fv fl simulation elapsedHours w)
      as [[[] | e' |] w1]; try discriminate.
    now intros [= _ <-].
Qed.
End TransactionFacts.

Lemma committed_update_is_backed_by_records_witness :
  exists w',
    applyMetricsUpdate exampleEnv examplePost 150 7 exampleSimulation 36 exampleWorld =
      (Ok tt, w') /\
    Z.of_nat (length (views (db w'))) = 50.
Proof.
  destruct (committed_update_is_backed_by_records exampleEnv examplePost 150 7
              exampleSimulation 36 exampleWorld exampleRow)
    as (newViews & newLikes & entry & w' & Hrun & _ & _ & _ & Hviews & Hcount & _).
  - reflexivity.
  - reflexivity.
  - reflexivity.
  - exists w'. split; [exact Hrun |]. rewrite Hviews. exact Hcount.
Defined.

Lemma failed_update_is_rolled_back_witness :
  exists w',
    applyMetricsUpdate commitRejected examplePost 150 7 exampleSimulation 36 exampleWorld =
      (Throw (DatabaseError (OpTransaction 1)), w') /\
    db w' = db exampleWorld.
Proof.
  destruct (failed_update_is_rolled_back commitRejected examplePost 150 7
              exampleSimulation 36 exampleWorld) as (_ & Hrejected & _).
  destruct Hrejected as (w' & Hrun & Hdb & _).
  - reflexivity.
  - exists exampleRow. reflexivity.
  - reflexivity.
  - exists w'. split; assumption.
Defined.

(** * The registry after a batch pass *)

Section RetireFacts.
Variable env : Env.

Hint Resolve get_db_same get_registry_same set_db_same_registry
  set_registry_same_db Math_random_same_registry shuffleArray_same_registry
  calculateTargetMetrics_same_registry findByPk_same
  createAnalyticsEntry_same_registry generateSyntheticViews_same_registry
  generateSyntheticLikes_same_registry : frames.

Lemma applyMetricsUpdate_same_registry post fv fl simulation elapsedHours :
  preserves (same registry) (applyMetricsUpdate env post fv fl simulation elapsedHours).
Proof.
  intros w. unfold applyMetricsUpdate.
  assert (Htx : preserves (same registry)
                  (metricsUpdateTransaction env post fv fl simulation elapsedHours))
    by (unfold metricsUpdateTransaction; frames).
  specialize (Htx w).
  destruct (metricsUpdateTransaction env post fv fl simulation elapsedHours w)
    as [[[] | e |] w1]; exact Htx.
Qed.

Lemma updateSingleSimulation_same_registry mediaId simulation preloadedPost :
  preserves (same registry) (updateSingleSimulation env mediaId simulation preloadedPost).
Proof.
  pose proof applyMetricsUpdate_same_registry.
  unfold updateSingleSimulation. frames.
Qed.

(** Only a complete simulation gets a completion result. *)
Lemma updateSingleSimulation_isComplete mediaId simulation preloadedPost :
  ensures (fun r => result_isComplete r = isSimulationComplete env simulation)
    (updateSingleSimulation env mediaId simulation preloadedPost).
Proof.
  intros w r w'. unfold updateSingleSimulation. cbv zeta.
  destruct (isSimulationComplete env simulation).
  { unfold ret. intros [= <- _]. reflexivity. }
  unfold bind at 1.
  destruct (match preloadedPost with
            | Some p => ret (Some p)
            | None => findByPk env mediaId
            end w) as [[[post |] | e |] w0]; try discriminate.
  unfold bind at 1.
  destruct (calculateTargetMetrics env simulation
              (calculateElapsedTime env (startTime simulation)) w0)
    as [[targetMetrics | e |] w1]; try discriminate.
  unfold bind at 1.
  match goal with
  | |- context [?upd w1] => destruct (upd w1) as [[[] | e |] w2]; try discriminate
  end.
  unfold ret. intros [= <- _]. reflexivity.
Qed.

(** What one round of the loop does to the registry. *)
Lemma updateOne_registry postsMap results mediaId w :
  registry (updateOne env postsMap results mediaId w).2 =
    match Map_get mediaId (registry w), Map_get mediaId postsMap with
    | Some simulation, Some _ =>
        if isSimulationComplete env simulation
        then Map_delete mediaId (registry w) else registry w
    | _, _ => registry w
    end.
Proof.
  unfold updateOne, try_catch, getSimulation. rewrite bind_ret_get_registry.
  destruct (Map_get mediaId postsMap) as [post |].
  2: { destruct (Map_get mediaId (registry w)); reflexivity. }
  destruct (Map_get mediaId (registry w)) as [simulation |] eqn:Hsim; [| reflexivity].
  unfold bind at 1.
  destruct (isSimulationComplete env simulation) eqn:Hcomplete.
  { unfold updateSingleSimulation. rewrite Hcomplete.
    unfold stopSimulation, bind, get_registry, Map_has, set_registry, ret. cbn.
    rewrite Hsim. reflexivity. }
  pose proof (updateSingleSimulation_same_registry mediaId simulation (Some post) w) as Hreg.
  pose proof (updateSingleSimulation_isComplete mediaId simulation (Some post) w) as Hdone.
  unfold same in Hreg. rewrite Hcomplete in Hdone.
  destruct (updateSingleSimulation env mediaId simulation (Some post) w)
    as [[result | e |] w1]; cbn [snd] in Hreg; [| exact Hreg | exact Hreg].
  rewrite (Hdone result w1 eq_refl). exact Hreg.
Qed.

Lemma filter_agree {A} (P Q : A -> Prop)
    `{!forall x, Decision (P x), !forall x, Decision (Q x)} (l : list A) :
  (forall x, x ∈ l -> P x <-> Q x) -> filter P l = filter Q l.
Proof.
  induction l as [| a l IH]; intros Hagree; [reflexivity |].
  assert (Hrest : filter P l = filter Q l).
  { apply IH. intros x Hx. apply Hagree, elem_of_cons. now right. }
  assert (Ha : P a <-> Q a) by (apply Hagree, elem_of_cons; now left).
  destruct (decide (P a)) as [HP | HP].
  - rewrite !filter_cons_True by tauto. now rewrite Hrest.
  - rewrite !filter_cons_False by tauto. exact Hrest.
Qed.

Lemma filter_keeps_all {A} (P : A -> Prop) `{!forall x, Decision (P x)} (l : list A) :
  (forall x, x ∈ l -> P x) -> filter P l = l.
Proof.
  induction l as [| a l IH]; intros Hall; [reflexivity |].
  rewrite filter_cons_True by (apply Hall, elem_of_cons; now left).
  rewrite IH; [reflexivity |]. intros x Hx. apply Hall, elem_of_cons. now right.
Qed.

(** The loop takes out of the registry the simulations among its targets
    that are complete and whose post was read, and no other. *)
Lemma updateEach_registry postsMap mediaIds results w :
  0 < bulkInsertBatchSize (appConfig env) ->
  NoDup (Map_keys (registry w)) ->
  exists rs w',
    updateEach env postsMap results mediaIds w = (Ok rs, w') /\
    registry w' =
      filter (fun entry => ~ (entry.1 ∈ mediaIds /\
                              isSimulationComplete env entry.2 = true /\
                              is_Some (Map_get entry.1 postsMap)))
        (registry w).
Proof.
  intros Hbatch. revert results w.
  induction mediaIds as [| mediaId rest IH]; intros results w Hkeys; simpl.
  - exists results, w. split; [reflexivity |].
    symmetry. apply filter_keeps_all. intros entry _ (Hin & _).
    now apply elem_of_nil in Hin.
  - destruct (updateOne_appends env postsMap results mediaId w Hbatch)
      as (r & w1 & Hone & _).
    pose proof (updateOne_registry postsMap results mediaId w) as Hreg1.
    rewrite Hone in Hreg1. cbn [snd] in Hreg1.
    unfold bind at 1. rewrite Hone.
    assert (Hkeys1 : NoDup (Map_keys (registry w1))).
    { rewrite Hreg1.
      destruct (Map_get mediaId (registry w)) as [simulation |]; [| exact Hkeys].
      destruct (Map_get mediaId postsMap); [| exact Hkeys].
      destruct (isSimulationComplete env simulation); [| exact Hkeys].
      rewrite Map_keys_delete. now apply NoDup_filter. }
    destruct (IH (results ++ [r]) w1 Hkeys1) as (rs & w2 & Hrest & Hreg2).
    exists rs, w2. split; [exact Hrest |]. rewrite Hreg2, Hreg1.
    assert (Hkept :
      ~ (exists simulation, Map_get mediaId (registry w) = Some simulation /\
                            isSimulationComplete env simulation = true /\
                            is_Some (Map_get mediaId postsMap)) ->
      filter (fun entry => ~ (entry.1 ∈ rest /\
                              isSimulationComplete env entry.2 = true /\
                              is_Some (Map_get entry.1 postsMap))) (registry w) =
      filter (fun entry => ~ (entry.1 ∈ mediaId :: rest /\
                              isSimulationComplete env entry.2 = true /\
                              is_Some (Map_get entry.1 postsMap))) (registry w)).
    { intros Hnot. apply filter_agree. intros [k simulation] Hentry. cbn [fst snd].
      split.
      - intros Hrestk (Hin & Hc & Hp). apply elem_of_cons in Hin as [-> | Hin].
        + apply Hnot. exists simulation. split; [| now split].
          now apply Map_get_first.
        + apply Hrestk. now split.
      - intros Hall (Hin & Hrestk). apply Hall. split; [| exact Hrestk].
        apply elem_of_cons. now right. }
    destruct (Map_get mediaId (registry w)) as [simulation |] eqn:Hsim.
    2: { apply Hkept. intros (simulation & Hsome & _). discriminate. }
    destruct (Map_get mediaId postsMap) as [post |] eqn:Hpost.
    2: { apply Hkept. intros (simulation' & _ & _ & [post Hsome]). discriminate. }
    destruct (isSimulationComplete env simulation) eqn:Hcomplete.
    2: { apply Hkept. intros (simulation' & Hsome & Hc & _). congruence. }
    unfold Map_delete. rewrite list_filter_filter.
    apply filter_agree. intros [k simulation'] Hentry. cbn [fst snd].
    split.
    + intros (Hrestk & Hne) (Hin & Hc). apply elem_of_cons in Hin as [-> | Hin].
      * now apply Hne.
      * apply Hrestk. now split.
    + intros Hall. split.
      * intros (Hin & Hc). apply Hall. split; [| exact Hc]. apply elem_of_cons. now right.
      * intros ->. apply Hall.
        assert (Hsame : Map_get mediaId (registry w) = Some simulation')
          by now apply Map_get_first.
        rewrite Hsim in Hsame. injection Hsame as <-.
        split; [apply elem_of_cons; now left |]. split; [exact Hcomplete |].
        rewrite Hpost. eauto.
Qed.

Lemma postsById_has id ps acc :
  id ∈ post_id <$> ps ->
  is_Some (Map_get id (foldl (fun m p => Map_set (post_id p) p m) acc ps)).
Proof.
  revert acc. induction ps as [| p ps IH]; intros acc Hin; simpl.
  - now apply elem_of_nil in Hin.
  - destruct (decide (id ∈ post_id <$> ps)) as [Hlater | Hlast]; [now apply IH |].
    rewrite fmap_cons in Hin. apply elem_of_cons in Hin as [-> | Hin]; [| contradiction].
    rewrite Map_get_postsById_fresh by exact Hlast.
    rewrite Map_get_set. eauto.
Qed.

(** The batch read finds the posts of the targets that have a row. *)
Lemma postsById_found (table : gmap Z PostRow) (ids : list Z) id :
  id ∈ ids ->
  is_Some (Map_get id
             (postsById
                (omap (fun id => (fun r => {| post_id := id; post_row := r |}) <$> table !! id)
                   ids))) <->
  is_Some (table !! id).
Proof.
  intros Hid. split.
  - intros Hfound. destruct (table !! id) as [row |] eqn:Hrow; [eauto |].
    unfold postsById in Hfound. rewrite Map_get_postsById_fresh in Hfound.
    + now destruct Hfound.
    + intros Hin. apply found_posts_ids in Hin as [row' Hrow']. congruence.
  - intros [row Hrow]. apply postsById_has.
    apply list_elem_of_fmap. exists {| post_id := id; post_row := row |}.
    split; [reflexivity |]. apply list_elem_of_omap. exists id.
    split; [exact Hid |]. now rewrite Hrow.
Qed.

(** X21.  With a positive insert batch size, a batch read that is not
    rejected and one registry entry per target, a batch pass returns and
    leaves in the registry, in their order, exactly the simulations that are
    not yet complete or whose post has no row: a complete simulation whose
    post exists is taken out, a complete simulation whose post is gone
    stays registered, and a running simulation stays whatever happens to its
    update. *)
Theorem batch_pass_retires_completed_simulations w :
  0 < bulkInsertBatchSize (appConfig env) ->
  db_rejects env OpFindAllPosts = false ->
  NoDup (Map_keys (registry w)) ->
  exists results w',
    updateSimulations env w = (Ok results, w') /\
    registry w' =
      filter (fun entry => ~ (isSimulationComplete env entry.2 = true /\
                              is_Some (db_posts w !! entry.1)))
        (registry w).
Proof.
  intros Hbatch Hread Hkeys. unfold updateSimulations, getActiveSimulationIds. cbv zeta.
  rewrite bind_ret_get_registry.
  destruct (Z.of_nat (length (Map_keys (registry w))) =? 0) eqn:Hempty.
  - exists [], w. split; [reflexivity |].
    apply Z.eqb_eq in Hempty.
    destruct (registry w) as [| entry entries]; [reflexivity | simpl in Hempty; lia].
  - unfold findAllPosts. rewrite Hread. cbv iota.
    change (bind (bind get_db ?f) ?k w) with (bind (f (db w)) k w).
    cbv beta. rewrite bind_ret.
    destruct (updateEach_registry
                (postsById
                   (omap (fun id => (fun r => {| post_id := id; post_row := r |})
                                      <$> posts (db w) !! id)
                      (Map_keys (registry w))))
                (Map_keys (registry w)) [] w Hbatch Hkeys)
      as (rs & w' & Hrun & Hreg).
    exists rs, w'. split; [exact Hrun |]. rewrite Hreg.
    apply filter_agree. intros [k simulation] Hentry. cbn [fst snd].
    assert (Hk : k ∈ Map_keys (registry w)).
    { apply list_elem_of_fmap. exists (k, simulation). now split. }
    pose proof (postsById_found (posts (db w)) (Map_keys (registry w)) k Hk) as Hfound.
    unfold db_posts. tauto.
Qed.
End RetireFacts.

Lemma batch_pass_retires_completed_simulations_witness :
  exists results w',
    updateSimulations (exampleEnvAt (73 * (1000 * 60 * 60))) exampleWorld = (Ok results, w') /\
    registry w' = [].
Proof.
  destruct (batch_pass_retires_completed_simulations (exampleEnvAt (73 * (1000 * 60 * 60)))
              exampleWorld) as (results & w' & Hrun & Hreg).
  - reflexivity.
  - reflexivity.
  - apply (bool_decide_unpack _). vm_compute. exact I.
  - exists results, w'. split; [exact Hrun |]. rewrite Hreg. vm_compute. reflexivity.
Defined.

(** * The counters over a batch pass *)

Section BatchCounters.
Variable env : Env.

Hint Resolve get_db_same get_registry_same set_db_same_registry
  set_registry_same_db findAllPosts_same : frames.

#[local] Instance countersGrow_refl : Reflexive countersGrow.
Proof.
  intros w id row Hrow. exists row. split; [exact Hrow |]. repeat split; lia.
Qed.

#[local] Instance countersGrow_trans : Transitive countersGrow.
Proof.
  intros w1 w2 w3 H12 H23 id row Hrow.
  destruct (H12 id row Hrow) as (row2 & Hrow2 & Hv2 & Hc2 & Hs2 & Hl2).
  destruct (H23 id row2 Hrow2) as (row3 & Hrow3 & Hv3 & Hc3 & Hs3 & Hl3).
  exists row3. split; [exact Hrow3 |]. split; [lia |].
  split; [congruence |]. split; [congruence |].
  intros Hinv. destruct (Hl2 Hinv) as [Hlikes2 Hinv2].
  destruct (Hl3 Hinv2) as [Hlikes3 Hinv3]. split; [lia | exact Hinv3].
Qed.

Lemma same_db_grow {A} (m : M A) : preserves (same db) m -> preserves countersGrow m.
Proof.
  intros Hm w id row Hrow. specialize (Hm w). unfold same in Hm. rewrite Hm.
  now apply countersGrow_refl.
Qed.

Lemma updateSingleSimulation_grow mediaId simulation preloadedPost :
  preserves countersGrow (updateSingleSimulation env mediaId simulation preloadedPost).
Proof.
  intros w id row Hrow.
  destruct (updateSingleSimulation_posts env mediaId simulation preloadedPost w)
    as [Heq | (post & fv & fl & locked & Hlocked & Heq)];
    unfold db_posts in *; rewrite Heq.
  - now apply countersGrow_refl.
  - destruct (decide (post_id post = id)) as [<- | Hne].
    + rewrite lookup_insert_eq. eexists. split; [reflexivity |].
      assert (locked = row) as -> by congruence. simpl.
      split; [lia |]. split; [reflexivity |]. split; [reflexivity | lia].
    + rewrite lookup_insert_ne by exact Hne. now apply countersGrow_refl.
Qed.

Lemma updateEach_grow postsMap results mediaIds :
  preserves countersGrow (updateEach env postsMap results mediaIds).
Proof.
  revert results. induction mediaIds as [| mediaId rest IH]; intros results; simpl.
  - apply preserves_ret; typeclasses eauto.
  - apply preserves_bind; [typeclasses eauto | | intros results'; apply IH].
    unfold updateOne.
    apply preserves_try_catch; [typeclasses eauto | | intros e; now apply preserves_ret].
    apply preserves_bind; [typeclasses eauto | | intros simulation].
    { apply same_db_grow. unfold getSimulation. frames. }
    destruct (Map_get mediaId postsMap) as [post |]; [| now apply preserves_throw].
    destruct simulation as [simulation |]; [| now apply preserves_throw].
    apply preserves_bind; [typeclasses eauto | | intros result].
    { apply updateSingleSimulation_grow. }
    apply preserves_bind; [typeclasses eauto | | intros _; now apply preserves_ret].
    destruct (result_isComplete result); [| now apply preserves_ret].
    apply same_db_grow. unfold stopSimulation. frames.
Qed.

(** X22.  Whatever its outcome, a batch pass loses no post row and
    lowers no view count; it never touches comment and share counts; and a
    row with like count <= view count has not lost likes and still has like
    count <= view count after the pass, so a content store that satisfies the
    invariant in every row still satisfies it. *)
Theorem batch_pass_counters_only_grow w id row :
  db_posts w !! id = Some row ->
  exists row',
    db_posts (updateSimulations env w).2 !! id = Some row' /\
    viewCount row <= viewCount row' /\
    commentCount row' = commentCount row /\
    shareCount row' = shareCount row /\
    (likeCount row <= viewCount row ->
     likeCount row <= likeCount row' /\ likeCount row' <= viewCount row').
Proof.
  assert (Hpass : preserves countersGrow (updateSimulations env)).
  { unfold updateSimulations, getActiveSimulationIds. cbv zeta.
    apply preserves_bind; [typeclasses eauto | | intros mediaIds].
    { apply same_db_grow. frames. }
    destruct (Z.of_nat (length mediaIds) =? 0); [now apply preserves_ret |].
    apply preserves_bind; [typeclasses eauto | | intros found; apply updateEach_grow].
    apply same_db_grow. frames. }
  exact (Hpass w id row).
Qed.
End BatchCounters.

Lemma batch_pass_counters_only_grow_witness :
  exists row',
    db_posts (updateSimulations exampleEnv exampleWorld).2 !! 1 = Some row' /\
    100 <= viewCount row' /\ 5 <= likeCount row'.
Proof.
  destruct (batch_pass_counters_only_grow exampleEnv exampleWorld 1 exampleRow)
    as (row' & Hrow' & Hviews & _ & _ & Hlikes).
  - reflexivity.
  - exists row'. split; [exact Hrow' |]. split; [exact Hviews |].
    apply Hlikes. vm_compute. discriminate.
Defined.

(** * The simulation routes *)

Section RouteFacts.
Variable env : Env.
Variable BotConfig_create : SimulationConfig -> M Z.

Lemma Map_set_fresh {V} k (v : V) m :
  Map_get k m = None -> Map_set k v m = m ++ [(k, v)].
Proof.
  induction m as [| [k' v'] m IH]; simpl; [reflexivity |].
  destruct (decide (k' = k)); [discriminate |]. intros Hnone. now rewrite IH.
Qed.

(** X23.  The start route refuses, without registering anything or
    touching the database: a request whose target id or view ceiling is
    absent or zero, with status 400; a request for a target that already has
    a simulation, with status 400 (the service itself would replace the
    simulation); and, the read not being rejected, a request for a target
    without a post row, with status 500 and the message of the service. *)
Theorem start_route_refusals (body : StartRequest) (w : World) :
  (falsyZ (req_targetMediaId body) || falsyQ (req_maxViews body) = true ->
   postStart env BotConfig_create body w =
     (Ok (Status 400 (Message "targetMediaId and maxViews are required")), w)) /\
  (forall targetMediaId,
     req_targetMediaId body = Some targetMediaId ->
     falsyZ (req_targetMediaId body) || falsyQ (req_maxViews body) = false ->
     (is_Some (Map_get targetMediaId (registry w)) ->
      postStart env BotConfig_create body w =
        (Ok (Status 400 (Message "Simulation already active for this media")), w)) /\
     (Map_get targetMediaId (registry w) = None ->
      db_rejects env (OpFindPost targetMediaId) = false ->
      db_posts w !! targetMediaId = None ->
      postStart env BotConfig_create body w =
        (Ok (Status 500 (MessageOf (TargetMediaNotFound targetMediaId))), w))).
Proof.
  unfold postStart, try_catch. split.
  - intros Hfalsy.
    destruct (req_targetMediaId body) as [targetMediaId |]; [| reflexivity].
    destruct (req_maxViews body) as [maxViews |]; [| reflexivity].
    now rewrite Hfalsy.
  - intros targetMediaId Hid Htruthy. rewrite Hid in *.
    destruct (req_maxViews body) as [maxViews |];
      [| simpl in Htruthy; rewrite orb_true_r in Htruthy; discriminate].
    rewrite Htruthy. unfold getSimulationStatus.
    change (bind (bind get_registry ?f) ?k w) with (bind (f (registry w)) k w). cbv beta.
    split.
    + intros [simulation Hsim]. rewrite Hsim. reflexivity.
    + intros Hnone Hread Hmissing. rewrite Hnone, bind_ret.
      unfold bind at 1. unfold startViralSimulation, try_catch. cbv zeta.
      unfold bind at 1. unfold findByPk. cbn [cfg_targetMediaId startConfig].
      rewrite Hread, bind_get_db. unfold db_posts in Hmissing. rewrite Hmissing.
      reflexivity.
Qed.

(** X24.  The start route registers the simulation before it records the
    request: for a target with a post row and no simulation, when the
    recording of the request throws (and leaves the world as it is), the
    route answers with status 500 and the message of that error, yet the
    simulation is registered, at the end of the registry, with the counters
    of the row as initial values; the database is untouched. *)
Theorem start_route_registers_before_recording
    (body : StartRequest) (w : World) targetMediaId requestedViews row error :
  (forall config w0, BotConfig_create config w0 = (Throw error, w0)) ->
  req_targetMediaId body = Some targetMediaId ->
  req_maxViews body = Some requestedViews ->
  falsyZ (req_targetMediaId body) || falsyQ (req_maxViews body) = false ->
  Map_get targetMediaId (registry w) = None ->
  db_rejects env (OpFindPost targetMediaId) = false ->
  db_posts w !! targetMediaId = Some row ->
  exists simulation w',
    postStart env BotConfig_create body w = (Ok (Status 500 (MessageOf error)), w') /\
    registry w' = registry w ++ [(targetMediaId, simulation)] /\
    db w' = db w /\
    maxViews simulation = requestedViews /\
    initialViews simulation = viewCount row /\
    initialLikes simulation = likeCount row /\
    startTime simulation = Date_now env.
Proof.
  intros Hfails Hid Hviews Htruthy Hnone Hread Hrow.
  unfold postStart, try_catch. rewrite Hid, Hviews in *. rewrite Htruthy.
  unfold getSimulationStatus.
  change (bind (bind get_registry ?f) ?k w) with (bind (f (registry w)) k w). cbv beta.
  rewrite Hnone, bind_ret.
  unfold bind at 1. unfold startViralSimulation, try_catch. cbv zeta.
  unfold bind at 1. unfold findByPk. cbn [cfg_targetMediaId startConfig].
  rewrite Hread, bind_get_db. unfold db_posts in Hrow. rewrite Hrow.
  cbn [fmap option_fmap option_map ret fst snd].
  unfold startSimulation, bind, get_registry, set_registry, ret.
  cbn [fst snd registry db draws]. rewrite Hfails, (Map_set_fresh _ _ _ Hnone).
  eexists. eexists. split; [reflexivity |]. cbn.
  split; [reflexivity |]. repeat split; reflexivity.
Qed.
End RouteFacts.

Lemma start_route_refusals_witness :
  postStart exampleEnv (fun _ => ret 1)
    {| req_targetMediaId := Some 1; req_maxViews := Some 200%Q; req_maxLikes := None;
       req_likeRatio := None; req_growthDurationHours := None; req_growthCurve := None |}
    exampleWorld =
  (Ok (Status 400 (Message "Simulation already active for this media")), exampleWorld).
Proof.
  eapply (start_route_refusals exampleEnv (fun _ => ret 1)).
  - reflexivity.
  - reflexivity.
  - exists exampleSimulation. reflexivity.
Defined.

Lemma start_route_registers_before_recording_witness :
  exists simulation w',
    postStart exampleEnv (fun _ => throw TypeError)
      {| req_targetMediaId := Some 1; req_maxViews := Some 200%Q; req_maxLikes := None;
         req_likeRatio := None; req_growthDurationHours := None; req_growthCurve := None |}
      unseenWorld = (Ok (Status 500 (MessageOf TypeError)), w') /\
    registry w' = [(1, simulation)].
Proof.
  destruct (start_route_registers_before_recording exampleEnv (fun _ => throw TypeError)
              {| req_targetMediaId := Some 1; req_maxViews := Some 200%Q;
                 req_maxLikes := None; req_likeRatio := None;
                 req_growthDurationHours := None; req_growthCurve := None |}
              unseenWorld 1 200%Q unseenRow TypeError)
    as (simulation & w' & Hrun & Hreg & _); try reflexivity.
  exists simulation, w'. split; [exact Hrun | exact Hreg].
Defined.

Section UpdateRouteFacts.
Variable env : Env.

Lemma updateSimulations_runs w :
  0 < bulkInsertBatchSize (appConfig env) ->
  registry w = [] \/ db_rejects env OpFindAllPosts = false ->
  exists results w',
    updateSimulations env w = (Ok results, w') /\
    result_mediaId <$> results = Map_keys (registry w).
Proof.
  intros Hbatch Hread. unfold updateSimulations, getActiveSimulationIds. cbv zeta.
  rewrite bind_ret_get_registry.
  destruct (Z.of_nat (length (Map_keys (registry w))) =? 0) eqn:Hempty.
  - exists [], w. apply Z.eqb_eq in Hempty.
    destruct (Map_keys (registry w)) as [| k ks]; [| simpl in Hempty; lia].
    split; reflexivity.
  - destruct Hread as [Hnone | Hok].
    { rewrite Hnone in Hempty. discriminate. }
    unfold findAllPosts. rewrite Hok. cbv iota.
    change (bind (bind get_db ?f) ?k w) with (bind (f (db w)) k w).
    cbv beta. rewrite bind_ret.
    destruct (updateEach_appends env
                (postsById
                   (omap (fun id => (fun r => {| post_id := id; post_row := r |})
                                      <$> posts (db w) !! id)
                      (Map_keys (registry w))))
                (Map_keys (registry w)) [] w Hbatch)
      as (rs & w' & Hrun & Hids & _).
    exists rs, w'. split; [exact Hrun | exact Hids].
Qed.

(** X25.  With a positive insert batch size, neither caller of the batch
    pass lets an error escape.  When no simulation is registered or the
    batch read is accepted, the update route answers with the results and
    their number, which is the number of registered simulations, one result
    per target in registry order, and the scheduled job ends in the same
    world.  When simulations are registered and the batch read is rejected,
    the route answers with status 500, the job swallows the error, and
    nothing has changed. *)
Theorem update_route_always_responds w :
  0 < bulkInsertBatchSize (appConfig env) ->
  (registry w = [] \/ db_rejects env OpFindAllPosts = false ->
   exists results w',
     postUpdate env w = (Ok (Json (Z.of_nat (length (registry w)), results)), w') /\
     result_mediaId <$> results = Map_keys (registry w) /\
     scheduledUpdate env w = (Ok tt, w')) /\
  (registry w <> [] -> db_rejects env OpFindAllPosts = true ->
   postUpdate env w = (Ok (Status 500 (Message "Failed to update simulations")), w) /\
   scheduledUpdate env w = (Ok tt, w)).
Proof.
  intros Hbatch. split.
  - intros Hread.
    destruct (updateSimulations_runs w Hbatch Hread) as (results & w' & Hrun & Hids).
    exists results, w'. unfold postUpdate, scheduledUpdate, try_catch, bind.
    rewrite Hrun. unfold ret.
    assert (Hlen : length results = length (registry w)).
    { rewrite <- (length_fmap result_mediaId), Hids. apply length_fmap. }
    rewrite Hlen. repeat split. exact Hids.
  - intros Hactive Hread.
    assert (Hrun : updateSimulations env w = (Throw (DatabaseError OpFindAllPosts), w)).
    { unfold updateSimulations, getActiveSimulationIds. cbv zeta.
      rewrite bind_ret_get_registry.
      destruct (registry w) as [| entry entries]; [now contradict Hactive |].
      cbn [Map_keys fmap list_fmap length]. 
      destruct (Z.eqb_spec (Z.of_nat (S (length (fst <$> entries)))) 0) as [Hz | _]; [lia |].
      unfold findAllPosts. rewrite Hread. reflexivity. }
    unfold postUpdate, scheduledUpdate, try_catch, bind. rewrite Hrun. split; reflexivity.
Qed.
End UpdateRouteFacts.

Lemma update_route_always_responds_witness :
  (exists results w',
     postUpdate exampleEnv exampleWorld = (Ok (Json (1, results)), w') /\
     result_mediaId <$> results = [1]) /\
  postUpdate batchReadRejected exampleWorld =
    (Ok (Status 500 (Message "Failed to update simulations")), exampleWorld).
Proof.
  split.
  - destruct (update_route_always_responds exampleEnv exampleWorld) as [Hok _];
      [reflexivity |].
    destruct Hok as (results & w' & Hrun & Hids & _); [right; reflexivity |].
    exists results, w'. split; [exact Hrun | exact Hids].
  - destruct (update_route_always_responds batchReadRejected exampleWorld) as [_ Hfail];
      [reflexivity |].
    destruct Hfail as [Hrun _]; [discriminate | reflexivity | exact Hrun].
Defined.
